(** * EthContext of the wormhole-connect SDK: a shallow embedding

    The development follows the EVM context of the SDK (class [EthContext])
    and the types of [types.ts].

    - [Ethers] models the byte and address utilities of the ethers library
      that [formatAddress] and [parseAddress] are written with.
    - [Types] is the data model of [types.ts].
    - [prog] is the effect layer: every awaited call of the source (an RPC
      query, a contract call, a submitted transaction) is one [Call] node of a
      finite interaction tree, a thrown [Error] is a [Throw] node, and [run]
      executes a tree against a handler that plays the network, returning the
      outcome together with the ordered list of calls that were made.
    - [EthContext] holds the methods, in source order. *)

From Stdlib Require Import ZArith NArith List Bool Lia.
From Stdlib.Strings Require Import String Ascii Byte.
Import ListNotations.
Local Open Scope string_scope.

(** ** Errors

    One constructor per [throw] site of the source, plus the two families of
    errors raised by collaborators: argument errors of the ethers utilities and
    failures of a network or contract call, which the source never catches. *)
Inductive error : Type :=
| NoSigner            (* Error(`No signer for ${chain}`) *)
| TokenNotRegistered  (* Error('token not registered') *)
| NoReceipt           (* Error(`No receipt for ${tx} on ${chain}`) *)
| NoContract (which : string)  (* contracts.mustGetX: contract not configured *)
| NoProvider          (* context.mustGetProvider *)
| InvalidArgument (reason : string)  (* ethers logger.throwArgumentError *)
| CallException (reason : string).   (* rejected RPC / reverted contract call *)

Inductive result (A : Type) : Type :=
| Ok (a : A)
| Err (e : error).
Arguments Ok {A} a.
Arguments Err {A} e.

Definition rbind {A B} (r : result A) (f : A -> result B) : result B :=
  match r with
  | Ok a => f a
  | Err e => Err e
  end.

(** ** The ethers utilities used by the address codec *)
Module Ethers.

Definition bytes := list byte.

(** [BytesLike]: a hex string or an array of bytes. *)
Inductive BytesLike : Type :=
| HexString (s : string)
| Uint8Array (b : bytes).

Definition nibble_char (n : N) : ascii :=
  match n with
  | 0 => "0" | 1 => "1" | 2 => "2" | 3 => "3" | 4 => "4" | 5 => "5"
  | 6 => "6" | 7 => "7" | 8 => "8" | 9 => "9" | 10 => "a" | 11 => "b"
  | 12 => "c" | 13 => "d" | 14 => "e" | _ => "f"
  end%N%char.

Definition hi_char (b : byte) : ascii := nibble_char (Byte.to_N b / 16).
Definition lo_char (b : byte) : ascii := nibble_char (Byte.to_N b mod 16).

Fixpoint hex_of_bytes (b : bytes) : string :=
  match b with
  | [] => EmptyString
  | x :: r => String (hi_char x) (String (lo_char x) (hex_of_bytes r))
  end.

(** [utils.hexlify] of a byte array: "0x" and two lower-case digits a byte. *)
Definition hexlify (b : bytes) : string := "0x" ++ hex_of_bytes b.

(** Value of a hexadecimal digit, either case ([0-9A-Fa-f]). *)
Definition hex_val (c : ascii) : option N :=
  let n := N_of_ascii c in
  if ((48 <=? n) && (n <=? 57))%N then Some (n - 48)%N
  else if ((97 <=? n) && (n <=? 102))%N then Some (n - 87)%N
  else if ((65 <=? n) && (n <=? 70))%N then Some (n - 55)%N
  else None.

Definition is_hex_digit (c : ascii) : bool :=
  match hex_val c with Some _ => true | None => false end.

Fixpoint all_chars (p : ascii -> bool) (s : string) : bool :=
  match s with
  | EmptyString => true
  | String c r => p c && all_chars p r
  end.

Fixpoint any_char (p : ascii -> bool) (s : string) : bool :=
  match s with
  | EmptyString => false
  | String c r => p c || any_char p r
  end.

Definition byte_of_N (n : N) : byte :=
  match Byte.of_N n with Some b => b | None => x00 end.

(** Pairs of digits to bytes; [None] on an odd number of digits or on a
    character that is no digit. *)
Fixpoint bytes_of_hex (s : string) : option bytes :=
  match s with
  | EmptyString => Some []
  | String _ EmptyString => None
  | String h (String l r) =>
      match hex_val h, hex_val l, bytes_of_hex r with
      | Some a, Some b, Some t => Some (byte_of_N (16 * a + b) :: t)
      | _, _, _ => None
      end
  end.

(** [isHexString]: /^0x[0-9A-Fa-f]*$/ *)
Definition isHexString (s : string) : bool :=
  match s with
  | String "0" (String "x" r) => all_chars is_hex_digit r
  | _ => false
  end.

(** [utils.arrayify]: a hex string must have an even number of digits (no
    [hexPad] option is passed anywhere in the source). *)
Definition arrayify (v : BytesLike) : result bytes :=
  match v with
  | Uint8Array b => Ok b
  | HexString s =>
      if isHexString s then
        match bytes_of_hex (substring 2 (String.length s - 2) s) with
        | Some b => Ok b
        | None => Err (InvalidArgument "hex data is odd-length")
        end
      else Err (InvalidArgument "invalid arrayify value")
  end.

(** [utils.zeroPad(value, length)]: left-pads with zero bytes, and throws
    when the value is longer than [length]. *)
Definition zeroPad (v : BytesLike) (len : nat) : result bytes :=
  rbind (arrayify v) (fun b =>
    if (len <? List.length b)%nat
    then Err (InvalidArgument "value out of range")
    else Ok (repeat x00 (len - List.length b) ++ b)%list).

Fixpoint drop_zeros (b : bytes) : bytes :=
  match b with
  | x00 :: r => drop_zeros r
  | _ => b
  end.

(** [utils.stripZeros]: removes every leading zero byte. *)
Definition stripZeros (v : BytesLike) : result bytes :=
  rbind (arrayify v) (fun b => Ok (drop_zeros b)).

Definition is_lower_af (c : ascii) : bool :=
  let n := N_of_ascii c in ((97 <=? n) && (n <=? 102))%N.
Definition is_upper_AF (c : ascii) : bool :=
  let n := N_of_ascii c in ((65 <=? n) && (n <=? 70))%N.

Definition toUpperCase (c : ascii) : ascii :=
  let n := N_of_ascii c in
  if ((97 <=? n) && (n <=? 122))%N then ascii_of_N (n - 32) else c.
Definition toLowerCase (c : ascii) : ascii :=
  let n := N_of_ascii c in
  if ((65 <=? n) && (n <=? 90))%N then ascii_of_N (n + 32) else c.

Fixpoint map_string (f : ascii -> ascii) (s : string) : string :=
  match s with
  | EmptyString => EmptyString
  | String c r => String (f c) (map_string f r)
  end.

(** /^(0x)?[0-9a-fA-F]{40}$/ *)
Definition is_address_string (s : string) : bool :=
  match s with
  | String "0" (String "x" r) =>
      (String.length r =? 40)%nat && all_chars is_hex_digit r
  | _ => (String.length s =? 40)%nat && all_chars is_hex_digit s
  end.

Definition with_0x (s : string) : string :=
  match s with
  | String "0" (String "x" _) => s
  | _ => "0x" ++ s
  end.

Definition AddressZero : string :=
  "0x0000000000000000000000000000000000000000".

Definition MaxUint256 : Z := 2 ^ 256 - 1.

Section Checksum.
(** The hash function of the EIP-55 checksum, applied to the forty
    character codes of the lower-case digits. *)
Variable keccak256 : bytes -> bytes.

Definition char_codes (s : string) : bytes :=
  map (fun c => byte_of_N (N_of_ascii c)) (list_ascii_of_string s).

(** The loop of [getChecksumAddress]: digits [i] and [i+1] are upper-cased
    when the high, resp. low, nibble of [hashed[i >> 1]] is at least 8. *)
Fixpoint checksum_chars (hashed : bytes) (chars : string) : string :=
  match chars with
  | String c0 (String c1 r) =>
      let h := Byte.to_N (hd x00 hashed) in
      let c0' := if (8 <=? h / 16)%N then toUpperCase c0 else c0 in
      let c1' := if (8 <=? h mod 16)%N then toUpperCase c1 else c1 in
      String c0' (String c1' (checksum_chars (tl hashed) r))
  | _ => chars
  end.

Definition getChecksumAddress (address : string) : string :=
  let chars := map_string toLowerCase (substring 2 40 address) in
  "0x" ++ checksum_chars (keccak256 (char_codes chars)) chars.

(** [utils.getAddress] on a string.  A string of both cases whose
    checksum is wrong is rejected.  The ICAP form ("XE" and base-36
    digits) is reported as invalid here: no caller in the source can
    produce it, every argument being an output of [hexlify]. *)
Definition getAddress (address : string) : result string :=
  if is_address_string address then
    let a := with_0x address in
    let r := getChecksumAddress a in
    if any_char is_upper_AF a && any_char is_lower_af a
       && negb (String.eqb r a)
    then Err (InvalidArgument "bad address checksum")
    else Ok r
  else Err (InvalidArgument "invalid address").
End Checksum.

End Ethers.

(** ** Data model ([types.ts]) *)
Module Types.

Definition ChainName := string.
Definition ChainId := Z.

(** [ChainName | ChainId]: every public method takes a chain by name or by
    numeric id. *)
Inductive Chain : Type :=
| ByName (name : ChainName)
| ById (id : ChainId).

(** [enum Context] *)
Inductive Context : Type :=
| ETH | TERRA | INJECTIVE | XPLA | SOLANA | ALGORAND | NEAR | APTOS | SUI | SEI
| OTHER.

Record TokenId : Type := mkTokenId {
  chain : ChainName;
  address : string
}.

(** [TokenId | typeof NATIVE] *)
Inductive Token : Type :=
| NATIVE
| TokenOf (t : TokenId).

(** [BigNumberish], by the run-time kind of the value: a (whole) JS number, a
    bigint, a string or a [BigNumber] object. *)
Inductive BigNumberish : Type :=
| JsNumber (n : Z)
| JsBigInt (n : Z)
| JsString (s : string)
| BigNumberObj (n : Z).

Module BigNumber.

Definition digit_val (c : ascii) : option Z :=
  let n := N_of_ascii c in
  if ((48 <=? n) && (n <=? 57))%N then Some (Z.of_N (n - 48)) else None.

Fixpoint parse_digits (base : Z) (val : ascii -> option Z) (acc : Z)
         (s : string) : option Z :=
  match s with
  | EmptyString => Some acc
  | String c r =>
      match val c with
      | Some d => parse_digits base val (base * acc + d) r
      | None => None
      end
  end.

Definition hex_digit_val (c : ascii) : option Z :=
  option_map Z.of_N (Ethers.hex_val c).

(** The two forms of a number in a string: /^-?0x[0-9a-f]+$/i and
    /^-?[0-9]+$/, here without the sign.  (The first pattern also admits the
    prefix "0X"; such a string is not given a value here.) *)
Definition parse_unsigned (s : string) : option Z :=
  match s with
  | EmptyString => None
  | String "0" (String "x" r) =>
      match r with
      | EmptyString => None
      | _ => parse_digits 16 hex_digit_val 0 r
      end
  | _ => parse_digits 10 digit_val 0 s
  end.

Definition from_string (s : string) : result Z :=
  let r := match s with
           | String "-" b => option_map Z.opp (parse_unsigned b)
           | _ => parse_unsigned s
           end in
  match r with
  | Some z => Ok z
  | None => Err (InvalidArgument "invalid BigNumber string")
  end.

Definition MAX_SAFE : Z := 0x1fffffffffffff.

(** [BigNumber.from] *)
Definition from (v : BigNumberish) : result Z :=
  match v with
  | BigNumberObj n => Ok n
  | JsString s => from_string s
  | JsNumber n =>
      if ((MAX_SAFE <=? n) || (n <=? - MAX_SAFE))%Z
      then Err (InvalidArgument "overflow")
      else Ok n
  | JsBigInt n => Ok n
  end.

End BigNumber.

(** JavaScript truthiness of the values that the source tests. *)
Definition truthy_string (s : string) : bool :=
  match s with EmptyString => false | _ => true end.

Definition truthy (v : BigNumberish) : bool :=
  match v with
  | JsNumber n => negb (n =? 0)%Z
  | JsBigInt n => negb (n =? 0)%Z
  | JsString s => truthy_string s
  | BigNumberObj _ => true
  end.

(** [PayableOverrides & { from? }]: the two fields that the source sets
    itself, and the caller's remaining overrides as they came. *)
Record Overrides : Type := mkOverrides {
  ov_value : option Z;
  ov_from : option string;
  ov_rest : list (string * string)
}.

Definition no_overrides : Overrides := mkOverrides None None [].

(** [{ ...overrides, value }] and [{ ...overrides, from }] *)
Definition with_value (o : Overrides) (v : Z) : Overrides :=
  mkOverrides (Some v) (ov_from o) (ov_rest o).
Definition with_from (o : Overrides) (a : string) : Overrides :=
  mkOverrides (ov_value o) (Some a) (ov_rest o).

(** A method of the bridge or relayer contract with its arguments, as passed
    to [callStatic.f], [populateTransaction.f] or [f] itself. *)
Inductive ContractCall : Type :=
| wrapAndTransferETH (recipientChain : ChainId) (recipient : Ethers.bytes)
    (relayerFee : BigNumberish) (nonce : Ethers.bytes) (ov : Overrides)
| transferTokens (token : string) (amount : Z) (recipientChain : ChainId)
    (recipient : Ethers.bytes) (relayerFee : BigNumberish)
    (nonce : Ethers.bytes) (ov : Overrides)
| wrapAndTransferEthWithRelay (toNativeTokenAmount : Z)
    (recipientChain : ChainId) (recipient : Ethers.bytes) (batchId : Z)
    (ov : Overrides)
| transferTokensWithRelay (token : string) (amount : Z)
    (toNativeTokenAmount : Z) (recipientChain : ChainId)
    (recipient : Ethers.bytes) (batchId : Z) (ov : Overrides)
| completeTransfer (signedVAA : Ethers.bytes) (ov : Overrides).

Record PopulatedTransaction : Type := mkPopulated {
  tx_to : string;
  tx_call : ContractCall
}.

Definition Signer := string.
Definition TransactionResponse := string.  (* the hash of a sent transaction *)

(** The arguments of a [LogMessagePublished] event of the core contract, as
    [Interface.parseLog] decodes them; [payload] is the byte string whose
    [hexlify] is the JavaScript value of [args.payload]. *)
Record LogArgs : Type := mkLogArgs {
  arg_sender : string;
  arg_sequence : Z;
  arg_payload : Ethers.bytes
}.

(** A log of a receipt.  Topics and data are kept decoded: [parsed] is what
    [parseLog] returns for the log, [None] when it returns [null]. *)
Record Log : Type := mkLog {
  log_address : string;
  parsed : option LogArgs
}.

Record ContractReceipt : Type := mkReceipt {
  from : string;
  blockNumber : Z;
  gasUsed : option Z;
  effectiveGasPrice : option Z;
  logs : list Log
}.

(** Results of the bridge's [parseTransfer] and [parseTransferWithPayload]:
    the fields that [parseMessageFromTx] reads. *)
Record Transfer : Type := mkTransfer {
  t_payloadID : Z;
  t_amount : Z;
  t_tokenAddress : string;
  t_tokenChain : ChainId;
  t_to : string;
  t_toChain : ChainId
}.

Record TransferWithPayload : Type := mkTransferWithPayload {
  p_payloadID : Z;
  p_amount : Z;
  p_tokenAddress : string;
  p_tokenChain : ChainId;
  p_to : string;
  p_toChain : ChainId;
  p_payload : string
}.

Record ParsedMessage : Type := mkParsedMessage {
  sendTx : string;
  sender : string;
  amount : Z;
  payloadID : Z;
  recipient : string;
  toChain : ChainName;
  fromChain : ChainName;
  tokenAddress : string;
  tokenChain : ChainName;
  tokenId : TokenId;
  sequence : Z;
  emitterAddress : string;
  block : Z;
  gasFee : option Z
}.

Record ParsedRelayerPayload : Type := mkParsedRelayerPayload {
  relayerPayloadId : Z;
  to : string;
  relayerFee : Z;
  toNativeTokenAmount : Z
}.

(** [ParsedMessage & ParsedRelayerPayload], as the object literal of
    [parseMessageFromTx] fills it: the fields of a [ParsedMessage] (whose
    [recipient] is the final recipient of the relayer payload), the
    pass-through [to], the raw [payload] and the relayer fields. *)
Record ParsedRelayerMessage : Type := mkParsedRelayerMessage {
  r_message : ParsedMessage;
  r_to : string;
  r_payload : string;
  r_relayerPayloadId : Z;
  r_relayerFee : Z;
  r_toNativeTokenAmount : Z
}.

(** [AnyMessage = ParsedMessage | ParsedRelayerMessage] *)
Inductive AnyMessage : Type :=
| BasicTransfer (m : ParsedMessage)
| RelayerTransfer (m : ParsedRelayerMessage).

Definition message_gasFee (m : AnyMessage) : option Z :=
  match m with
  | BasicTransfer m => gasFee m
  | RelayerTransfer m => gasFee (r_message m)
  end.

Definition message_payloadID (m : AnyMessage) : Z :=
  match m with
  | BasicTransfer m => payloadID m
  | RelayerTransfer m => payloadID (r_message m)
  end.

End Types.
Import Types.

(** ** Effects

    [request R] is an awaited call answered with an [R]: a query to a node or
    a contract, a transaction handed to a signer, a call into the context of
    another chain, or a draw of [createNonce]. *)
Inductive request : Type -> Type :=
(* token bridge contract *)
| wrappedAsset (bridge : string) (chainId : ChainId)
    (tokenAddr : Ethers.bytes) : request string
| WETH (bridge : string) : request string
| parseTransfer (bridge : string) (payload : string) : request Transfer
| parseTransferWithPayload (bridge : string) (payload : string) :
    request TransferWithPayload
(* token contract *)
| allowance (token owner spender : string) : request Z
| approveTx (token : string) (signer : Signer) (spender : string)
    (amount : Z) (ov : Overrides) : request TransactionResponse
(* bridge or relayer contract, by address *)
| callStatic (contract : string) (c : ContractCall) : request unit
| populateTransaction (contract : string) (c : ContractCall) :
    request PopulatedTransaction
(* signer and provider *)
| getAddress (signer : Signer) : request string
| sendTransaction (signer : Signer) (tx : PopulatedTransaction) :
    request TransactionResponse
| wait (tx : TransactionResponse) : request ContractReceipt
| getTransactionReceipt (chain : Chain) (tx : string) :
    request (option ContractReceipt)
(* asynchronous methods of the context of a chain that is not an EVM chain *)
| formatAssetAddressOn (ctx : Context) (address : string) :
    request Ethers.bytes
| parseAssetAddressOn (ctx : Context) (address : string) : request string
| getAssociatedTokenAddress (token : TokenId) (recipient : string) :
    request string
(* @certusone/wormhole-sdk *)
| createNonce : request Ethers.bytes.

(** A program: a finite tree of calls.  No method of the source loops on a
    call, and none catches an exception, so [Throw] is a leaf. *)
Inductive prog (A : Type) : Type :=
| Ret (a : A)
| Throw (e : error)
| Call (R : Type) (q : request R) (k : R -> prog A).
Arguments Ret {A} a.
Arguments Throw {A} e.
Arguments Call {A R} q k.

Fixpoint bind {A B} (p : prog A) (f : A -> prog B) : prog B :=
  match p with
  | Ret a => f a
  | Throw e => Throw e
  | Call q k => Call q (fun r => bind (k r) f)
  end.

Definition call {R} (q : request R) : prog R := Call q Ret.

Definition lift {A} (r : result A) : prog A :=
  match r with
  | Ok a => Ret a
  | Err e => Throw e
  end.

Declare Scope prog_scope.
Delimit Scope prog_scope with prog.
Notation "x <- p ;; k" := (bind p (fun x => k))
  (at level 100, p at next level, right associativity) : prog_scope.
Notation "p ;;; k" := (bind p (fun _ => k))
  (at level 100, right associativity) : prog_scope.
Local Open Scope prog_scope.

(** [Promise.all(xs.map(async x => f x))], with the elements taken one after
    the other, in the order of the list.  In JavaScript the calls of
    different elements may interleave and, when one element fails, those of
    the later elements are still made; the list returned when no element
    fails is the same. *)
Fixpoint mapM {A B} (f : A -> prog B) (xs : list A) : prog (list B) :=
  match xs with
  | [] => Ret []
  | x :: r => y <- f x ;; ys <- mapM f r ;; Ret (y :: ys)
  end.

(** The answer to a call: a value, or a failure that the caller sees as a
    rejected promise. *)
Inductive reply (R : Type) : Type :=
| Answer (r : R)
| Failure (reason : string).
Arguments Answer {R} r.
Arguments Failure {R} reason.

(** The network, as a state [W] and the answer it gives to each call. *)
Definition handler (W : Type) : Type :=
  forall R, request R -> W -> reply R * W.

(** An entry of the trace: the call, and whether it was answered. *)
Inductive event : Type :=
| Event {R : Type} (q : request R) (answered : bool).

Definition trace := list event.

Record outcome (W A : Type) : Type := mkOutcome {
  returned : result A;
  final : W;
  calls : trace
}.
Arguments mkOutcome {W A} returned final calls.
Arguments returned {W A} o.
Arguments final {W A} o.
Arguments calls {W A} o.

Definition after {W A} (e : event) (o : outcome W A) : outcome W A :=
  mkOutcome (returned o) (final o) (e :: calls o).

Fixpoint run {W A} (h : handler W) (p : prog A) (w : W) : outcome W A :=
  match p with
  | Ret a => mkOutcome (Ok a) w []
  | Throw e => mkOutcome (Err e) w []
  | Call q k =>
      match h _ q w with
      | (Answer r, w') => after (Event q true) (run h (k r) w')
      | (Failure reason, w') =>
          mkOutcome (Err (CallException reason)) w' [Event q false]
      end
  end.

(** ** What [EthContext] is given

    [this.context] (a [WormholeContext]) and [this.contracts] (an
    [EthContracts]) are defined outside of the context file; the methods only
    use the lookups below.  A [mustGet] lookup throws when it finds nothing,
    here [None].  The codecs of the contexts of the other chains, and
    [parseRelayerPayload] (inherited from [RelayerAbstract]), are synchronous
    functions that may throw. *)
Record WormholeContext : Type := mkWormholeContext {
  toChainId : Chain -> ChainId;
  toChainName : Chain -> ChainName;
  getSigner : Chain -> option Signer;
  getContext : Chain -> Context;
  mustGetProvider : Chain -> bool;
  mustGetBridge : Chain -> option string;
  mustGetCore : Chain -> option string;
  mustGetTokenBridgeRelayer : Chain -> option string;
  formatAddressOn : Context -> string -> result Ethers.bytes;
  parseAddressOn : Context -> Ethers.BytesLike -> result string;
  parseRelayerPayload : Context -> Ethers.bytes -> result ParsedRelayerPayload;
  keccak256 : Ethers.bytes -> Ethers.bytes
}.

Definition must {A} (which : string) (o : option A) : prog A :=
  match o with
  | Some a => Ret a
  | None => Throw (NoContract which)
  end.

Module EthContext.
Section Methods.

Variable context : WormholeContext.

Definition formatAddress (address : string) : result Ethers.bytes :=
  Ethers.zeroPad (Ethers.HexString address) 32.

Definition parseAddress (address : Ethers.BytesLike) : result string :=
  rbind (Ethers.stripZeros address) (fun stripped =>
    Ethers.getAddress (keccak256 context) (Ethers.hexlify stripped)).

(** The four codec methods of [getContext(chain)]: those of this class on
    an EVM chain, those of the other context elsewhere. *)
Definition formatAddressOf (ctx : Context) (a : string) :
  result Ethers.bytes :=
  match ctx with
  | ETH => formatAddress a
  | _ => formatAddressOn context ctx a
  end.

Definition parseAddressOf (ctx : Context) (a : Ethers.BytesLike) :
  result string :=
  match ctx with
  | ETH => parseAddress a
  | _ => parseAddressOn context ctx a
  end.

Definition formatAssetAddress (address : string) : prog Ethers.bytes :=
  lift (formatAddress address).

Definition parseAssetAddress (address : string) : prog string :=
  lift (parseAddress (Ethers.HexString address)).

Definition formatAssetAddressOf (ctx : Context) (a : string) :
  prog Ethers.bytes :=
  match ctx with
  | ETH => formatAssetAddress a
  | _ => call (formatAssetAddressOn ctx a)
  end.

Definition parseAssetAddressOf (ctx : Context) (a : string) : prog string :=
  match ctx with
  | ETH => parseAssetAddress a
  | _ => call (parseAssetAddressOn ctx a)
  end.

Definition getForeignAsset (tokenId : TokenId) (chain : Chain) :
  prog (option string) :=
  let toChainId_ := toChainId context chain in
  let chainId := toChainId context (ByName (Types.chain tokenId)) in
  (* if the token is already native, return the token address *)
  if (toChainId_ =? chainId)%Z then Ret (Some (Types.address tokenId))
  else
    (* else fetch the representation *)
    tokenBridge <- must "token_bridge" (mustGetBridge context chain) ;;
    let sourceContext := getContext context (ByName (Types.chain tokenId)) in
    tokenAddr <- formatAssetAddressOf sourceContext (Types.address tokenId) ;;
    (* [utils.arrayify] of a byte array is the array *)
    foreignAddr <- call (wrappedAsset tokenBridge chainId tokenAddr) ;;
    if String.eqb foreignAddr Ethers.AddressZero then Ret None
    else Ret (Some foreignAddr).

Definition mustGetForeignAsset (tokenId : TokenId) (chain : Chain) :
  prog string :=
  addr <- getForeignAsset tokenId chain ;;
  match addr with
  | Some a => if truthy_string a then Ret a else Throw TokenNotRegistered
  | None => Throw TokenNotRegistered
  end.

(** [amount || constants.MaxUint256] *)
Definition approveAmountOf (amount : option BigNumberish) : BigNumberish :=
  match amount with
  | Some a => if truthy a then a else BigNumberObj Ethers.MaxUint256
  | None => BigNumberObj Ethers.MaxUint256
  end.

Definition approve (chain : Chain) (contractAddress tokenAddr : string)
  (amount : option BigNumberish) (overrides : Overrides) : prog unit :=
  match getSigner context chain with
  | None => Throw NoSigner
  | Some signer =>
      senderAddress <- call (getAddress signer) ;;
      (* [TokenImplementation__factory.connect] returns an object, so the
         test [!tokenImplementation] never fires *)
      approved <- call (allowance tokenAddr senderAddress contractAddress) ;;
      let approveAmount := approveAmountOf amount in
      (* Approve if necessary: [approved.lt(approveAmount)] converts its
         argument with [BigNumber.from] and compares *)
      target <- lift (BigNumber.from approveAmount) ;;
      if (approved <? target)%Z then
        tx <- call (approveTx tokenAddr signer contractAddress target
                      overrides) ;;
        call (wait tx) ;;; Ret tt
      else Ret tt
  end.

Definition prepareSend (token : Token) (amount : string)
  (sendingChain : Chain) (senderAddress : string) (recipientChain : Chain)
  (recipientAddress : string) (relayerFee : BigNumberish)
  (overrides : Overrides) : prog PopulatedTransaction :=
  let destContext := getContext context recipientChain in
  let recipientChainId := toChainId context recipientChain in
  let sendingChainName := toChainName context sendingChain in
  amountBN <- lift (BigNumber.from (JsString amount)) ;;
  bridge <- must "token_bridge" (mustGetBridge context sendingChain) ;;
  (* get token account for solana *)
  recipientAccount <-
    (if (recipientChainId =? 1)%Z then
       tokenId <- match token with
                  | NATIVE =>
                      weth <- call (WETH bridge) ;;
                      Ret (mkTokenId sendingChainName weth)
                  | TokenOf t => Ret t
                  end ;;
       call (getAssociatedTokenAddress tokenId recipientAddress)
     else Ret recipientAddress) ;;
  match token with
  | NATIVE =>
      (* sending native ETH *)
      to1 <- lift (formatAddressOf destContext recipientAccount) ;;
      nonce1 <- call createNonce ;;
      call (callStatic bridge
              (wrapAndTransferETH recipientChainId to1 relayerFee nonce1
                 (with_from (with_value overrides amountBN) senderAddress)))
      ;;;
      to2 <- lift (formatAddressOf destContext recipientAccount) ;;
      nonce2 <- call createNonce ;;
      call (populateTransaction bridge
              (wrapAndTransferETH recipientChainId to2 relayerFee nonce2
                 (with_value overrides amountBN)))
  | TokenOf t =>
      (* sending ERC-20 *)
      tokenAddr <- mustGetForeignAsset t sendingChain ;;
      (* simulate transaction *)
      to1 <- lift (formatAddressOf destContext recipientAccount) ;;
      nonce1 <- call createNonce ;;
      call (callStatic bridge
              (transferTokens tokenAddr amountBN recipientChainId to1
                 relayerFee nonce1 (with_from overrides senderAddress)))
      ;;;
      to2 <- lift (formatAddressOf destContext recipientAccount) ;;
      nonce2 <- call createNonce ;;
      call (populateTransaction bridge
              (transferTokens tokenAddr amountBN recipientChainId to2
                 relayerFee nonce2 overrides))
  end.

Definition send (token : Token) (amount : string) (sendingChain : Chain)
  (senderAddress : string) (recipientChain : Chain)
  (recipientAddress : string) (relayerFee : BigNumberish)
  (overrides : Overrides) : prog ContractReceipt :=
  match getSigner context sendingChain with
  | None => Throw NoSigner
  | Some signer =>
      (* approve for ERC-20 token transfers *)
      match token with
      | NATIVE => Ret tt
      | TokenOf t =>
          amountBN <- lift (BigNumber.from (JsString amount)) ;;
          bridge <- must "token_bridge" (mustGetBridge context sendingChain) ;;
          tokenAddr <- mustGetForeignAsset t sendingChain ;;
          approve sendingChain bridge tokenAddr (Some (BigNumberObj amountBN))
            overrides
      end ;;;
      (* prepare and simulate transfer *)
      tx <- prepareSend token amount sendingChain senderAddress
              recipientChain recipientAddress relayerFee overrides ;;
      v <- call (sendTransaction signer tx) ;;
      call (wait v)
  end.

Definition prepareSendWithRelay (token : Token) (amount : string)
  (toNativeToken : string) (sendingChain : Chain) (senderAddress : string)
  (recipientChain : Chain) (recipientAddress : string)
  (overrides : Overrides) : prog PopulatedTransaction :=
  let destContext := getContext context recipientChain in
  let recipientChainId := toChainId context recipientChain in
  amountBN <- lift (BigNumber.from (JsString amount)) ;;
  relayer <- must "relayer" (mustGetTokenBridgeRelayer context sendingChain) ;;
  nativeTokenBN <- lift (BigNumber.from (JsString toNativeToken)) ;;
  match token with
  | NATIVE =>
      (* sending native ETH *)
      to_ <- lift (formatAddressOf destContext recipientAddress) ;;
      call (populateTransaction relayer
              (wrapAndTransferEthWithRelay nativeTokenBN recipientChainId to_
                 0 (* opt out of batching *)
                 (with_value overrides amountBN)))
  | TokenOf t =>
      (* sending ERC-20 *)
      tokenAddr <- mustGetForeignAsset t sendingChain ;;
      token_ <- lift (parseAddress (Ethers.HexString tokenAddr)) ;;
      to_ <- lift (formatAddressOf destContext recipientAddress) ;;
      call (populateTransaction relayer
              (transferTokensWithRelay token_ amountBN nativeTokenBN
                 recipientChainId to_
                 0 (* opt out of batching *)
                 overrides))
  end.

Definition sendWithRelay (token : Token) (amount : string)
  (toNativeToken : string) (sendingChain : Chain) (senderAddress : string)
  (recipientChain : Chain) (recipientAddress : string)
  (overrides : Overrides) : prog ContractReceipt :=
  match getSigner context sendingChain with
  | None => Throw NoSigner
  | Some signer =>
      (* approve for ERC-20 token transfers *)
      match token with
      | NATIVE => Ret tt
      | TokenOf t =>
          amountBN <- lift (BigNumber.from (JsString amount)) ;;
          relayer <- must "relayer"
                       (mustGetTokenBridgeRelayer context sendingChain) ;;
          tokenAddr <- mustGetForeignAsset t sendingChain ;;
          approve sendingChain relayer tokenAddr
            (Some (BigNumberObj amountBN)) overrides
      end ;;;
      (* prepare and simulate transfer *)
      tx <- prepareSendWithRelay token amount toNativeToken sendingChain
              senderAddress recipientChain recipientAddress overrides ;;
      v <- call (sendTransaction signer tx) ;;
      call (wait v)
  end.

Definition prepareRedeem (destChain : Chain) (signedVAA : Ethers.bytes)
  (overrides : Overrides) : prog PopulatedTransaction :=
  bridge <- must "token_bridge" (mustGetBridge context destChain) ;;
  call (callStatic bridge (completeTransfer signedVAA overrides)) ;;;
  call (populateTransaction bridge (completeTransfer signedVAA overrides)).

Definition redeem (destChain : Chain) (signedVAA : Ethers.bytes)
  (overrides : Overrides) : prog ContractReceipt :=
  match getSigner context destChain with
  | None => Throw NoSigner
  | Some signer =>
      tx <- prepareRedeem destChain signedVAA overrides ;;
      v <- call (sendTransaction signer tx) ;;
      call (wait v)
  end.

(** [gasUsed && effectiveGasPrice]: both are [BigNumber] objects when
    present, hence truthy also when zero. *)
Definition gasFeeOf (receipt : ContractReceipt) : option Z :=
  match gasUsed receipt, effectiveGasPrice receipt with
  | Some used, Some price => Some (used * price)%Z
  | _, _ => None
  end.

(** [payload.startsWith('0x01')] on the hex string of the payload. *)
Definition startsWith_0x01 (payload : Ethers.bytes) : bool :=
  String.prefix "0x01" (Ethers.hexlify payload).

(** The function mapped over the logs of the core contract. *)
Definition parseBridgeLog (tx : string) (chain : Chain) (bridge : string)
  (receipt : ContractReceipt) (gasFee : option Z) (bridgeLog : Log) :
  prog AnyMessage :=
  (* a [null] result of [parseLog] makes [parsed.args] throw *)
  args <- match parsed bridgeLog with
          | Some a => Ret a
          | None => Throw (InvalidArgument "parsed is null")
          end ;;
  let payload := Ethers.hexlify (arg_payload args) in
  (* parse token bridge message *)
  let fromChain := toChainName context chain in
  if startsWith_0x01 (arg_payload args) then
    parsedTransfer <- call (parseTransfer bridge payload) ;;
    let destContext := getContext context (ById (t_toChain parsedTransfer)) in
    let tokenContext :=
      getContext context (ById (t_tokenChain parsedTransfer)) in
    tokenAddress <-
      parseAssetAddressOf tokenContext (t_tokenAddress parsedTransfer) ;;
    let tokenChain :=
      toChainName context (ById (t_tokenChain parsedTransfer)) in
    recipient <- lift (parseAddressOf destContext
                         (Ethers.HexString (t_to parsedTransfer))) ;;
    emitter <- lift (formatAddress bridge) ;;
    Ret (BasicTransfer
           {| sendTx := tx;
              sender := from receipt;
              amount := t_amount parsedTransfer;
              payloadID := t_payloadID parsedTransfer;
              recipient := recipient;
              toChain := toChainName context (ById (t_toChain parsedTransfer));
              fromChain := fromChain;
              tokenAddress := tokenAddress;
              tokenChain := tokenChain;
              tokenId := mkTokenId tokenChain tokenAddress;
              sequence := arg_sequence args;
              emitterAddress := Ethers.hexlify emitter;
              block := blockNumber receipt;
              gasFee := gasFee |})
  else
    (* parse token bridge relayer message *)
    parsedTransfer <- call (parseTransferWithPayload bridge payload) ;;
    let destContext := getContext context (ById (p_toChain parsedTransfer)) in
    let toChain := toChainName context (ById (p_toChain parsedTransfer)) in
    (* Not all relayers follow the same payload structure (i.e. sei)
       so we request the destination context to parse the payload *)
    payloadBytes <-
      lift (Ethers.arrayify (Ethers.HexString (p_payload parsedTransfer))) ;;
    relayerPayload <-
      lift (parseRelayerPayload context destContext payloadBytes) ;;
    let tokenContext :=
      getContext context (ById (p_tokenChain parsedTransfer)) in
    tokenAddress <-
      parseAssetAddressOf tokenContext (p_tokenAddress parsedTransfer) ;;
    let tokenChain :=
      toChainName context (ById (p_tokenChain parsedTransfer)) in
    to_ <- lift (parseAddressOf destContext
                   (Ethers.HexString (p_to parsedTransfer))) ;;
    emitter <- lift (formatAddress bridge) ;;
    recipient <- lift (parseAddressOf destContext
                         (Ethers.HexString (to relayerPayload))) ;;
    Ret (RelayerTransfer
           {| r_message :=
                {| sendTx := tx;
                   sender := from receipt;
                   amount := p_amount parsedTransfer;
                   payloadID := p_payloadID parsedTransfer;
                   recipient := recipient;
                   toChain := toChain;
                   fromChain := fromChain;
                   tokenAddress := tokenAddress;
                   tokenChain := tokenChain;
                   tokenId := mkTokenId tokenChain tokenAddress;
                   sequence := arg_sequence args;
                   emitterAddress := Ethers.hexlify emitter;
                   block := blockNumber receipt;
                   gasFee := gasFee |};
              r_to := to_;
              r_payload := p_payload parsedTransfer;
              r_relayerPayloadId := relayerPayloadId relayerPayload;
              r_relayerFee := relayerFee relayerPayload;
              r_toNativeTokenAmount := toNativeTokenAmount relayerPayload |}).

Definition parseMessageFromTx (tx : string) (chain : Chain) :
  prog (list AnyMessage) :=
  if mustGetProvider context chain then
    receipt <- call (getTransactionReceipt chain tx) ;;
    match receipt with
    | None => Throw NoReceipt
    | Some receipt =>
        let gasFee := gasFeeOf receipt in
        core <- must "core" (mustGetCore context chain) ;;
        bridge <- must "token_bridge" (mustGetBridge context chain) ;;
        let bridgeLogs :=
          filter (fun l => String.eqb (log_address l) core) (logs receipt) in
        mapM (parseBridgeLog tx chain bridge receipt gasFee) bridgeLogs
    end
  else Throw NoProvider.

End Methods.
End EthContext.

(** ** A small network to run the methods on

    Four chains, an ERC-20 style allowance ledger, and a bridge that answers
    the calls of the methods.  Addresses are written in lower case, and the
    hash of the checksum is a stand-in that upper-cases nothing. *)
Module Devnet.

Definition be_Z (b : Ethers.bytes) : Z :=
  fold_left (fun acc x => (acc * 256 + Z.of_N (Byte.to_N x))%Z) b 0%Z.

Fixpoint be_bytes (n : nat) (z : Z) : Ethers.bytes :=
  match n with
  | O => []
  | S m => (be_bytes m (z / 256) ++ [Ethers.byte_of_N (Z.to_N (z mod 256))])%list
  end.

Definition slice (off len : nat) (b : Ethers.bytes) : Ethers.bytes :=
  firstn len (skipn off b).

(** Byte 0 of the payload is [d]. *)
Definition has_discriminant (d : byte) (payload : Ethers.bytes) : bool :=
  match payload with
  | b :: _ => Byte.eqb b d
  | [] => false
  end.

(** Modelled from the spec: the bridge contract's [parseTransfer], which is
    not part of the repository, after the wire table of the bridge
    transfer payload (payloadID at 0, 1 for a transfer; amount at 1, token
    address at 33, token chain at 65, recipient at 67, recipient chain at
    99).  A payload with another discriminant is refused: an unrecognized
    discriminant is a hard error. *)
Definition decodeTransfer (payload : Ethers.bytes) : option Transfer :=
  if negb (has_discriminant x01 payload) then None
  else if (List.length payload <? 101)%nat then None
  else Some {| t_payloadID := be_Z (slice 0 1 payload);
               t_amount := be_Z (slice 1 32 payload);
               t_tokenAddress := Ethers.hexlify (slice 33 32 payload);
               t_tokenChain := be_Z (slice 65 2 payload);
               t_to := Ethers.hexlify (slice 67 32 payload);
               t_toChain := be_Z (slice 99 2 payload) |}.

(** Modelled from the spec: the bridge contract's
    [parseTransferWithPayload], not part of the repository: payloadID 3 at
    0, the same fixed fields and the opaque trailing payload from offset
    101.  A payload with another discriminant is refused: an unrecognized
    discriminant is a hard error, never treated as a compatible superset. *)
Definition decodeTransferWithPayload (payload : Ethers.bytes) :
  option TransferWithPayload :=
  if negb (has_discriminant x03 payload) then None
  else if (List.length payload <? 101)%nat then None
  else Some {| p_payloadID := be_Z (slice 0 1 payload);
               p_amount := be_Z (slice 1 32 payload);
               p_tokenAddress := Ethers.hexlify (slice 33 32 payload);
               p_tokenChain := be_Z (slice 65 2 payload);
               p_to := Ethers.hexlify (slice 67 32 payload);
               p_toChain := be_Z (slice 99 2 payload);
               p_payload := Ethers.hexlify (skipn 101 payload) |}.

(** Modelled from the spec: [RelayerAbstract.parseRelayerPayload], not part
    of the repository, after the conventional relayer sub-payload: a
    discriminant byte, the final recipient, the relayer fee and the
    native-token swap amount, 32 bytes each. *)
Definition decodeRelayerPayload (b : Ethers.bytes) :
  result ParsedRelayerPayload :=
  if (List.length b <? 97)%nat
  then Err (InvalidArgument "relayer payload out of range")
  else Ok {| relayerPayloadId := be_Z (slice 0 1 b);
             to := Ethers.hexlify (slice 1 32 b);
             relayerFee := be_Z (slice 33 32 b);
             toNativeTokenAmount := be_Z (slice 65 32 b) |}.

Definition chainIdOf (name : ChainName) : ChainId :=
  (if String.eqb name "solana" then 1
   else if String.eqb name "ethereum" then 2
   else if String.eqb name "bsc" then 4
   else if String.eqb name "sei" then 32
   else 0)%Z.

Definition chainNameOf (id : ChainId) : ChainName :=
  match id with
  | 1 => "solana" | 2 => "ethereum" | 4 => "bsc" | 32 => "sei"
  | _ => EmptyString
  end%Z.

Definition idOf (c : Chain) : ChainId :=
  match c with ByName n => chainIdOf n | ById i => i end.

Definition wallet : string := "0x90f8bf6a479f320ead074411a4b0e7944ea8c9c1".
Definition eth_core : string := "0x98f3c9e6e3face36baad05fe09d375ef1464288b".
Definition eth_bridge : string := "0x3ee18b2214aff97000d974cf647e7c347e8fa585".
Definition eth_relayer : string := "0xcafd2f0a35a4459fa40c0517e17e6fa2939441ca".
Definition bsc_bridge : string := "0xb6f6d86a8f9879a9c87f643768d9efc38c1da6e7".
Definition weth : string := "0xc02aaa39b223fe8d0a0e5c4f27ead9083c756cc2".
Definition usdc : TokenId :=
  mkTokenId "ethereum" "0xa0b86991c6218b36c1d19d4a2e9eb0ce3606eb48".
Definition usdc_on_bsc : string := "0xb04906e95ab5d797ada81508115611fee694c2b3".
(** A token of the home chain that was never bridged anywhere. *)
Definition dai : TokenId :=
  mkTokenId "ethereum" "0x6b175474e89094c44da98b954eedeac495271d0f".

Definition context : WormholeContext :=
  {| toChainId := idOf;
     toChainName := fun c => match c with
                             | ByName n => n
                             | ById i => chainNameOf i
                             end;
     getSigner := fun c => if (idOf c =? 2)%Z then Some wallet else None;
     getContext := fun c => match idOf c with
                            | 1 => SOLANA | 2 => ETH | 4 => ETH | 32 => SEI
                            | _ => OTHER
                            end%Z;
     mustGetProvider := fun c => ((idOf c =? 2) || (idOf c =? 4))%Z;
     mustGetBridge := fun c => match idOf c with
                               | 2 => Some eth_bridge
                               | 4 => Some bsc_bridge
                               | _ => None
                               end%Z;
     mustGetCore := fun c => if (idOf c =? 2)%Z then Some eth_core else None;
     mustGetTokenBridgeRelayer :=
       fun c => if (idOf c =? 2)%Z then Some eth_relayer else None;
     formatAddressOn := fun _ a => Ethers.zeroPad (Ethers.HexString a) 32;
     parseAddressOn :=
       fun _ a => rbind (Ethers.arrayify a) (fun b => Ok (Ethers.hexlify b));
     parseRelayerPayload := fun _ => decodeRelayerPayload;
     keccak256 := fun _ => [] |}.

(** The state of the network: allowances by (token, owner, spender), a
    switch that makes the bridge reject every transfer, the number of
    nonces drawn so far. *)
Record World : Type := mkWorld {
  ledger : list (string * string * string * Z);
  paused : bool;
  nonces : nat
}.

Definition same_key (k1 k2 : string * string * string) : bool :=
  let '(a1, b1, c1) := k1 in
  let '(a2, b2, c2) := k2 in
  String.eqb a1 a2 && String.eqb b1 b2 && String.eqb c1 c2.

Fixpoint lookup (k : string * string * string)
         (l : list (string * string * string * Z)) : Z :=
  match l with
  | [] => 0%Z
  | (k', v) :: r => if same_key k k' then v else lookup k r
  end.

Definition pad32 (a : string) : Ethers.bytes :=
  match Ethers.zeroPad (Ethers.HexString a) 32 with
  | Ok b => b
  | Err _ => []
  end.

(** Payloads: a basic transfer of 1_000_000 units of a token of chain 2 to
    chain 1; a transfer with a relayer payload to chain 4; and the latter
    with 2 as its first byte. *)
Definition transferPayload : Ethers.bytes :=
  ([x01] ++ be_bytes 32 1000000 ++ pad32 (address usdc) ++ be_bytes 2 2
     ++ be_bytes 32 0x1234 ++ be_bytes 2 1)%list.

Definition relayerTail : Ethers.bytes :=
  ([x01] ++ pad32 wallet ++ be_bytes 32 5000 ++ be_bytes 32 100)%list.

Definition payloadWith (discriminant : byte) : Ethers.bytes :=
  ([discriminant] ++ be_bytes 32 250 ++ pad32 (address usdc) ++ be_bytes 2 2
     ++ pad32 bsc_bridge ++ be_bytes 2 4 ++ relayerTail)%list.

Definition coreLog (seq : Z) (payload : Ethers.bytes) : Log :=
  mkLog eth_core (Some (mkLogArgs eth_bridge seq payload)).

Definition otherLog : Log := mkLog weth None.

Definition receiptOf (tx : string) : option ContractReceipt :=
  if String.eqb tx "0xaa" then
    Some (mkReceipt wallet 17 (Some 21000%Z) (Some 3%Z)
            [coreLog 7 transferPayload; otherLog; coreLog 8 (payloadWith x03)])
  else if String.eqb tx "0xbb" then
    Some (mkReceipt wallet 18 (Some 21000%Z) None
            [coreLog 9 transferPayload; coreLog 10 (payloadWith x03)])
  else if String.eqb tx "0xcc" then
    Some (mkReceipt wallet 19 None None [coreLog 11 (payloadWith x02)])
  else None.

Definition confirmation : ContractReceipt :=
  mkReceipt wallet 20 (Some 50000%Z) (Some 2%Z) [].

Definition registered (bridge : string) (chainId : ChainId)
  (tokenAddr : Ethers.bytes) : string :=
  if String.eqb bridge bsc_bridge && (chainId =? 2)%Z
     && String.eqb (Ethers.hexlify tokenAddr)
          (Ethers.hexlify (pad32 (address usdc)))
  then usdc_on_bsc
  else Ethers.AddressZero.

Definition draw (w : World) : World :=
  mkWorld (ledger w) (paused w) (S (nonces w)).

Definition network : handler World := fun R q w =>
  match q in request R return reply R * World with
  | wrappedAsset bridge chainId tokenAddr =>
      (Answer (registered bridge chainId tokenAddr), w)
  | WETH _ => (Answer weth, w)
  | parseTransfer _ payload =>
      match Ethers.arrayify (Ethers.HexString payload) with
      | Ok b => match decodeTransfer b with
                | Some t => (Answer t, w)
                | None => (Failure "execution reverted", w)
                end
      | Err _ => (Failure "invalid arrayify value", w)
      end
  | parseTransferWithPayload _ payload =>
      match Ethers.arrayify (Ethers.HexString payload) with
      | Ok b => match decodeTransferWithPayload b with
                | Some t => (Answer t, w)
                | None => (Failure "execution reverted", w)
                end
      | Err _ => (Failure "invalid arrayify value", w)
      end
  | allowance token owner spender =>
      (Answer (lookup (token, owner, spender) (ledger w)), w)
  | approveTx token signer spender amount _ =>
      (Answer "0xa1",
       mkWorld ((token, signer, spender, amount) :: ledger w) (paused w)
         (nonces w))
  | callStatic _ _ =>
      if paused w then (Failure "execution reverted: paused", w)
      else (Answer tt, w)
  | populateTransaction contract c => (Answer (mkPopulated contract c), w)
  | getAddress signer => (Answer signer, w)
  | sendTransaction _ _ =>
      if paused w then (Failure "execution reverted: paused", w)
      else (Answer "0xb2", w)
  | wait _ => (Answer confirmation, w)
  | getTransactionReceipt _ tx => (Answer (receiptOf tx), w)
  | formatAssetAddressOn _ a => (Answer (pad32 a), w)
  | parseAssetAddressOn _ a => (Answer a, w)
  | getAssociatedTokenAddress _ recipient => (Answer recipient, w)
  | createNonce => (Answer (be_bytes 4 (Z.of_nat (nonces w))), draw w)
  end.

Definition genesis : World := mkWorld [] false 0.

End Devnet.

(** ** Observations on programs and traces *)

(** A property of every call that a program can make, whatever the
    answers. *)
Fixpoint only {A} (P : forall R, request R -> bool) (p : prog A) : Prop :=
  match p with
  | Ret _ => True
  | Throw _ => True
  | Call q k => P _ q = true /\ forall r, only P (k r)
  end.

(** A property of every value that a program can return, whatever the
    answers. *)
Fixpoint ensures {A} (Q : A -> Prop) (p : prog A) : Prop :=
  match p with
  | Ret a => Q a
  | Throw _ => True
  | Call q k => forall r, ensures Q (k r)
  end.

Definition event_is (P : forall R, request R -> bool) (e : event) : bool :=
  match e with Event q _ => P _ q end.

Definition is_simulation R (q : request R) : bool :=
  match q with callStatic _ _ => true | _ => false end.

Definition is_construction R (q : request R) : bool :=
  match q with populateTransaction _ _ => true | _ => false end.

Definition is_approval R (q : request R) : bool :=
  match q with approveTx _ _ _ _ _ => true | _ => false end.

Definition is_allowance_query R (q : request R) : bool :=
  match q with allowance _ _ _ => true | _ => false end.

Definition not_ (P : forall R, request R -> bool) R (q : request R) : bool :=
  negb (P R q).

(** The transaction that an event constructs, the call that an event
    simulated successfully, the amount that an event approves. *)
Definition populated (e : event) : option (string * ContractCall) :=
  match e with
  | Event q _ =>
      match q with
      | populateTransaction b c => Some (b, c)
      | _ => None
      end
  end.

Definition simulated (e : event) : option (string * ContractCall) :=
  match e with
  | Event q true =>
      match q with
      | callStatic b c => Some (b, c)
      | _ => None
      end
  | Event _ false => None
  end.

Definition approved_amount (e : event) : option Z :=
  match e with
  | Event q _ =>
      match q with
      | approveTx _ _ _ amount _ => Some amount
      | _ => None
      end
  end.

Definition approvals (t : trace) : nat :=
  List.length (filter (event_is is_approval) t).

(** The dry run of a call: the same method of the same contract with the same
    transfer parameters; the nonce is drawn anew for each call, and the dry
    run of a transfer names the sender in [from]. *)
Inductive dry_run_of : ContractCall -> ContractCall -> Prop :=
| dry_wrapAndTransferETH rc to_ fee nonce1 nonce2 ov amount sender :
    dry_run_of
      (wrapAndTransferETH rc to_ fee nonce1
         (with_from (with_value ov amount) sender))
      (wrapAndTransferETH rc to_ fee nonce2 (with_value ov amount))
| dry_transferTokens token amount rc to_ fee nonce1 nonce2 ov sender :
    dry_run_of
      (transferTokens token amount rc to_ fee nonce1 (with_from ov sender))
      (transferTokens token amount rc to_ fee nonce2 ov)
| dry_completeTransfer vaa ov :
    dry_run_of (completeTransfer vaa ov) (completeTransfer vaa ov).

(** Every transaction constructed in [t] was simulated before, successfully,
    on the same contract; [seen] are the events before [t]. *)
Definition simulated_first_from (seen t : trace) : Prop :=
  forall t1 e t2 b c,
    t = (t1 ++ e :: t2)%list ->
    populated e = Some (b, c) ->
    exists e' c',
      In e' (seen ++ t1)%list /\ simulated e' = Some (b, c')
      /\ dry_run_of c' c.

Definition simulated_first (t : trace) : Prop := simulated_first_from [] t.

(** The last call of a run is the construction of a transaction, which the
    network answered. *)
Definition ends_in_construction (t : trace) : Prop :=
  exists t0 b c, t = (t0 ++ [Event (populateTransaction b c) true])%list.

(** A call of the relayer contract that carries [toNative] as the amount to
    swap for native tokens and 0 as the batch id. *)
Definition relay_call (toNative : Z) (c : ContractCall) : bool :=
  match c with
  | wrapAndTransferEthWithRelay n _ _ batchId _ =>
      (n =? toNative)%Z && (batchId =? 0)%Z
  | transferTokensWithRelay _ _ n _ _ batchId _ =>
      (n =? toNative)%Z && (batchId =? 0)%Z
  | _ => false
  end.

Definition constructs_relay_call (toNative : Z) R (q : request R) : bool :=
  match q with
  | populateTransaction _ c => relay_call toNative c
  | _ => true
  end.


(** The same, as a check that runs over the trace; [seen] tells whether the
    allowance was read before [t]. *)
Fixpoint checked_before_write (seen : bool) (t : trace) : bool :=
  match t with
  | [] => true
  | e :: r =>
      (negb (event_is is_approval e) || seen)
      && checked_before_write (seen || event_is is_allowance_query e) r
  end.

(** The allowance that [approve], started in [w], reads from the network. *)
Definition allowanceRead {W} (h : handler W) (context : WormholeContext)
  (chain : Chain) (contractAddress tokenAddr : string) (w : W) : option Z :=
  match getSigner context chain with
  | Some signer =>
      match h _ (getAddress signer) w with
      | (Answer senderAddress, w1) =>
          match h _ (allowance tokenAddr senderAddress contractAddress) w1 with
          | (Answer approved, _) => Some approved
          | (Failure _, _) => None
          end
      | (Failure _, _) => None
      end
  | None => None
  end.

(** Modelled from the spec: the bridge contract, which is not part of the
    repository, treats a discriminant that it does not know as a hard error:
    its [parseTransferWithPayload] refuses every payload whose byte 0 is
    not 3, in every state of the network. *)
Definition refuses_unknown_discriminant {W} (h : handler W) : Prop :=
  forall bridge payload w,
    hd_error payload <> Some x03 ->
    exists reason w',
      h _ (parseTransferWithPayload bridge (Ethers.hexlify payload)) w
      = (Failure reason, w').

(** ** Further observations on traces *)

Definition is_submission R (q : request R) : bool :=
  match q with sendTransaction _ _ => true | _ => false end.

(** A call that changes the chain: an approval or a submitted transaction. *)
Definition is_write R (q : request R) : bool :=
  match q with
  | approveTx _ _ _ _ _ => true
  | sendTransaction _ _ => true
  | _ => false
  end.

Definition is_account_query R (q : request R) : bool :=
  match q with getAssociatedTokenAddress _ _ => true | _ => false end.

(** A property, in [Prop], of every call that a program can make. *)
Fixpoint always {A} (P : forall R, request R -> Prop) (p : prog A) : Prop :=
  match p with
  | Ret _ => True
  | Throw _ => True
  | Call q k => P _ q /\ forall r, always P (k r)
  end.

Definition holds (P : forall R, request R -> Prop) (e : event) : Prop :=
  match e with Event q _ => P _ q end.

(** What an approval is made of: token, signer, spender, amount and
    overrides. *)
Definition approval_of (e : event) :
  option (string * Signer * string * Z * Overrides) :=
  match e with
  | Event q _ =>
      match q with
      | approveTx token signer spender amount ov =>
          Some (token, signer, spender, amount, ov)
      | _ => None
      end
  end.

(** An approval of [amount] of [token] by [signer] to [spender], with the
    overrides [ov]. *)
Definition approves (token : string) (signer : Signer) (spender : string)
  (amount : Z) (ov : Overrides) R (q : request R) : Prop :=
  match q with
  | approveTx token' signer' spender' amount' ov' =>
      token' = token /\ signer' = signer /\ spender' = spender
      /\ amount' = amount /\ ov' = ov
  | _ => True
  end.

(** The sequence number and the payload identifier of the log that a message
    was decoded from are kept in the message. *)
Definition message_sequence (m : AnyMessage) : Z :=
  match m with
  | BasicTransfer m => sequence m
  | RelayerTransfer m => sequence (r_message m)
  end.

Definition message_of (m : AnyMessage) : ParsedMessage :=
  match m with
  | BasicTransfer m => m
  | RelayerTransfer m => r_message m
  end.

Definition log_sequence (l : Log) : option Z :=
  option_map arg_sequence (parsed l).

(** The logs of a receipt that [parseMessageFromTx] decodes. *)
Definition bridgeLogsOf (core : string) (receipt : ContractReceipt) :
  list Log :=
  filter (fun l => String.eqb (log_address l) core) (logs receipt).

(** ** The read-only methods and [sendWithPayload]

    [getTokenBalance], [sendWithPayload], [calculateMaxSwapAmount],
    [calculateNativeTokenAmt] and [getRelayerFee] make calls of their own
    beside those above: queries to a token contract or to the relayer
    contract, and, in [sendWithPayload], a transaction sent through the
    bridge contract itself. *)

(** A method of the bridge contract that carries a payload, with its
    arguments. *)
Inductive PayloadCall : Type :=
| wrapAndTransferETHWithPayload (recipientChain : ChainId)
    (recipient : Ethers.bytes) (nonce : Ethers.bytes)
    (payload : Ethers.bytes) (ov : Overrides)
| transferTokensWithPayload (token : string) (amount : Z)
    (recipientChain : ChainId) (recipient : Ethers.bytes)
    (nonce : Ethers.bytes) (payload : Ethers.bytes) (ov : Overrides).

Inductive query : Type -> Type :=
(* token contract, connected to the provider of a chain *)
| decimals (chain : Chain) (token : string) : query Z
| balanceOf (chain : Chain) (token walletAddr : string) : query Z
(* relayer contract *)
| calculateMaxSwapAmountIn (relayer token : string) : query Z
| calculateNativeSwapAmountOut (relayer token : string)
    (amount : BigNumberish) : query Z
| calculateRelayerFee (relayer : string) (destChainId : ChainId)
    (token : string) (decimals : Z) : query Z
(* bridge contract: a method called directly, which sends a transaction *)
| transact (bridge : string) (c : PayloadCall) : query TransactionResponse.

(** A call of either kind. *)
Inductive anyRequest : Type -> Type :=
| core {R} (q : request R) : anyRequest R
| more {R} (q : query R) : anyRequest R.

(** Programs over both kinds of call, built and run as [prog] is. *)
Inductive script (A : Type) : Type :=
| Done (a : A)
| Fail (e : error)
| Ask (R : Type) (q : anyRequest R) (k : R -> script A).
Arguments Done {A} a.
Arguments Fail {A} e.
Arguments Ask {A R} q k.

Fixpoint andThen {A B} (p : script A) (f : A -> script B) : script B :=
  match p with
  | Done a => f a
  | Fail e => Fail e
  | Ask q k => Ask q (fun r => andThen (k r) f)
  end.

Definition ask {R} (q : query R) : script R := Ask (more q) Done.

(** A program of the first kind, as a script. *)
Fixpoint within {A} (p : prog A) : script A :=
  match p with
  | Ret a => Done a
  | Throw e => Fail e
  | Call q k => Ask (core q) (fun r => within (k r))
  end.

Declare Scope script_scope.
Delimit Scope script_scope with script.
Notation "x <- p ;; k" := (andThen p (fun x => k))
  (at level 100, p at next level, right associativity) : script_scope.
Notation "p ;;; k" := (andThen p (fun _ => k))
  (at level 100, right associativity) : script_scope.

Definition anyHandler (W : Type) : Type :=
  forall R, anyRequest R -> W -> reply R * W.

(** The answers of a network to the calls of the first kind. *)
Definition onCore {W} (h : anyHandler W) : handler W :=
  fun R q w => h R (core q) w.

Inductive step : Type :=
| Step {R : Type} (q : anyRequest R) (answered : bool).

Definition stepOf (e : event) : step :=
  match e with Event q answered => Step (core q) answered end.

Record played (W A : Type) : Type := mkPlayed {
  result_ : result A;
  world : W;
  steps : list step
}.
Arguments mkPlayed {W A} result_ world steps.
Arguments result_ {W A} p.
Arguments world {W A} p.
Arguments steps {W A} p.

Fixpoint play {W A} (h : anyHandler W) (p : script A) (w : W) : played W A :=
  match p with
  | Done a => mkPlayed (Ok a) w []
  | Fail e => mkPlayed (Err e) w []
  | Ask q k =>
      match h _ q w with
      | (Answer r, w') =>
          let o := play h (k r) w' in
          mkPlayed (result_ o) (world o) (Step q true :: steps o)
      | (Failure reason, w') =>
          mkPlayed (Err (CallException reason)) w' [Step q false]
      end
  end.

(** The query that a step makes, if it is one of the second kind. *)
Definition asked (s : step) : bool :=
  match s with
  | Step (more _) _ => true
  | Step (core _) _ => false
  end.

(** A step that sends a transaction through the bridge contract. *)
Definition is_transaction (s : step) : bool :=
  match s with
  | Step (more (transact _ _)) _ => true
  | _ => false
  end.

(** A step that simulates, constructs, or hands a transaction to a signer. *)
Definition is_pipeline_step (s : step) : bool :=
  match s with
  | Step (core q) _ =>
      is_simulation _ q || is_construction _ q || is_submission _ q
  | Step (more _) _ => false
  end.

(** A property of every call that a script can make. *)
Fixpoint sure {A} (P : forall R, anyRequest R -> Prop) (p : script A) : Prop :=
  match p with
  | Done _ => True
  | Fail _ => True
  | Ask q k => P _ q /\ forall r, sure P (k r)
  end.

Definition stands (P : forall R, anyRequest R -> Prop) (s : step) : Prop :=
  match s with Step q _ => P _ q end.

(** An approval, among the calls of both kinds. *)
Definition approval_step_of (s : step) :
  option (string * Signer * string * Z * Overrides) :=
  match s with
  | Step (core q) answered => approval_of (Event q answered)
  | Step (more _) _ => None
  end.

Module EthContextRest.
Section Methods.

Variable context : WormholeContext.

Local Open Scope script_scope.

Definition mustGetProvider_ (chain : Chain) : script unit :=
  if mustGetProvider context chain then Done tt else Fail NoProvider.

Definition getTokenBalance (walletAddr : string) (tokenId : TokenId)
  (chain : Chain) : script (option Z) :=
  address <- within (EthContext.getForeignAsset context tokenId chain) ;;
  match address with
  | None => Done None
  | Some a =>
      if truthy_string a then
        mustGetProvider_ chain ;;;
        balance <- ask (balanceOf chain a walletAddr) ;;
        Done (Some balance)
      else Done None
  end.

Definition sendWithPayload (token : Token) (amount : string)
  (sendingChain : Chain) (senderAddress : string) (recipientChain : Chain)
  (recipientAddress : string) (payload : Ethers.bytes)
  (overrides : Overrides) : script ContractReceipt :=
  let destContext := getContext context recipientChain in
  let recipientChainId := toChainId context recipientChain in
  bridge <- within (must "token_bridge" (mustGetBridge context sendingChain)) ;;
  amountBN <- within (lift (BigNumber.from (JsString amount))) ;;
  match token with
  | NATIVE =>
      (* sending native ETH *)
      to_ <- within (lift (EthContext.formatAddressOf context destContext
                             recipientAddress)) ;;
      nonce <- within (call createNonce) ;;
      v <- ask (transact bridge
                  (wrapAndTransferETHWithPayload recipientChainId to_ nonce
                     payload (with_value overrides amountBN))) ;;
      within (call (wait v))
  | TokenOf t =>
      (* sending ERC-20 *)
      tokenAddr <- within (EthContext.mustGetForeignAsset context t
                             sendingChain) ;;
      within (EthContext.approve context sendingChain bridge tokenAddr
                (Some (BigNumberObj amountBN)) no_overrides) ;;;
      to_ <- within (lift (EthContext.formatAddressOf context destContext
                             recipientAddress)) ;;
      nonce <- within (call createNonce) ;;
      v <- ask (transact bridge
                  (transferTokensWithPayload tokenAddr amountBN
                     recipientChainId to_ nonce payload overrides)) ;;
      within (call (wait v))
  end.

Definition calculateMaxSwapAmount (destChain : Chain) (tokenId : TokenId)
  (walletAddress : string) : script Z :=
  relayer <- within (must "relayer"
                       (mustGetTokenBridgeRelayer context destChain)) ;;
  token <- within (EthContext.mustGetForeignAsset context tokenId destChain) ;;
  ask (calculateMaxSwapAmountIn relayer token).

Definition calculateNativeTokenAmt (destChain : Chain) (tokenId : TokenId)
  (amount : BigNumberish) (walletAddress : string) : script Z :=
  relayer <- within (must "relayer"
                       (mustGetTokenBridgeRelayer context destChain)) ;;
  token <- within (EthContext.mustGetForeignAsset context tokenId destChain) ;;
  ask (calculateNativeSwapAmountOut relayer token amount).

Definition getRelayerFee (sourceChain destChain : Chain) (tokenId : TokenId) :
  script Z :=
  relayer <- within (must "relayer"
                       (mustGetTokenBridgeRelayer context sourceChain)) ;;
  (* get asset address *)
  address <- within (EthContext.mustGetForeignAsset context tokenId
                       sourceChain) ;;
  (* get token decimals *)
  mustGetProvider_ sourceChain ;;;
  decimals_ <- ask (decimals sourceChain address) ;;
  (* get relayer fee as token amt *)
  let destChainId := toChainId context destChain in
  ask (calculateRelayerFee relayer destChainId address decimals_).

End Methods.
End EthContextRest.

(** The small network, answering the calls of both kinds. *)
Module DevnetRest.

Definition network : anyHandler Devnet.World := fun R q w =>
  match q in anyRequest R return reply R * Devnet.World with
  | core q => Devnet.network _ q w
  | more q =>
      match q in query R return reply R * Devnet.World with
      | decimals _ _ => (Answer 6%Z, w)
      | balanceOf _ _ _ => (Answer 1000%Z, w)
      | calculateMaxSwapAmountIn _ _ => (Answer 5%Z, w)
      | calculateNativeSwapAmountOut _ _ _ => (Answer 7%Z, w)
      | calculateRelayerFee _ _ _ d => (Answer (25 * 10 ^ d)%Z, w)
      | transact _ _ =>
          if Devnet.paused w then (Failure "execution reverted: paused", w)
          else (Answer "0xc3", w)
      end
  end.

End DevnetRest.

(** ** The amount field ([AmountInput]) *)
Module AmountInput.

(** [value.indexOf(c)]: the index of the first occurrence, [None] for -1. *)
Fixpoint indexOf (c : ascii) (value : string) : option nat :=
  match value with
  | EmptyString => None
  | String x r =>
      if Ascii.eqb x c then Some O
      else option_map S (indexOf c r)
  end.

Section Handler.

(** [toFixedDecimals] of the balance utilities, which are not part of the
    sources at hand. *)
Variable toFixedDecimals : string -> nat -> string.

(** The handler of a change of the field: what it passes on to
    [props.handleAmountChange] for the value typed. *)
Definition handleAmountChange (value : string) : string :=
  match indexOf "." value with
  | Some O => "0."
  | Some index =>
      if (index <? String.length value - 1)%nat
      then toFixedDecimals value 8
      else value
  | None => value
  end.

End Handler.

(** No character of the string is a dot. *)
Definition dotless (s : string) : bool :=
  Ethers.all_chars (fun c => negb (Ascii.eqb c ".")) s.

End AmountInput.

(** ** The link to the explorer of Aptos ([AddToAptosWallet]) *)
Module AddToWallet.

(** [address.split('::')[0]]: the part of the address before the first
    "::", the whole address when there is none. *)
Fixpoint tokenAccount (address : string) : string :=
  match address with
  | EmptyString => EmptyString
  | String ":" (String ":" _) => EmptyString
  | String c r => String c (tokenAccount r)
  end.

(** "::" occurs in the string. *)
Fixpoint has_separator (s : string) : bool :=
  match s with
  | EmptyString => false
  | String ":" (String ":" _) => true
  | String _ r => has_separator r
  end.

End AddToWallet.
(** * Properties *)

Import EthContext.
Local Open Scope Z_scope.
Local Open Scope list_scope.

(** ** The effect layer *)

Lemma run_bind {W A B} (h : handler W) (p : prog A) (f : A -> prog B) (w : W) :
  run h (bind p f) w =
  match returned (run h p w) with
  | Ok a =>
      let o := run h (f a) (final (run h p w)) in
      mkOutcome (returned o) (final o) (calls (run h p w) ++ calls o)
  | Err e => mkOutcome (Err e) (final (run h p w)) (calls (run h p w))
  end.
Proof.
  revert w; induction p as [a | e | R q k IH]; intro w; simpl.
  - destruct (run h (f a) w); reflexivity.
  - reflexivity.
  - destruct (h R q w) as [[r | reason] w']; simpl; [ | reflexivity ].
    rewrite IH. destruct (returned (run h (k r) w')); reflexivity.
Qed.

Lemma only_bind {A B} P (p : prog A) (f : A -> prog B) :
  only P p -> (forall a, only P (f a)) -> only P (bind p f).
Proof.
  induction p as [a | e | R q k IH]; simpl; intros Hp Hf; auto.
  destruct Hp as [Hq Hk]. split; auto.
Qed.

Lemma only_lift {A} P (r : result A) : only P (lift r).
Proof. destruct r; exact I. Qed.

Lemma only_must {A} P which (o : option A) : only P (must which o).
Proof. destruct o; exact I. Qed.

Lemma only_call {R} (P : forall R, request R -> bool) (q : request R) :
  P _ q = true -> only P (call q).
Proof. intro H; split; [ exact H | intros; exact I ]. Qed.

Lemma only_run {W A} (h : handler W) P (p : prog A) (w : W) :
  only P p -> Forall (fun e => event_is P e = true) (calls (run h p w)).
Proof.
  revert w; induction p as [a | e | R q k IH]; intros w Hp; simpl;
    try constructor.
  destruct Hp as [Hq Hk].
  destruct (h R q w) as [[r | reason] w']; simpl.
  - constructor; [ exact Hq | apply IH, Hk ].
  - constructor; [ exact Hq | constructor ].
Qed.

(** ** Foreign assets *)

(** C2: on the home chain of the token (the two chain references have the
    same chain id), [getForeignAsset] returns the address of the token as it
    is, without a single call and without touching the network state.  On any
    other chain whose bridge is configured, once the address is formatted by
    the context of the home chain, the one call made is [wrappedAsset] on the
    bridge of the queried chain, for the home chain id and that address. *)
Theorem getForeignAsset_home_chain_short_circuit :
  forall W (h : handler W) (w : W) context tokenId chain,
    (toChainId context chain
       = toChainId context (ByName (Types.chain tokenId)) ->
     run h (getForeignAsset context tokenId chain) w
       = mkOutcome (Ok (Some (Types.address tokenId))) w [])
    /\ (toChainId context chain
          <> toChainId context (ByName (Types.chain tokenId)) ->
        forall bridge tokenAddr w1 t1,
          mustGetBridge context chain = Some bridge ->
          run h (formatAssetAddressOf
                   (getContext context (ByName (Types.chain tokenId)))
                   (Types.address tokenId)) w
            = mkOutcome (Ok tokenAddr) w1 t1 ->
          exists answered,
            calls (run h (getForeignAsset context tokenId chain) w)
              = t1 ++ [Event (wrappedAsset bridge
                                (toChainId context
                                   (ByName (Types.chain tokenId)))
                                tokenAddr) answered]).
Proof.
  intros W h w context tokenId chain. unfold getForeignAsset. split.
  - intro Hhome. rewrite Hhome, Z.eqb_refl. reflexivity.
  - intros Hother bridge tokenAddr w1 t1 Hbridge Hformat.
    apply Z.eqb_neq in Hother. rewrite Hother, Hbridge. simpl.
    rewrite run_bind, Hformat. simpl.
    destruct (h _ (wrappedAsset bridge _ tokenAddr) w1) as [[foreign | reason] w2].
    + exists true. simpl.
      destruct (String.eqb foreign Ethers.AddressZero); reflexivity.
    + exists false. reflexivity.
Qed.

Lemma getForeignAsset_home_chain_short_circuit_witness :
  run Devnet.network
      (getForeignAsset Devnet.context Devnet.usdc (ById 2)) Devnet.genesis
    = mkOutcome (Ok (Some "0xa0b86991c6218b36c1d19d4a2e9eb0ce3606eb48"%string))
        Devnet.genesis []
  /\ exists answered,
      calls (run Devnet.network
               (getForeignAsset Devnet.context Devnet.usdc (ByName "bsc"))
               Devnet.genesis)
        = [] ++ [Event (wrappedAsset Devnet.bsc_bridge 2
                          (Devnet.pad32 (Types.address Devnet.usdc)))
                   answered].
Proof.
  split.
  - apply (getForeignAsset_home_chain_short_circuit
             Devnet.World Devnet.network Devnet.genesis Devnet.context
             Devnet.usdc (ById 2)).
    reflexivity.
  - apply (proj2 (getForeignAsset_home_chain_short_circuit
                    Devnet.World Devnet.network Devnet.genesis Devnet.context
                    Devnet.usdc (ByName "bsc"))
             ltac:(discriminate) Devnet.bsc_bridge
             (Devnet.pad32 (Types.address Devnet.usdc)) Devnet.genesis []).
    + reflexivity.
    + reflexivity.
Defined.

Lemma zeroPad_error v n e :
  Ethers.zeroPad v n = Err e -> exists reason, e = InvalidArgument reason.
Proof.
  unfold Ethers.zeroPad, Ethers.arrayify, rbind.
  destruct v as [s | b].
  - destruct (Ethers.isHexString s); [ | intro H; inversion H; eauto ].
    destruct (Ethers.bytes_of_hex _); [ | intro H; inversion H; eauto ].
    destruct (n <? _)%nat; intro H; inversion H; eauto.
  - destruct (n <? _)%nat; intro H; inversion H; eauto.
Qed.

Lemma formatAssetAddressOf_error {W} (h : handler W) w ctx a e :
  returned (run h (formatAssetAddressOf ctx a) w) = Err e ->
  e <> TokenNotRegistered.
Proof.
  assert (Heth : returned (run h (formatAssetAddress a) w) = Err e ->
                 e <> TokenNotRegistered).
  { unfold formatAssetAddress, formatAddress.
    destruct (Ethers.zeroPad _ 32) eqn:Hpad; simpl; intro H; inversion H.
    subst. apply zeroPad_error in Hpad. destruct Hpad as [r ->]. discriminate. }
  destruct ctx; try exact Heth; simpl;
    destruct (h _ _ w) as [[r | reason] w']; simpl; intro H; inversion H;
    discriminate.
Qed.

(** The errors of [getForeignAsset] are those of its collaborators: it has no
    "not registered" error of its own. *)
Lemma getForeignAsset_error {W} (h : handler W) w context tokenId chain e :
  returned (run h (getForeignAsset context tokenId chain) w) = Err e ->
  e <> TokenNotRegistered.
Proof.
  unfold getForeignAsset.
  destruct (_ =? _); [ discriminate | ].
  destruct (mustGetBridge context chain) as [bridge | ]; simpl;
    [ | intro H; inversion H; discriminate ].
  rewrite run_bind.
  destruct (returned (run h (formatAssetAddressOf _ _) w)) as [tokenAddr | e']
    eqn:Hformat; simpl.
  - destruct (h _ _ _) as [[foreign | reason] w2]; simpl.
    + destruct (String.eqb foreign Ethers.AddressZero); discriminate.
    + intro H; inversion H; discriminate.
  - intro H; inversion H; subst. eapply formatAssetAddressOf_error; eauto.
Qed.

Lemma mustGetForeignAsset_run {W} (h : handler W) w context tokenId chain :
  run h (mustGetForeignAsset context tokenId chain) w =
  let g := run h (getForeignAsset context tokenId chain) w in
  mkOutcome
    match returned g with
    | Ok (Some a) => if truthy_string a then Ok a else Err TokenNotRegistered
    | Ok None => Err TokenNotRegistered
    | Err e => Err e
    end (final g) (calls g).
Proof.
  unfold mustGetForeignAsset. rewrite run_bind. cbv zeta.
  destruct (returned (run h (getForeignAsset context tokenId chain) w))
    as [[a | ] | e]; simpl; try rewrite app_nil_r; try reflexivity.
  destruct (truthy_string a); simpl; rewrite app_nil_r; reflexivity.
Qed.

(** C3, as the code has it: when the bridge answers the zero address,
    [getForeignAsset] returns nothing, which is a value and not an error, and
    [mustGetForeignAsset] fails with "token not registered".
    [mustGetForeignAsset] makes the calls of [getForeignAsset] and no other;
    it fails with "token not registered" exactly when [getForeignAsset]
    returns nothing or an empty address string, and returns the address of
    [getForeignAsset] when that is a non-empty string. *)
Theorem mustGetForeignAsset_fails_iff_absent_or_empty :
  forall W (h : handler W) (w : W) context tokenId chain,
    let g := run h (getForeignAsset context tokenId chain) w in
    let m := run h (mustGetForeignAsset context tokenId chain) w in
    (forall bridge tokenAddr w1 t1 w2,
        toChainId context chain
          <> toChainId context (ByName (Types.chain tokenId)) ->
        mustGetBridge context chain = Some bridge ->
        run h (formatAssetAddressOf
                 (getContext context (ByName (Types.chain tokenId)))
                 (Types.address tokenId)) w
          = mkOutcome (Ok tokenAddr) w1 t1 ->
        h _ (wrappedAsset bridge
               (toChainId context (ByName (Types.chain tokenId))) tokenAddr) w1
          = (Answer Ethers.AddressZero, w2) ->
        returned g = Ok None /\ returned m = Err TokenNotRegistered)
    /\ (returned m = Err TokenNotRegistered <->
        returned g = Ok None \/ returned g = Ok (Some EmptyString))
    /\ (forall a, returned g = Ok (Some a) -> a <> EmptyString ->
                  returned m = Ok a)
    /\ calls m = calls g /\ final m = final g.
Proof.
  intros W h w context tokenId chain g m.
  assert (Hm : m = mkOutcome
                     match returned g with
                     | Ok (Some a) =>
                         if truthy_string a then Ok a
                         else Err TokenNotRegistered
                     | Ok None => Err TokenNotRegistered
                     | Err e => Err e
                     end (final g) (calls g))
    by apply mustGetForeignAsset_run.
  assert (Hnone : forall bridge tokenAddr w1 t1 w2,
             toChainId context chain
               <> toChainId context (ByName (Types.chain tokenId)) ->
             mustGetBridge context chain = Some bridge ->
             run h (formatAssetAddressOf
                      (getContext context (ByName (Types.chain tokenId)))
                      (Types.address tokenId)) w
               = mkOutcome (Ok tokenAddr) w1 t1 ->
             h _ (wrappedAsset bridge
                    (toChainId context (ByName (Types.chain tokenId)))
                    tokenAddr) w1
               = (Answer Ethers.AddressZero, w2) ->
             returned g = Ok None).
  { intros bridge tokenAddr w1 t1 w2 Hother Hbridge Hformat Hzero.
    subst g. unfold getForeignAsset.
    apply Z.eqb_neq in Hother. rewrite Hother, Hbridge. simpl.
    rewrite run_bind, Hformat. simpl. rewrite Hzero. reflexivity. }
  rewrite Hm. simpl. repeat split.
  - eapply Hnone; eauto.
  - erewrite Hnone; eauto.
  - destruct (returned g) as [[a | ] | e] eqn:Hg; auto.
    + destruct a; simpl; [ auto | discriminate ].
    + intro H; inversion H; subst.
      exfalso. eapply (getForeignAsset_error h w); eauto.
  - intros [Hg | Hg]; rewrite Hg; reflexivity.
  - intros a Hg Ha. rewrite Hg. destruct a; [ congruence | reflexivity ].
Qed.

Lemma mustGetForeignAsset_fails_iff_absent_or_empty_witness :
  (returned (run Devnet.network
               (getForeignAsset Devnet.context Devnet.dai (ById 4))
               Devnet.genesis) = Ok None
   /\ returned (run Devnet.network
                  (mustGetForeignAsset Devnet.context Devnet.dai (ById 4))
                  Devnet.genesis) = Err TokenNotRegistered)
  /\ returned (run Devnet.network
                 (mustGetForeignAsset Devnet.context Devnet.usdc (ById 4))
                 Devnet.genesis) = Ok Devnet.usdc_on_bsc.
Proof.
  split.
  - apply (proj1 (mustGetForeignAsset_fails_iff_absent_or_empty
                    Devnet.World Devnet.network Devnet.genesis Devnet.context
                    Devnet.dai (ById 4))
             Devnet.bsc_bridge (Devnet.pad32 (Types.address Devnet.dai))
             Devnet.genesis [] Devnet.genesis).
    + discriminate.
    + reflexivity.
    + reflexivity.
    + reflexivity.
  - apply (proj1 (proj2 (proj2 (mustGetForeignAsset_fails_iff_absent_or_empty
                    Devnet.World Devnet.network Devnet.genesis Devnet.context
                    Devnet.usdc (ById 4))))).
    + reflexivity.
    + discriminate.
Defined.

(** C3 as stated fails on a token whose address is the empty string: on its
    home chain [getForeignAsset] returns that string, which is a value, and
    [mustGetForeignAsset] fails all the same, because [!addr] holds of the
    empty string as it does of [null]. *)
Lemma mustGetForeignAsset_rejects_empty_address :
  returned (run Devnet.network
              (getForeignAsset Devnet.context (mkTokenId "ethereum" EmptyString)
                 (ByName "ethereum"))
              Devnet.genesis) = Ok (Some EmptyString)
  /\ returned (run Devnet.network
                 (mustGetForeignAsset Devnet.context
                    (mkTokenId "ethereum" EmptyString) (ByName "ethereum"))
                 Devnet.genesis) = Err TokenNotRegistered
  /\ ~ (returned (run Devnet.network
                    (mustGetForeignAsset Devnet.context
                       (mkTokenId "ethereum" EmptyString) (ByName "ethereum"))
                    Devnet.genesis) = Err TokenNotRegistered
        <-> returned (run Devnet.network
                        (getForeignAsset Devnet.context
                           (mkTokenId "ethereum" EmptyString) (ByName "ethereum"))
                        Devnet.genesis) = Ok None).
Proof.
  repeat split; try reflexivity.
  intros [H _]. specialize (H eq_refl). discriminate.
Qed.

(** ** Operations that need a signer *)

(** C7: without a signer for the chain, [send], [sendWithRelay] and [redeem]
    fail with the "no signer" error, having made no call at all and left the
    network state as it was. *)
Theorem no_signer_fails_before_any_call :
  forall W (h : handler W) (w : W) context token amount toNativeToken chain
         senderAddress recipientChain recipientAddress relayerFee overrides
         signedVAA,
    getSigner context chain = None ->
    run h (send context token amount chain senderAddress recipientChain
             recipientAddress relayerFee overrides) w
      = mkOutcome (Err NoSigner) w []
    /\ run h (sendWithRelay context token amount toNativeToken chain
                senderAddress recipientChain recipientAddress overrides) w
         = mkOutcome (Err NoSigner) w []
    /\ run h (redeem context chain signedVAA overrides) w
         = mkOutcome (Err NoSigner) w [].
Proof.
  intros W h w context token amount toNativeToken chain senderAddress
    recipientChain recipientAddress relayerFee overrides signedVAA Hnone.
  unfold send, sendWithRelay, redeem. rewrite Hnone. simpl. auto.
Qed.

Lemma no_signer_fails_before_any_call_witness :
  run Devnet.network
      (send Devnet.context (TokenOf Devnet.usdc) "500" (ByName "bsc")
         Devnet.wallet (ById 2) Devnet.wallet (JsNumber 0) no_overrides)
      Devnet.genesis
    = mkOutcome (Err NoSigner) Devnet.genesis []
  /\ run Devnet.network
         (sendWithRelay Devnet.context (TokenOf Devnet.usdc) "500" "10"
            (ByName "bsc") Devnet.wallet (ById 2) Devnet.wallet no_overrides)
         Devnet.genesis
       = mkOutcome (Err NoSigner) Devnet.genesis []
  /\ run Devnet.network
         (redeem Devnet.context (ByName "bsc") [x01; x02] no_overrides)
         Devnet.genesis
       = mkOutcome (Err NoSigner) Devnet.genesis [].
Proof.
  apply (no_signer_fails_before_any_call Devnet.World Devnet.network
           Devnet.genesis Devnet.context (TokenOf Devnet.usdc) "500"%string
           "10"%string (ByName "bsc") Devnet.wallet (ById 2) Devnet.wallet
           (JsNumber 0) no_overrides [x01; x02]).
  reflexivity.
Defined.

(** ** Approvals *)




(** [approve], call by call. *)
Lemma approve_run {W} (h : handler W) w context chain contractAddress
      tokenAddr amount overrides signer :
  getSigner context chain = Some signer ->
  run h (approve context chain contractAddress tokenAddr amount overrides) w =
  match h _ (getAddress signer) w with
  | (Failure reason, w1) =>
      mkOutcome (Err (CallException reason)) w1
        [Event (getAddress signer) false]
  | (Answer senderAddress, w1) =>
      after (Event (getAddress signer) true)
        match h _ (allowance tokenAddr senderAddress contractAddress) w1 with
        | (Failure reason, w2) =>
            mkOutcome (Err (CallException reason)) w2
              [Event (allowance tokenAddr senderAddress contractAddress) false]
        | (Answer approved, w2) =>
            after (Event (allowance tokenAddr senderAddress contractAddress)
                     true)
              match BigNumber.from (approveAmountOf amount) with
              | Err e => mkOutcome (Err e) w2 []
              | Ok target =>
                  if approved <? target then
                    match h _ (approveTx tokenAddr signer contractAddress
                                 target overrides) w2 with
                    | (Failure reason, w3) =>
                        mkOutcome (Err (CallException reason)) w3
                          [Event (approveTx tokenAddr signer contractAddress
                                    target overrides) false]
                    | (Answer tx, w3) =>
                        after (Event (approveTx tokenAddr signer
                                        contractAddress target overrides) true)
                          match h _ (wait tx) w3 with
                          | (Failure reason, w4) =>
                              mkOutcome (Err (CallException reason)) w4
                                [Event (wait tx) false]
                          | (Answer _, w4) =>
                              mkOutcome (Ok tt) w4 [Event (wait tx) true]
                          end
                    end
                  else mkOutcome (Ok tt) w2 []
              end
        end
  end.
Proof.
  intro Hsigner. unfold approve. rewrite Hsigner. simpl.
  destruct (h _ (getAddress signer) w) as [[senderAddress | ?] w1];
    [ | reflexivity ].
  f_equal. simpl.
  destruct (h _ (allowance _ _ _) w1) as [[approved | ?] w2]; [ | reflexivity ].
  f_equal.
  destruct (BigNumber.from (approveAmountOf amount)) as [target | e]; simpl;
    [ | reflexivity ].
  destruct (approved <? target); simpl; [ | reflexivity ].
  destruct (h _ (approveTx _ _ _ _ _) w2) as [[tx | ?] w3]; [ | reflexivity ].
  destruct (h _ (wait tx) w3) as [[? | ?] w4]; reflexivity.
Qed.

(** Closes the cases of a statement about the events of an explicit trace. *)
Ltac each_event :=
  repeat split; simpl; intros; try discriminate;
  try match goal with
      | H : _ \/ _ |- _ =>
          repeat (destruct H as [<- | H];
                  [ try discriminate; try (simpl in *; congruence) | ]);
          try contradiction
      end;
  try match goal with
      | H1 : Some _ = Some _, H2 : Ok _ = Ok _, Hlt : (_ <? _) = _ |- _ =>
          injection H1 as <-; injection H2 as <-; rewrite Hlt; reflexivity
      end.

(** What a run of [approve] submits: nothing before the allowance is read,
    and one approval, of the target amount, exactly when the allowance read
    is below the target. *)
Lemma approve_submits {W} (h : handler W) w context chain contractAddress
      tokenAddr amount overrides :
  let o := run h (approve context chain contractAddress tokenAddr amount
                    overrides) w in
  checked_before_write false (calls o) = true
  /\ (forall e v target,
         In e (calls o) -> approved_amount e = Some v ->
         BigNumber.from (approveAmountOf amount) = Ok target -> v = target)
  /\ (forall a target,
         allowanceRead h context chain contractAddress tokenAddr w = Some a ->
         BigNumber.from (approveAmountOf amount) = Ok target ->
         approvals (calls o) = if a <? target then 1%nat else 0%nat).
Proof.
  unfold allowanceRead.
  destruct (getSigner context chain) as [signer | ] eqn:Hsigner.
  2:{ unfold approve. rewrite Hsigner. simpl.
      repeat split; intros; try contradiction; discriminate. }
  cbv zeta. rewrite (approve_run h w _ _ _ _ _ _ signer Hsigner).
  destruct (h _ (getAddress signer) w) as [[senderAddress | ?] w1];
    [ | each_event ].
  destruct (h _ (allowance _ _ _) w1) as [[approved | ?] w2];
    [ | each_event ].
  destruct (BigNumber.from (approveAmountOf amount)) as [target | err];
    [ | each_event ].
  destruct (approved <? target) eqn:Hlt; [ | each_event ].
  destruct (h _ (approveTx _ _ _ _ _) w2) as [[tx | ?] w3]; [ | each_event ].
  destruct (h _ (wait tx) w3) as [[? | ?] w4]; each_event.
Qed.



(** C10: the number 0 as the amount of [approve] is the same as no amount:
    the two programs are equal, the target is [2^256 - 1], an approval is
    submitted exactly when the allowance read is below that, and the amount
    of every approval submitted is [2^256 - 1], never 0. *)
Theorem approve_zero_amount_is_unbounded :
  forall context chain contractAddress tokenAddr overrides,
    approve context chain contractAddress tokenAddr (Some (JsNumber 0))
      overrides
      = approve context chain contractAddress tokenAddr None overrides
    /\ BigNumber.from (approveAmountOf (Some (JsNumber 0))) = Ok (2 ^ 256 - 1)
    /\ forall W (h : handler W) (w : W),
        let o := run h (approve context chain contractAddress tokenAddr
                          (Some (JsNumber 0)) overrides) w in
        (forall a,
            allowanceRead h context chain contractAddress tokenAddr w
              = Some a ->
            approvals (calls o) = if a <? 2 ^ 256 - 1 then 1%nat else 0%nat)
        /\ (forall e v,
               In e (calls o) -> approved_amount e = Some v ->
               v = 2 ^ 256 - 1).
Proof.
  intros context chain contractAddress tokenAddr overrides.
  split; [ reflexivity | ]. split; [ reflexivity | ].
  intros W h w o.
  destruct (approve_submits h w context chain contractAddress tokenAddr
              (Some (JsNumber 0)) overrides) as (_ & Hamount & Hcount).
  split.
  - intros a Hread. apply (Hcount a (2 ^ 256 - 1) Hread). reflexivity.
  - intros e v Hin Hv. apply (Hamount e v (2 ^ 256 - 1) Hin Hv). reflexivity.
Qed.

Lemma approve_zero_amount_is_unbounded_witness :
  approvals
    (calls (run Devnet.network
              (approve Devnet.context (ById 2) Devnet.eth_bridge
                 (Types.address Devnet.usdc) (Some (JsNumber 0)) no_overrides)
              Devnet.genesis)) = 1%nat
  /\ 115792089237316195423570985008687907853269984665640564039457584007913129639935
     = 2 ^ 256 - 1.
Proof.
  destruct (approve_zero_amount_is_unbounded Devnet.context (ById 2)
              Devnet.eth_bridge (Types.address Devnet.usdc) no_overrides)
    as (_ & _ & H).
  destruct (H Devnet.World Devnet.network Devnet.genesis) as (Hcount & Hamount).
  split.
  - apply (Hcount 0). reflexivity.
  - apply (Hamount
             (Event (approveTx (Types.address Devnet.usdc) Devnet.wallet
                       Devnet.eth_bridge
                       115792089237316195423570985008687907853269984665640564039457584007913129639935
                       no_overrides) true)).
    + right; right; left. reflexivity.
    + reflexivity.
Defined.

(** ** Simulation before construction *)

Lemma quiet_event e :
  event_is (not_ is_construction) e = true -> populated e = None.
Proof.
  destruct e as [R q answered]. unfold event_is, not_.
  destruct q; simpl; congruence.
Qed.

Lemma simulated_first_from_nil seen : simulated_first_from seen [].
Proof. intros t1 e t2 b c Hsplit. destruct t1; discriminate. Qed.

Lemma simulated_first_from_cons seen e t :
  (forall b c,
      populated e = Some (b, c) ->
      exists e' c',
        In e' seen /\ simulated e' = Some (b, c') /\ dry_run_of c' c) ->
  simulated_first_from (seen ++ [e]) t ->
  simulated_first_from seen (e :: t).
Proof.
  intros He Ht t1 x t2 b c Hsplit Hx.
  destruct t1 as [ | y t1]; simpl in Hsplit; injection Hsplit as -> ->.
  - rewrite app_nil_r. apply He. exact Hx.
  - destruct (Ht t1 x t2 b c eq_refl Hx) as (e' & c' & Hin & Hsim & Hdry).
    exists e', c'. rewrite <- app_assoc in Hin. auto.
Qed.

Lemma simulated_first_from_skip seen e t :
  populated e = None ->
  simulated_first_from (seen ++ [e]) t ->
  simulated_first_from seen (e :: t).
Proof.
  intros He. apply simulated_first_from_cons. intros b c H. congruence.
Qed.

Lemma simulated_first_from_more seen seen' t :
  simulated_first_from seen t -> simulated_first_from (seen' ++ seen) t.
Proof.
  intros Ht t1 e t2 b c Hsplit He.
  destruct (Ht t1 e t2 b c Hsplit He) as (e' & c' & Hin & Hsim & Hdry).
  exists e', c'. rewrite <- app_assoc. split; [ | auto ].
  apply in_or_app. right. exact Hin.
Qed.

Lemma simulated_first_from_quiet seen t1 t2 :
  Forall (fun e => event_is (not_ is_construction) e = true) t1 ->
  simulated_first_from (seen ++ t1) t2 ->
  simulated_first_from seen (t1 ++ t2).
Proof.
  intro Hquiet. revert seen.
  induction Hquiet as [ | e t1 He _ IH]; intros seen Ht2; simpl.
  - rewrite app_nil_r in Ht2. exact Ht2.
  - apply simulated_first_from_skip; [ apply quiet_event, He | ].
    apply IH. rewrite <- app_assoc. exact Ht2.
Qed.

(** A program that starts with calls that construct nothing satisfies
    [simulated_first] when its continuation does. *)
Lemma simulated_first_bind {W A B} (h : handler W) (p : prog A)
      (f : A -> prog B) w :
  only (not_ is_construction) p ->
  (forall a w', simulated_first (calls (run h (f a) w'))) ->
  simulated_first (calls (run h (bind p f) w)).
Proof.
  intros Hp Hf. rewrite run_bind.
  pose proof (only_run h _ p w Hp) as Hquiet.
  destruct (returned (run h p w)) as [a | e]; simpl.
  - apply simulated_first_from_quiet; [ exact Hquiet | ].
    pose proof (simulated_first_from_more [] (calls (run h p w)) _
                  (Hf a (final (run h p w)))) as H.
    rewrite app_nil_r in H. exact H.
  - rewrite <- (app_nil_r (calls (run h p w))).
    apply simulated_first_from_quiet; [ exact Hquiet | ].
    apply simulated_first_from_nil.
Qed.

Lemma ends_in_construction_bind {W A B} (h : handler W) (p : prog A)
      (f : A -> prog B) w :
  (forall a w' r,
      returned (run h (f a) w') = Ok r ->
      ends_in_construction (calls (run h (f a) w'))) ->
  forall r,
    returned (run h (bind p f) w) = Ok r ->
    ends_in_construction (calls (run h (bind p f) w)).
Proof.
  intros Hf r. rewrite run_bind.
  destruct (returned (run h p w)) as [a | e]; simpl; [ | discriminate ].
  intro Hr. destruct (Hf a _ r Hr) as (t0 & b & c & ->).
  exists (calls (run h p w) ++ t0), b, c. rewrite app_assoc. reflexivity.
Qed.

Lemma getForeignAsset_quiet context tokenId chain :
  only (not_ is_construction) (getForeignAsset context tokenId chain).
Proof.
  unfold getForeignAsset. destruct (_ =? _); [ exact I | ].
  apply only_bind; [ apply only_must | intro bridge ].
  apply only_bind.
  - unfold formatAssetAddressOf, formatAssetAddress.
    destruct (getContext _ _);
      first [ apply only_lift | apply only_call; reflexivity ].
  - intro tokenAddr. split; [ reflexivity | ].
    intro foreign. simpl. destruct (String.eqb foreign _); exact I.
Qed.

Lemma mustGetForeignAsset_quiet context tokenId chain :
  only (not_ is_construction) (mustGetForeignAsset context tokenId chain).
Proof.
  unfold mustGetForeignAsset.
  apply only_bind; [ apply getForeignAsset_quiet | ].
  intros [a | ]; [ destruct (truthy_string a) | ]; exact I.
Qed.

(** Walks an explicit trace: every event constructs nothing, or constructs
    what the second event of the trace simulated. *)
Ltac walk_trace :=
  repeat first
    [ apply simulated_first_from_nil
    | apply simulated_first_from_skip; [ reflexivity | ]
    | apply simulated_first_from_cons;
      [ let Hb := fresh in
        intros ? ? Hb; injection Hb as <- <-;
        first
          [ do 2 eexists; split;
            [ left; reflexivity | split; [ reflexivity | constructor ] ]
          | do 2 eexists; split;
            [ right; left; reflexivity
            | split; [ reflexivity | constructor ] ] ]
      | ] ].

(** Unfolds the next call of a run and splits on the answer. *)
Ltac next_call h :=
  simpl;
  match goal with
  | |- context [h ?R ?q ?w] =>
      let r := fresh "r" in
      let w' := fresh "w" in
      destruct (h R q w) as [[r | ?] w']
  end;
  simpl.

Lemma prepareSend_simulated {W} (h : handler W) w context token amount
      sendingChain senderAddress recipientChain recipientAddress relayerFee
      overrides :
  let o := run h (prepareSend context token amount sendingChain senderAddress
                    recipientChain recipientAddress relayerFee overrides) w in
  simulated_first (calls o)
  /\ forall tx, returned o = Ok tx -> ends_in_construction (calls o).
Proof.
  cbv zeta. unfold prepareSend.
  assert (Haccount :
            forall bridge,
              only (not_ is_construction)
                (if toChainId context recipientChain =? 1
                 then
                   tokenId <- match token with
                              | NATIVE =>
                                  weth <- call (WETH bridge) ;;
                                  Ret (mkTokenId
                                         (toChainName context sendingChain)
                                         weth)
                              | TokenOf t => Ret t
                              end ;;
                   call (getAssociatedTokenAddress tokenId recipientAddress)
                 else Ret recipientAddress)).
  { intro bridge. destruct (_ =? 1); [ | exact I ].
    apply only_bind.
    - destruct token; [ | exact I ].
      split; [ reflexivity | intros; exact I ].
    - intro tokenId. apply only_call. reflexivity. }
  split.
  - apply simulated_first_bind; [ apply only_lift | intros amountBN w1 ].
    apply simulated_first_bind; [ apply only_must | intros bridge w2 ].
    apply simulated_first_bind; [ apply Haccount | intros account w3 ].
    destruct token as [ | t].
    + destruct (formatAddressOf context _ account) as [to_ | e]; simpl;
        [ | apply simulated_first_from_nil ].
      next_call h; [ | walk_trace ].
      next_call h; [ | walk_trace ].
      next_call h; [ | walk_trace ].
      next_call h; walk_trace.
    + apply simulated_first_bind;
        [ apply mustGetForeignAsset_quiet | intros tokenAddr w4 ].
      destruct (formatAddressOf context _ account) as [to_ | e]; simpl;
        [ | apply simulated_first_from_nil ].
      next_call h; [ | walk_trace ].
      next_call h; [ | walk_trace ].
      next_call h; [ | walk_trace ].
      next_call h; walk_trace.
  - apply ends_in_construction_bind. intros amountBN w1.
    apply ends_in_construction_bind. intros bridge w2.
    apply ends_in_construction_bind. intros account w3.
    assert (Hlast : forall n1 c1 n2 c2,
               ends_in_construction
                 [Event createNonce n1; Event (callStatic bridge c1) true;
                  Event createNonce n2;
                  Event (populateTransaction bridge c2) true]).
    { intros n1 c1 n2 c2.
      exists [Event createNonce n1; Event (callStatic bridge c1) true;
              Event createNonce n2], bridge, c2. reflexivity. }
    destruct token as [ | t].
    + intro tx.
      destruct (formatAddressOf context _ account) as [to_ | e]; simpl;
        [ | discriminate ].
      next_call h; [ | discriminate ].
      next_call h; [ | discriminate ].
      next_call h; [ | discriminate ].
      next_call h; [ | discriminate ].
      intros _. apply Hlast.
    + apply ends_in_construction_bind. intros tokenAddr w4 tx.
      destruct (formatAddressOf context _ account) as [to_ | e]; simpl;
        [ | discriminate ].
      next_call h; [ | discriminate ].
      next_call h; [ | discriminate ].
      next_call h; [ | discriminate ].
      next_call h; [ | discriminate ].
      intros _. apply Hlast.
Qed.

Lemma prepareRedeem_simulated {W} (h : handler W) w context destChain
      signedVAA overrides :
  let o := run h (prepareRedeem context destChain signedVAA overrides) w in
  simulated_first (calls o)
  /\ forall tx, returned o = Ok tx -> ends_in_construction (calls o).
Proof.
  cbv zeta. unfold prepareRedeem.
  destruct (mustGetBridge context destChain) as [bridge | ]; simpl.
  2:{ split; [ apply simulated_first_from_nil | discriminate ]. }
  next_call h.
  2:{ split; [ unfold simulated_first; walk_trace | discriminate ]. }
  next_call h.
  2:{ split; [ unfold simulated_first; walk_trace | discriminate ]. }
  split; [ unfold simulated_first; walk_trace | ].
  intros tx _.
  exists [Event (callStatic bridge (completeTransfer signedVAA overrides))
            true], bridge, (completeTransfer signedVAA overrides).
  reflexivity.
Qed.

Lemma simulated_before_last t :
  simulated_first t ->
  ends_in_construction t ->
  exists t0 b c e' c',
    t = t0 ++ [Event (populateTransaction b c) true]
    /\ In e' t0 /\ simulated e' = Some (b, c') /\ dry_run_of c' c.
Proof.
  intros Hfirst (t0 & b & c & ->).
  destruct (Hfirst t0 (Event (populateTransaction b c) true) [] b c
              eq_refl eq_refl) as (e' & c' & Hin & Hsim & Hdry).
  exists t0, b, c, e', c'. auto.
Qed.








(** ** Transfers through the relayer *)

(** The calls of [sendWithRelay]: those of the approval, the construction of
    a call of the relayer contract, the submission and the confirmation. *)
Lemma sendWithRelay_only P context token amount toNativeToken sendingChain
      senderAddress recipientChain recipientAddress overrides :
  (forall R (q : request R),
      is_construction R q = false -> is_simulation R q = false ->
      P R q = true) ->
  (forall amountBN relayer nativeTokenBN to_ token_,
      BigNumber.from (JsString toNativeToken) = Ok nativeTokenBN ->
      P _ (populateTransaction relayer
             (wrapAndTransferEthWithRelay nativeTokenBN
                (toChainId context recipientChain) to_ 0
                (with_value overrides amountBN))) = true
      /\ P _ (populateTransaction relayer
                (transferTokensWithRelay token_ amountBN nativeTokenBN
                   (toChainId context recipientChain) to_ 0 overrides))
         = true) ->
  only P (sendWithRelay context token amount toNativeToken sendingChain
            senderAddress recipientChain recipientAddress overrides).
Proof.
  intros Hother Hrelay.
  assert (Hasset : forall t,
             only P (mustGetForeignAsset context t sendingChain)).
  { intro t. unfold mustGetForeignAsset, getForeignAsset,
      formatAssetAddressOf, formatAssetAddress.
    apply only_bind.
    - destruct (_ =? _); [ exact I | ].
      apply only_bind; [ apply only_must | intro bridge ].
      apply only_bind.
      + destruct (getContext _ _);
          first [ apply only_lift
                | apply only_call; apply Hother; reflexivity ].
      + intro tokenAddr. split; [ apply Hother; reflexivity | ].
        intro foreign. simpl. destruct (String.eqb foreign _); exact I.
    - intros [a | ]; [ destruct (truthy_string a) | ]; exact I. }
  unfold sendWithRelay.
  destruct (getSigner context sendingChain) as [signer | ]; [ | exact I ].
  apply only_bind.
  - destruct token as [ | t]; [ exact I | ].
    apply only_bind; [ apply only_lift | intro amountBN ].
    apply only_bind; [ apply only_must | intro relayer ].
    apply only_bind; [ apply Hasset | intro tokenAddr ].
    unfold approve.
    destruct (getSigner context sendingChain) as [signer' | ]; [ | exact I ].
    split; [ apply Hother; reflexivity | intro senderAddress' ].
    split; [ apply Hother; reflexivity | intro approved ].
    simpl. destruct (approved <? amountBN); [ | exact I ].
    split; [ apply Hother; reflexivity | intro tx ].
    split; [ apply Hother; reflexivity | intro receipt ]. exact I.
  - intros _. apply only_bind.
    + unfold prepareSendWithRelay.
      apply only_bind; [ apply only_lift | intro amountBN ].
      apply only_bind; [ apply only_must | intro relayer ].
      destruct (BigNumber.from (JsString toNativeToken))
        as [nativeTokenBN | e] eqn:Hnative; [ | exact I ].
      simpl. destruct token as [ | t].
      * apply only_bind; [ apply only_lift | intro to_ ].
        apply only_call.
        apply (Hrelay amountBN relayer nativeTokenBN to_ EmptyString eq_refl).
      * apply only_bind; [ apply Hasset | intro tokenAddr ].
        apply only_bind; [ apply only_lift | intro token_ ].
        apply only_bind; [ apply only_lift | intro to_ ].
        apply only_call.
        apply (Hrelay amountBN relayer nativeTokenBN to_ token_ eq_refl).
    + intro tx. split; [ apply Hother; reflexivity | intro v ].
      apply only_call. apply Hother; reflexivity.
Qed.

(** C6, on the code: [sendWithRelay] never simulates.  No call of any of its
    runs is a dry run: the transaction of the relayer contract is constructed
    and handed to the signer at once.  The transaction does carry the amount
    to swap for native tokens and 0 as the batch id.  The run on the small
    network shows the three calls of a transfer of the native asset. *)
Theorem sendWithRelay_submits_without_simulation :
  (forall W (h : handler W) (w : W) context token amount toNativeToken
          sendingChain senderAddress recipientChain recipientAddress overrides,
      let o := run h (sendWithRelay context token amount toNativeToken
                        sendingChain senderAddress recipientChain
                        recipientAddress overrides) w in
      Forall (fun e => event_is is_simulation e = false) (calls o)
      /\ match BigNumber.from (JsString toNativeToken) with
         | Ok n =>
             Forall (fun e => event_is (constructs_relay_call n) e = true)
               (calls o)
         | Err _ => Forall (fun e => populated e = None) (calls o)
         end)
  /\ run Devnet.network
         (sendWithRelay Devnet.context NATIVE "500" "10" (ById 2)
            Devnet.wallet (ById 4) Devnet.wallet no_overrides)
         Devnet.genesis
     = mkOutcome (Ok Devnet.confirmation) Devnet.genesis
         [Event (populateTransaction Devnet.eth_relayer
                   (wrapAndTransferEthWithRelay 10 4
                      (Devnet.pad32 Devnet.wallet) 0
                      (with_value no_overrides 500))) true;
          Event (sendTransaction Devnet.wallet
                   (mkPopulated Devnet.eth_relayer
                      (wrapAndTransferEthWithRelay 10 4
                         (Devnet.pad32 Devnet.wallet) 0
                         (with_value no_overrides 500)))) true;
          Event (wait "0xb2") true].
Proof.
  split; [ | reflexivity ].
  intros W h w context token amount toNativeToken sendingChain senderAddress
    recipientChain recipientAddress overrides o.
  split.
  - eapply Forall_impl;
      [ | apply (only_run h (not_ is_simulation)), sendWithRelay_only ].
    + intros [R q answered]. unfold event_is, not_.
      destruct (is_simulation R q); [ discriminate | reflexivity ].
    + intros R q _ Hq. unfold not_. rewrite Hq. reflexivity.
    + intros. split; reflexivity.
  - destruct (BigNumber.from (JsString toNativeToken)) as [n | e] eqn:Hn.
    + apply only_run, sendWithRelay_only.
      * intros R q Hq _. destruct q; try reflexivity; discriminate.
      * intros amountBN relayer nativeTokenBN to_ token_ H.
        rewrite Hn in H. injection H as <-. simpl.
        rewrite Z.eqb_refl. split; reflexivity.
    + eapply Forall_impl;
        [ | apply (only_run h (not_ is_construction)), sendWithRelay_only ].
      * intros ev. apply quiet_event.
      * intros R q Hq _. unfold not_. rewrite Hq. reflexivity.
      * intros amountBN relayer nativeTokenBN to_ token_ H.
        rewrite Hn in H. discriminate.
Qed.

(** ** Messages of a transaction *)

Lemma ensures_bind {A B} (Q : B -> Prop) (p : prog A) (f : A -> prog B) :
  ensures (fun a => ensures Q (f a)) p -> ensures Q (bind p f).
Proof. induction p as [a | e | R q k IH]; simpl; auto. Qed.

Lemma ensures_lift {A} (Q : A -> Prop) (r : result A) :
  (forall a, r = Ok a -> Q a) -> ensures Q (lift r).
Proof. destruct r; simpl; auto. Qed.

Lemma ensures_run {W A} (h : handler W) (Q : A -> Prop) (p : prog A) w a :
  ensures Q p -> returned (run h p w) = Ok a -> Q a.
Proof.
  revert w; induction p as [x | e | R q k IH]; simpl; intros w Hp Hr.
  - injection Hr as <-. exact Hp.
  - discriminate.
  - destruct (h R q w) as [[r | reason] w']; simpl in Hr; [ | discriminate ].
    eapply IH; eauto.
Qed.

Lemma ensures_mapM {A B} (Q : B -> Prop) (f : A -> prog B) xs :
  (forall x, ensures Q (f x)) -> ensures (Forall Q) (mapM f xs).
Proof.
  intro Hf. induction xs as [ | x r IH]; simpl; [ constructor | ].
  apply ensures_bind.
  assert (Hx : ensures Q (f x)) by apply Hf.
  revert Hx. generalize (f x) as p.
  induction p as [y | e | R q k IHp]; simpl; auto.
  intro Hy. apply ensures_bind.
  revert IH. generalize (mapM f r) as p.
  induction p as [ys | e | R q k IHp]; simpl; auto.
Qed.

(** Proves [ensures Q p] along the binds, calls and tests of [p]. *)
Ltac along :=
  repeat first
    [ progress simpl
    | progress intros
    | apply ensures_bind
    | match goal with
      | |- ensures _ (lift ?r) => destruct r
      | |- ensures _ (match ?x with _ => _ end) => destruct x
      end ].

Lemma parseBridgeLog_gasFee context tx chain bridge receipt fee bridgeLog :
  ensures (fun m => message_gasFee m = fee)
    (parseBridgeLog context tx chain bridge receipt fee bridgeLog).
Proof. unfold parseBridgeLog, parseAssetAddressOf, parseAssetAddress. along; auto. Qed.

Lemma parseMessageFromTx_gasFee {W} (h : handler W) w context tx chain receipt
      w1 msgs :
  h _ (getTransactionReceipt chain tx) w = (Answer (Some receipt), w1) ->
  returned (run h (parseMessageFromTx context tx chain) w) = Ok msgs ->
  Forall (fun m => message_gasFee m = gasFeeOf receipt) msgs.
Proof.
  intros Hreceipt. unfold parseMessageFromTx.
  destruct (mustGetProvider context chain); [ | discriminate ].
  simpl. rewrite Hreceipt. simpl.
  destruct (mustGetCore context chain) as [core | ]; [ | discriminate ].
  destruct (mustGetBridge context chain) as [bridge | ]; [ | discriminate ].
  simpl. apply ensures_run, ensures_mapM.
  intro bridgeLog. apply parseBridgeLog_gasFee.
Qed.

(** C9: the gas fee of every message parsed from a transaction is
    [gasUsed * effectiveGasPrice] when the receipt has both fields, and is
    absent when the receipt lacks either of them. *)
Theorem parseMessageFromTx_gas_fee_from_receipt :
  forall W (h : handler W) (w w1 : W) context tx chain receipt msgs,
    h _ (getTransactionReceipt chain tx) w = (Answer (Some receipt), w1) ->
    returned (run h (parseMessageFromTx context tx chain) w) = Ok msgs ->
    (forall used price,
        gasUsed receipt = Some used ->
        effectiveGasPrice receipt = Some price ->
        Forall (fun m => message_gasFee m = Some (used * price)) msgs)
    /\ (gasUsed receipt = None \/ effectiveGasPrice receipt = None ->
        Forall (fun m => message_gasFee m = None) msgs).
Proof.
  intros W h w w1 context tx chain receipt msgs Hreceipt Hmsgs.
  pose proof (parseMessageFromTx_gasFee h w context tx chain receipt w1 msgs
                Hreceipt Hmsgs) as Hfee.
  unfold gasFeeOf in Hfee. split.
  - intros used price Hused Hprice. rewrite Hused, Hprice in Hfee. exact Hfee.
  - intros [Hnone | Hnone]; rewrite Hnone in Hfee;
      [ | destruct (gasUsed receipt) ]; exact Hfee.
Qed.

Lemma parseMessageFromTx_gas_fee_from_receipt_witness :
  (exists m1 m2,
      returned (run Devnet.network
                  (parseMessageFromTx Devnet.context "0xaa" (ById 2))
                  Devnet.genesis) = Ok [m1; m2]
      /\ Forall (fun m => message_gasFee m = Some (21000 * 3)) [m1; m2])
  /\ (exists m1 m2,
         returned (run Devnet.network
                     (parseMessageFromTx Devnet.context "0xbb" (ById 2))
                     Devnet.genesis) = Ok [m1; m2]
         /\ Forall (fun m => message_gasFee m = None) [m1; m2]).
Proof.
  split.
  - match goal with
    | |- exists m1 m2, ?res = _ /\ _ =>
        assert (Hres : exists m1 m2, res = Ok [m1; m2])
          by (vm_compute; do 2 eexists; reflexivity)
    end.
    destruct Hres as (m1 & m2 & Hres).
    exists m1, m2. split; [ exact Hres | ].
    refine (proj1 (parseMessageFromTx_gas_fee_from_receipt
                     Devnet.World Devnet.network Devnet.genesis Devnet.genesis
                     Devnet.context "0xaa"%string (ById 2) _ _ eq_refl Hres)
              21000 3 eq_refl eq_refl).
  - match goal with
    | |- exists m1 m2, ?res = _ /\ _ =>
        assert (Hres : exists m1 m2, res = Ok [m1; m2])
          by (vm_compute; do 2 eexists; reflexivity)
    end.
    destruct Hres as (m1 & m2 & Hres).
    exists m1, m2. split; [ exact Hres | ].
    refine (proj2 (parseMessageFromTx_gas_fee_from_receipt
                     Devnet.World Devnet.network Devnet.genesis Devnet.genesis
                     Devnet.context "0xbb"%string (ById 2) _ _ eq_refl Hres)
              (or_intror eq_refl)).
Defined.

(** The test [payload.startsWith('0x01')] reads byte 0 of the payload. *)
Lemma startsWith_0x01_first_byte payload :
  startsWith_0x01 payload = true <-> hd_error payload = Some x01.
Proof.
  unfold startsWith_0x01, Ethers.hexlify.
  destruct payload as [ | b r]; simpl; [ split; discriminate | ].
  destruct b; simpl; split; intro H; try discriminate; try reflexivity;
    destruct (Ethers.hex_of_bytes r); reflexivity.
Qed.

Lemma parseBridgeLog_shape context tx chain bridge receipt fee address_ args :
  ensures (fun m => if startsWith_0x01 (arg_payload args)
                    then exists b, m = BasicTransfer b
                    else exists r, m = RelayerTransfer r)
    (parseBridgeLog context tx chain bridge receipt fee
       (mkLog address_ (Some args))).
Proof.
  unfold parseBridgeLog, parseAssetAddressOf, parseAssetAddress. simpl.
  destruct (startsWith_0x01 (arg_payload args)); along; eauto.
Qed.

(** ** The address codec *)

Lemma substring_all s : substring 0 (String.length s) s = s.
Proof. induction s as [ | c r IH]; simpl; [ | rewrite IH ]; reflexivity. Qed.

Lemma hex_of_bytes_length b :
  String.length (Ethers.hex_of_bytes b) = (2 * List.length b)%nat.
Proof. induction b as [ | x r IH]; simpl; [ | rewrite IH ]; lia. Qed.

Lemma hex_of_bytes_digits b :
  Ethers.all_chars Ethers.is_hex_digit (Ethers.hex_of_bytes b) = true.
Proof.
  induction b as [ | x r IH]; simpl; [ reflexivity | ].
  rewrite IH. destruct x; reflexivity.
Qed.

Lemma hex_of_bytes_lower_case b :
  Ethers.any_char Ethers.is_upper_AF (Ethers.hex_of_bytes b) = false.
Proof.
  induction b as [ | x r IH]; simpl; [ reflexivity | ].
  rewrite IH. destruct x; reflexivity.
Qed.

Lemma bytes_of_hex_of_bytes b :
  Ethers.bytes_of_hex (Ethers.hex_of_bytes b) = Some b.
Proof.
  induction b as [ | x r IH]; simpl; [ reflexivity | ].
  rewrite IH. destruct x; reflexivity.
Qed.

(** [arrayify] reads back what [hexlify] writes. *)
Lemma arrayify_hexlify b :
  Ethers.arrayify (Ethers.HexString (Ethers.hexlify b)) = Ok b.
Proof.
  unfold Ethers.arrayify, Ethers.hexlify. simpl.
  rewrite hex_of_bytes_digits, Nat.sub_0_r, substring_all,
    bytes_of_hex_of_bytes.
  reflexivity.
Qed.

Lemma drop_zeros_padding n b :
  Ethers.drop_zeros (repeat x00 n ++ b) = Ethers.drop_zeros b.
Proof. induction n as [ | n IH]; simpl; auto. Qed.

Lemma drop_zeros_length b :
  (List.length (Ethers.drop_zeros b) <= List.length b)%nat.
Proof.
  induction b as [ | x r IH]; simpl; [ lia | ].
  destruct x; simpl; lia.
Qed.

Lemma drop_zeros_nonzero x r :
  x <> x00 -> Ethers.drop_zeros (x :: r) = x :: r.
Proof. intro Hx. destruct x; try reflexivity. congruence. Qed.

Lemma formatAddress_hexlify b :
  List.length b = 20%nat ->
  formatAddress (Ethers.hexlify b) = Ok (repeat x00 12 ++ b).
Proof.
  intro Hlen. unfold formatAddress, Ethers.zeroPad.
  rewrite arrayify_hexlify. simpl. rewrite Hlen. reflexivity.
Qed.

Lemma getAddress_hexlify keccak b :
  Ethers.getAddress keccak (Ethers.hexlify b) =
  if (List.length b =? 20)%nat
  then Ok (Ethers.getChecksumAddress keccak (Ethers.hexlify b))
  else Err (InvalidArgument "invalid address").
Proof.
  unfold Ethers.getAddress, Ethers.hexlify. simpl.
  rewrite hex_of_bytes_digits, hex_of_bytes_length, hex_of_bytes_lower_case,
    andb_true_r.
  replace (2 * List.length b =? 40)%nat with (List.length b =? 20)%nat.
  - destruct (List.length b =? 20)%nat; reflexivity.
  - destruct (Nat.eqb_spec (List.length b) 20) as [-> | Hne];
      [ reflexivity | ].
    symmetry. apply Nat.eqb_neq. lia.
Qed.

(** The round trip of the codec on the twenty bytes of an address: it gives
    the address back, in checksum case, when the first byte is not zero, and
    fails when it is. *)
Lemma parseAddress_formatAddress context x r :
  List.length (x :: r) = 20%nat ->
  rbind (formatAddress (Ethers.hexlify (x :: r)))
        (fun padded => parseAddress context (Ethers.Uint8Array padded))
  = match x with
    | x00 => Err (InvalidArgument "invalid address")
    | _ => Ok (Ethers.getChecksumAddress (keccak256 context)
                 (Ethers.hexlify (x :: r)))
    end.
Proof.
  intro Hlen. rewrite (formatAddress_hexlify _ Hlen).
  unfold parseAddress, Ethers.stripZeros, Ethers.arrayify, rbind.
  rewrite drop_zeros_padding, getAddress_hexlify.
  assert (Hshort : (List.length (Ethers.drop_zeros r) =? 20)%nat = false).
  { apply Nat.eqb_neq. pose proof (drop_zeros_length r). simpl in Hlen. lia. }
  destruct x; try (rewrite drop_zeros_nonzero by discriminate;
                   rewrite Hlen; reflexivity).
  simpl Ethers.drop_zeros. rewrite Hshort. reflexivity.
Qed.

(** C8, on the code: the address
    0x00000000219ab540356cbb839cbe05303d7705fa, whose first four bytes are
    zero, does not survive the round trip.  [formatAddress] pads it to 32
    bytes, [parseAddress] strips the padding together with the zero bytes of
    the address itself, and the sixteen bytes left are no address.  The
    spelling of the address in checksum case is padded to the same bytes. *)
Theorem parseAddress_rejects_leading_zero_address :
  forall context,
    formatAddress "0x00000000219ab540356cbb839cbe05303d7705fa"
      = Ok (Devnet.be_bytes 32 0x00000000219ab540356cbb839cbe05303d7705fa)
    /\ formatAddress "0x00000000219ab540356cBB839Cbe05303d7705Fa"
       = formatAddress "0x00000000219ab540356cbb839cbe05303d7705fa"
    /\ Ethers.stripZeros
         (Ethers.Uint8Array
            (Devnet.be_bytes 32 0x00000000219ab540356cbb839cbe05303d7705fa))
       = Ok (Devnet.be_bytes 16 0x219ab540356cbb839cbe05303d7705fa)
    /\ rbind (formatAddress "0x00000000219ab540356cbb839cbe05303d7705fa")
             (fun padded => parseAddress context (Ethers.Uint8Array padded))
       = Err (InvalidArgument "invalid address").
Proof.
  intro context. repeat split; reflexivity.
Qed.

(** ** Decoding by the discriminant *)

(** What [mapM] returns, when it returns: for each element, in order, what
    the run of the function on that element returned in some state. *)
Lemma mapM_returned {W A B} (h : handler W) (f : A -> prog B) xs w ys :
  returned (run h (mapM f xs) w) = Ok ys ->
  Forall2 (fun x y => exists w', returned (run h (f x) w') = Ok y) xs ys.
Proof.
  revert w ys. induction xs as [ | x r IH]; intros w ys; simpl.
  - intro H. injection H as <-. constructor.
  - rewrite run_bind.
    destruct (returned (run h (f x) w)) as [y | err] eqn:Hy;
      cbn [returned]; [ | discriminate ].
    rewrite run_bind.
    destruct (returned (run h (mapM f r) _)) as [ys' | err] eqn:Hys;
      cbn [returned]; [ | discriminate ].
    simpl. intro H. injection H as <-.
    constructor; [ eauto | eapply IH, Hys ].
Qed.

(** The bridge of the small network refuses the discriminants it does not
    know. *)
Lemma network_refuses_unknown_discriminant :
  refuses_unknown_discriminant Devnet.network.
Proof.
  intros bridge payload w Hother. unfold Devnet.network.
  rewrite arrayify_hexlify. unfold Devnet.decodeTransferWithPayload.
  destruct payload as [ | b r]; simpl; [ eauto | ].
  destruct (Byte.eqb b x03) eqn:Hb; simpl; [ | eauto ].
  exfalso. apply Hother. apply Byte.byte_dec_bl in Hb. subst b. reflexivity.
Qed.

(** C1: a log of the core contract is decoded by byte 0 of its payload,
    which is read before anything else.  When that byte is 1 the payload goes
    to the bridge's [parseTransfer], and what is returned, if anything, is a
    basic transfer.  Every other payload goes to the bridge's
    [parseTransferWithPayload]: when byte 0 is 3, what is returned, if
    anything, is a transfer with a relayer payload; when it is any other
    value (or the payload is empty) and the bridge refuses the discriminants
    that it does not know, the run fails with the error of the bridge after
    that one call, and no message is made of the payload.  So when
    [parseMessageFromTx] returns messages, every log of the core contract had
    discriminant 1 or 3, and its message is the basic transfer for 1 and the
    transfer with payload for 3.  A run returns a message or an error: the
    result type has no third case. *)
Theorem parseMessageFromTx_decodes_by_discriminant :
  forall W (h : handler W) context tx chain,
    refuses_unknown_discriminant h ->
    (forall w bridge receipt fee address_ args,
        let payload := arg_payload args in
        let o := run h (parseBridgeLog context tx chain bridge receipt fee
                          (mkLog address_ (Some args))) w in
        (hd_error payload = Some x01 ->
         (exists answered t,
             calls o = Event (parseTransfer bridge (Ethers.hexlify payload))
                         answered :: t)
         /\ forall m, returned o = Ok m -> exists b, m = BasicTransfer b)
        /\ (hd_error payload = Some x03 ->
            (exists answered t,
                calls o = Event (parseTransferWithPayload bridge
                                   (Ethers.hexlify payload)) answered :: t)
            /\ forall m, returned o = Ok m -> exists r, m = RelayerTransfer r)
        /\ (hd_error payload <> Some x01 ->
            hd_error payload <> Some x03 ->
            exists reason,
              returned o = Err (CallException reason)
              /\ calls o = [Event (parseTransferWithPayload bridge
                                     (Ethers.hexlify payload)) false]))
    /\ (forall w w1 receipt core msgs,
           h _ (getTransactionReceipt chain tx) w
             = (Answer (Some receipt), w1) ->
           mustGetCore context chain = Some core ->
           returned (run h (parseMessageFromTx context tx chain) w)
             = Ok msgs ->
           Forall2
             (fun l m =>
                exists args,
                  parsed l = Some args
                  /\ ((hd_error (arg_payload args) = Some x01
                       /\ exists b, m = BasicTransfer b)
                      \/ (hd_error (arg_payload args) = Some x03
                          /\ exists r, m = RelayerTransfer r)))
             (filter (fun l => String.eqb (log_address l) core)
                (logs receipt))
             msgs).
Proof.
  intros W h context tx chain Hbridge.
  assert (Hlog :
            forall w bridge receipt fee address_ args,
              let payload := arg_payload args in
              let o := run h (parseBridgeLog context tx chain bridge receipt
                                fee (mkLog address_ (Some args))) w in
              (hd_error payload = Some x01 ->
               (exists answered t,
                   calls o
                   = Event (parseTransfer bridge (Ethers.hexlify payload))
                       answered :: t)
               /\ forall m, returned o = Ok m -> exists b, m = BasicTransfer b)
              /\ (hd_error payload = Some x03 ->
                  (exists answered t,
                      calls o
                      = Event (parseTransferWithPayload bridge
                                 (Ethers.hexlify payload)) answered :: t)
                  /\ forall m,
                      returned o = Ok m -> exists r, m = RelayerTransfer r)
              /\ (hd_error payload <> Some x01 ->
                  hd_error payload <> Some x03 ->
                  exists reason,
                    returned o = Err (CallException reason)
                    /\ calls o
                       = [Event (parseTransferWithPayload bridge
                                   (Ethers.hexlify payload)) false])).
  { intros w bridge receipt fee address_ args payload o.
    pose proof (parseBridgeLog_shape context tx chain bridge receipt fee
                  address_ args) as Hshape.
    pose proof (startsWith_0x01_first_byte payload) as Hbyte.
    fold payload in Hshape.
    assert (Hfalse : hd_error payload <> Some x01 ->
                     startsWith_0x01 payload = false).
    { intro Hother. destruct (startsWith_0x01 payload) eqn:Hs;
        [ | reflexivity ].
      exfalso. apply Hother, Hbyte. reflexivity. }
    split; [ | split ].
    - intro Hone. apply Hbyte in Hone. split.
      + subst o. unfold parseBridgeLog. simpl. fold payload. rewrite Hone.
        simpl.
        destruct (h _ (parseTransfer bridge _) w) as [[t | reason] w'];
          simpl; eauto.
      + intros m Hm. rewrite Hone in Hshape.
        apply (ensures_run h _ _ w m Hshape Hm).
    - intro Hthree.
      assert (Hother : hd_error payload <> Some x01) by congruence.
      apply Hfalse in Hother. split.
      + subst o. unfold parseBridgeLog. simpl. fold payload. rewrite Hother.
        simpl.
        destruct (h _ (parseTransferWithPayload bridge _) w)
          as [[t | reason] w']; simpl; eauto.
      + intros m Hm. rewrite Hother in Hshape.
        apply (ensures_run h _ _ w m Hshape Hm).
    - intros Hnot1 Hnot3. apply Hfalse in Hnot1.
      destruct (Hbridge bridge payload w Hnot3) as (reason & w' & Hrefused).
      exists reason.
      subst o. unfold parseBridgeLog. simpl. fold payload. rewrite Hnot1.
      simpl. rewrite Hrefused. split; reflexivity. }
  split; [ exact Hlog | ].
  intros w w1 receipt core msgs Hreceipt Hcore. unfold parseMessageFromTx.
  destruct (mustGetProvider context chain); [ | discriminate ].
  simpl. rewrite Hreceipt, Hcore. simpl.
  destruct (mustGetBridge context chain) as [bridge | ]; [ | discriminate ].
  simpl. intro Hmsgs. apply mapM_returned in Hmsgs.
  eapply Forall2_impl; [ | exact Hmsgs ].
  intros [address_ [args | ]] m (w' & Hm); [ | discriminate ].
  exists args. split; [ reflexivity | ].
  destruct (Hlog w' bridge receipt (gasFeeOf receipt) address_ args)
    as (Hone & Hthree & Hnone).
  destruct (hd_error (arg_payload args)) as [b | ] eqn:Hhd.
  - destruct (Byte.byte_eq_dec b x01) as [-> | Hb1].
    + left. split; [ reflexivity | ]. apply (Hone eq_refl), Hm.
    + destruct (Byte.byte_eq_dec b x03) as [-> | Hb3].
      * right. split; [ reflexivity | ]. apply (Hthree eq_refl), Hm.
      * exfalso.
        destruct Hnone as (reason & Herr & _); try congruence.
  - exfalso. destruct Hnone as (reason & Herr & _); congruence.
Qed.

Lemma parseMessageFromTx_decodes_by_discriminant_witness :
  (exists b,
      returned (run Devnet.network
                  (parseBridgeLog Devnet.context "0xaa" (ById 2)
                     Devnet.eth_bridge Devnet.confirmation None
                     (Devnet.coreLog 7 Devnet.transferPayload))
                  Devnet.genesis) = Ok (BasicTransfer b))
  /\ (exists r,
         returned (run Devnet.network
                     (parseBridgeLog Devnet.context "0xaa" (ById 2)
                        Devnet.eth_bridge Devnet.confirmation None
                        (Devnet.coreLog 8 (Devnet.payloadWith x03)))
                     Devnet.genesis) = Ok (RelayerTransfer r))
  /\ (exists reason,
         returned (run Devnet.network
                     (parseBridgeLog Devnet.context "0xcc" (ById 2)
                        Devnet.eth_bridge Devnet.confirmation None
                        (Devnet.coreLog 11 (Devnet.payloadWith x02)))
                     Devnet.genesis) = Err (CallException reason)
         /\ calls (run Devnet.network
                     (parseBridgeLog Devnet.context "0xcc" (ById 2)
                        Devnet.eth_bridge Devnet.confirmation None
                        (Devnet.coreLog 11 (Devnet.payloadWith x02)))
                     Devnet.genesis)
            = [Event (parseTransferWithPayload Devnet.eth_bridge
                        (Ethers.hexlify (Devnet.payloadWith x02))) false])
  /\ (exists b r,
         returned (run Devnet.network
                     (parseMessageFromTx Devnet.context "0xaa" (ById 2))
                     Devnet.genesis)
         = Ok [BasicTransfer b; RelayerTransfer r]).
Proof.
  destruct (parseMessageFromTx_decodes_by_discriminant
              Devnet.World Devnet.network Devnet.context "0xaa"%string
              (ById 2) network_refuses_unknown_discriminant)
    as [Hlog Hall].
  destruct (parseMessageFromTx_decodes_by_discriminant
              Devnet.World Devnet.network Devnet.context "0xcc"%string
              (ById 2) network_refuses_unknown_discriminant)
    as [Hlog' _].
  split; [ | split; [ | split ] ].
  - destruct (Hlog Devnet.genesis Devnet.eth_bridge Devnet.confirmation None
                Devnet.eth_core
                (mkLogArgs Devnet.eth_bridge 7 Devnet.transferPayload))
      as ([_ Hbasic] & _); [ reflexivity | ].
    match goal with
    | |- exists b, ?res = _ =>
        assert (Hres : exists m, res = Ok m)
          by (vm_compute; eexists; reflexivity)
    end.
    destruct Hres as [m Hm]. destruct (Hbasic m Hm) as [b ->].
    exists b. exact Hm.
  - destruct (Hlog Devnet.genesis Devnet.eth_bridge Devnet.confirmation None
                Devnet.eth_core
                (mkLogArgs Devnet.eth_bridge 8 (Devnet.payloadWith x03)))
      as (_ & [_ Hrelayer] & _); [ reflexivity | ].
    match goal with
    | |- exists r, ?res = _ =>
        assert (Hres : exists m, res = Ok m)
          by (vm_compute; eexists; reflexivity)
    end.
    destruct Hres as [m Hm]. destruct (Hrelayer m Hm) as [r ->].
    exists r. exact Hm.
  - destruct (Hlog' Devnet.genesis Devnet.eth_bridge Devnet.confirmation None
                Devnet.eth_core
                (mkLogArgs Devnet.eth_bridge 11 (Devnet.payloadWith x02)))
      as (_ & _ & Hnone).
    apply Hnone; discriminate.
  - match goal with
    | |- exists b r, ?res = _ =>
        assert (Hres : exists msgs, res = Ok msgs)
          by (vm_compute; eexists; reflexivity)
    end.
    destruct Hres as [msgs Hmsgs].
    pose proof (Hall Devnet.genesis Devnet.genesis
                  (mkReceipt Devnet.wallet 17 (Some 21000) (Some 3)
                     [Devnet.coreLog 7 Devnet.transferPayload;
                      Devnet.otherLog;
                      Devnet.coreLog 8 (Devnet.payloadWith x03)])
                  Devnet.eth_core msgs eq_refl eq_refl Hmsgs) as Heach.
    change (filter _ _) with
      [Devnet.coreLog 7 Devnet.transferPayload;
       Devnet.coreLog 8 (Devnet.payloadWith x03)] in Heach.
    inversion Heach as [ | l1 m1 ls1 ms1 H1 Hrest1 ]; subst.
    inversion Hrest1 as [ | l2 m2 ls2 ms2 H2 Hrest2 ]; subst.
    inversion Hrest2; subst.
    destruct H1 as (args1 & Hargs1 & [[_ [b ->]] | [Hthree _]]);
      [ | injection Hargs1 as <-; discriminate ].
    destruct H2 as (args2 & Hargs2 & [[Hone _] | [_ [r ->]]]);
      [ injection Hargs2 as <-; discriminate | ].
    exists b, r. exact Hmsgs.
Defined.

(** ** Runs on the small network *)

(** A payload with first byte 1, amount 0x0F4240, token chain 2 and recipient
    chain 1 is parsed to a message of amount 1_000_000 from the chain of id 2
    to the chain of id 1. *)
Example basic_transfer_is_parsed :
  exists m,
    returned (run Devnet.network
                (parseBridgeLog Devnet.context "0xaa" (ById 2)
                   Devnet.eth_bridge Devnet.confirmation None
                   (Devnet.coreLog 7 Devnet.transferPayload))
                Devnet.genesis) = Ok (BasicTransfer m)
    /\ amount m = 1000000 /\ payloadID m = 1
    /\ tokenChain m = "ethereum"%string /\ toChain m = "solana"%string.
Proof. vm_compute. eexists. repeat split. Qed.

(** [send] of a token with allowance 0 approves 500 and then simulates,
    constructs and submits the transfer; with the allowance in place it
    submits the transfer alone. *)
Example send_approves_once :
  approvals
    (calls (run Devnet.network
              (send Devnet.context (TokenOf Devnet.usdc) "500" (ById 2)
                 Devnet.wallet (ById 4) Devnet.wallet (JsNumber 0)
                 no_overrides)
              Devnet.genesis)) = 1%nat
  /\ approvals
       (calls (run Devnet.network
                 (send Devnet.context (TokenOf Devnet.usdc) "500" (ById 2)
                    Devnet.wallet (ById 4) Devnet.wallet (JsNumber 0)
                    no_overrides)
                 (Devnet.mkWorld
                    [(Types.address Devnet.usdc, Devnet.wallet,
                      Devnet.eth_bridge, 500)] false 0))) = 0%nat.
Proof. split; reflexivity. Qed.

(** When the bridge rejects the dry run, [prepareSend] fails with the reason
    of the bridge and constructs nothing. *)
Example rejected_simulation_constructs_nothing :
  run Devnet.network
      (prepareSend Devnet.context NATIVE "500" (ById 2) Devnet.wallet (ById 4)
         Devnet.wallet (JsNumber 0) no_overrides)
      (Devnet.mkWorld [] true 0)
  = mkOutcome (Err (CallException "execution reverted: paused"))
      (Devnet.mkWorld [] true 1)
      [Event createNonce true;
       Event (callStatic Devnet.eth_bridge
                (wrapAndTransferETH 4 (Devnet.pad32 Devnet.wallet) (JsNumber 0)
                   (Devnet.be_bytes 4 0)
                   (with_from (with_value no_overrides 500) Devnet.wallet)))
         false].
Proof. reflexivity. Qed.

(** * Further properties of the methods *)

Lemma always_bind {A B} P (p : prog A) (f : A -> prog B) :
  always P p -> (forall a, always P (f a)) -> always P (bind p f).
Proof.
  induction p as [a | e | R q k IH]; simpl; intros Hp Hf; auto.
  destruct Hp as [Hq Hk]. split; auto.
Qed.

Lemma always_run {W A} (h : handler W) P (p : prog A) (w : W) :
  always P p -> Forall (holds P) (calls (run h p w)).
Proof.
  revert w; induction p as [a | e | R q k IH]; intros w Hp; simpl;
    try constructor.
  destruct Hp as [Hq Hk].
  destruct (h R q w) as [[r | reason] w']; simpl.
  - constructor; [ exact Hq | apply IH, Hk ].
  - constructor; [ exact Hq | constructor ].
Qed.

Lemma always_only {A} (P : forall R, request R -> bool) (p : prog A) :
  only P p -> always (fun R q => P R q = true) p.
Proof. induction p as [a | e | R q k IH]; simpl; intuition. Qed.

Lemma always_lift {A} P (r : result A) : always P (lift r).
Proof. destruct r; exact I. Qed.

Lemma always_must {A} P which (o : option A) : always P (must which o).
Proof. destruct o; exact I. Qed.

(** Proves [only P p] or [always P p] for a program whose calls can be
    listed, checking [P] on each of them. *)
Ltac every_call :=
  repeat first
    [ exact I
    | apply only_lift | apply only_must
    | apply always_lift | apply always_must
    | apply only_bind; [ | intro ]
    | apply always_bind; [ | intro ]
    | match goal with
      | |- only _ (match ?x with _ => _ end) => destruct x
      | |- always _ (match ?x with _ => _ end) => destruct x
      | |- only _ (Call _ _) => split; [ reflexivity | intro ]
      | |- always _ (Call _ _) => split; [ simpl; auto | intro ]
      | |- only _ (call _) => split; [ reflexivity | intro ]
      | |- always _ (call _) => split; [ simpl; auto | intro ]
      end
    | progress simpl ].

Lemma getForeignAsset_reads context tokenId chain :
  only (not_ is_write) (getForeignAsset context tokenId chain).
Proof.
  unfold getForeignAsset, formatAssetAddressOf, formatAssetAddress.
  every_call.
Qed.

Lemma mustGetForeignAsset_reads context tokenId chain :
  only (not_ is_write) (mustGetForeignAsset context tokenId chain).
Proof.
  unfold mustGetForeignAsset.
  apply only_bind; [ apply getForeignAsset_reads | intro a ]. every_call.
Qed.

Lemma negb_event_is P e :
  event_is (not_ P) e = true -> event_is P e = false.
Proof.
  destruct e as [R q answered]. unfold event_is, not_.
  destruct (P R q); [ discriminate | reflexivity ].
Qed.

(** X1: the three [prepare] methods construct a transaction and do not
    dispatch it: no run of [prepareSend], [prepareSendWithRelay] or
    [prepareRedeem] submits an approval or hands a transaction to a
    signer. *)
Theorem prepare_methods_never_dispatch :
  forall W (h : handler W) (w : W) context token amount toNativeToken
         sendingChain senderAddress recipientChain recipientAddress relayerFee
         overrides signedVAA,
    Forall (fun e => event_is is_write e = false)
      (calls (run h (prepareSend context token amount sendingChain
                       senderAddress recipientChain recipientAddress
                       relayerFee overrides) w))
    /\ Forall (fun e => event_is is_write e = false)
         (calls (run h (prepareSendWithRelay context token amount
                          toNativeToken sendingChain senderAddress
                          recipientChain recipientAddress overrides) w))
    /\ Forall (fun e => event_is is_write e = false)
         (calls (run h (prepareRedeem context recipientChain signedVAA
                          overrides) w)).
Proof.
  intros. repeat split;
    (eapply Forall_impl; [ intros e He; apply negb_event_is, He | ]);
    apply only_run.
  - unfold prepareSend.
    apply only_bind; [ apply only_lift | intro amountBN ].
    apply only_bind; [ apply only_must | intro bridge ].
    apply only_bind; [ every_call | intro account ].
    destruct token as [ | t]; [ every_call | ].
    apply only_bind; [ apply mustGetForeignAsset_reads | intro tokenAddr ].
    every_call.
  - unfold prepareSendWithRelay.
    apply only_bind; [ apply only_lift | intro amountBN ].
    apply only_bind; [ apply only_must | intro relayer ].
    apply only_bind; [ apply only_lift | intro nativeTokenBN ].
    destruct token as [ | t]; [ every_call | ].
    apply only_bind; [ apply mustGetForeignAsset_reads | intro tokenAddr ].
    every_call.
  - unfold prepareRedeem. every_call.
Qed.

(** ** Submission *)

Lemma first_occurrence (P : event -> bool) l x r t1 e t2 :
  Forall (fun y => P y = false) l ->
  l ++ x :: r = t1 ++ e :: t2 ->
  P e = true ->
  (t1 = l /\ e = x /\ t2 = r)
  \/ exists t1', t1 = l ++ x :: t1' /\ r = t1' ++ e :: t2.
Proof.
  intro Hl. revert t1.
  induction Hl as [ | y l Hy _ IH]; intros t1 Hsplit He.
  - destruct t1 as [ | z t1]; simpl in Hsplit; injection Hsplit as -> ->.
    + left. auto.
    + right. exists t1. auto.
  - destruct t1 as [ | z t1]; simpl in Hsplit; injection Hsplit as <- Hrest.
    + congruence.
    + destruct (IH t1 Hrest He) as [(-> & -> & ->) | (t1' & -> & ->)].
      * left. auto.
      * right. exists t1'. auto.
Qed.

Lemma nowhere (P : event -> bool) l t1 e t2 :
  Forall (fun y => P y = false) l -> l = t1 ++ e :: t2 -> P e = true -> False.
Proof.
  intros Hl -> He. apply Forall_app in Hl. destruct Hl as [_ Hl].
  inversion Hl; subst. congruence.
Qed.

Lemma without_submission {W A} (h : handler W) (p : prog A) w :
  only (not_ is_submission) p ->
  Forall (fun e => event_is is_submission e = false) (calls (run h p w)).
Proof.
  intro Hp. eapply Forall_impl; [ | apply (only_run h _ p w Hp) ].
  intros e He. apply negb_event_is, He.
Qed.

(** Approve if needed, prepare, submit, wait: the common shape of [send] and
    [redeem].  A transaction is submitted right after it was constructed,
    and after its dry run. *)
Lemma submit_after_prepare {W} (h : handler W) w (approval : prog unit)
      (prepare : prog PopulatedTransaction) signer :
  only (not_ is_submission) approval ->
  only (not_ is_submission) prepare ->
  (forall w',
      simulated_first (calls (run h prepare w'))
      /\ forall tx, returned (run h prepare w') = Ok tx ->
                    ends_in_construction (calls (run h prepare w'))) ->
  forall t1 e t2,
    calls (run h (approval ;;;
                  tx <- prepare ;;
                  v <- call (sendTransaction signer tx) ;;
                  call (wait v)) w) = t1 ++ e :: t2 ->
    event_is is_submission e = true ->
    exists t0 b c e' c',
      t1 = t0 ++ [Event (populateTransaction b c) true]
      /\ In e' t0 /\ simulated e' = Some (b, c') /\ dry_run_of c' c.
Proof.
  intros Happroval Hprepare Hsim t1 e t2.
  rewrite run_bind.
  pose proof (without_submission h approval w Happroval) as Ha.
  destruct (returned (run h approval w)) as [[] | err];
    cbn [calls returned final];
    [ | intros Hsplit He; exfalso; eapply nowhere; eauto ].
  rewrite run_bind.
  set (w1 := final (run h approval w)).
  pose proof (without_submission h prepare w1 Hprepare) as Hp.
  destruct (Hsim w1) as [Hfirst Hends].
  destruct (returned (run h prepare w1)) as [tx | err];
    cbn [calls returned final].
  2:{ intros Hsplit He. exfalso.
      eapply (nowhere (event_is is_submission)); [ | exact Hsplit | exact He ].
      apply Forall_app. auto. }
  specialize (Hends tx eq_refl).
  destruct (simulated_before_last _ Hfirst Hends)
    as (t0 & b & c & e' & c' & Hcalls & Hin & Hsimulated & Hdry).
  intros Hsplit He.
  assert (Hboth : Forall (fun y => event_is is_submission y = false)
                    (calls (run h approval w) ++ calls (run h prepare w1)))
    by (apply Forall_app; auto).
  assert (Hshape : exists answered r,
             calls (run h (v <- call (sendTransaction signer tx) ;;
                           call (wait v))
                      (final (run h prepare w1)))
             = Event (sendTransaction signer tx) answered :: r
             /\ Forall (fun y => event_is is_submission y = false) r).
  { simpl.
    destruct (h _ (sendTransaction signer tx) _) as [[v | reason] w2]; simpl.
    - destruct (h _ (wait v) w2) as [[receipt | reason] w3]; simpl;
        do 2 eexists; split; try reflexivity; repeat constructor.
    - do 2 eexists. split; [ reflexivity | constructor ]. }
  destruct Hshape as (answered & r & Htail & Hr).
  rewrite Htail, app_assoc in Hsplit.
  destruct (first_occurrence _ _ _ _ _ _ _ Hboth Hsplit He)
    as [(-> & _ & _) | (t1' & _ & Hin_r)].
  - exists (calls (run h approval w) ++ t0), b, c, e', c'.
    rewrite Hcalls, app_assoc. repeat split; auto.
    apply in_or_app. right. exact Hin.
  - exfalso. eapply nowhere; eauto.
Qed.

Lemma approve_only_not_submission context chain contractAddress tokenAddr
      amount overrides :
  only (not_ is_submission)
    (approve context chain contractAddress tokenAddr amount overrides).
Proof. unfold approve. every_call. Qed.

Lemma mustGetForeignAsset_only_not_submission context tokenId chain :
  only (not_ is_submission) (mustGetForeignAsset context tokenId chain).
Proof.
  unfold mustGetForeignAsset, getForeignAsset, formatAssetAddressOf,
    formatAssetAddress.
  every_call.
Qed.

Lemma prepareSend_only_not_submission context token amount sendingChain
      senderAddress recipientChain recipientAddress relayerFee overrides :
  only (not_ is_submission)
    (prepareSend context token amount sendingChain senderAddress
       recipientChain recipientAddress relayerFee overrides).
Proof.
  unfold prepareSend.
  apply only_bind; [ apply only_lift | intro amountBN ].
  apply only_bind; [ apply only_must | intro bridge ].
  apply only_bind; [ every_call | intro account ].
  destruct token as [ | t]; [ every_call | ].
  apply only_bind;
    [ apply mustGetForeignAsset_only_not_submission | intro tokenAddr ].
  every_call.
Qed.

(** X2: [send] and [redeem] hand a transaction to the signer only right
    after constructing one, and the construction only after a dry run of the
    same call was answered without error: in every run, the call just before
    a submission is the construction, and its dry run is among the calls
    before. *)
Theorem send_and_redeem_submit_after_simulation :
  forall W (h : handler W) (w : W) context token amount sendingChain
         senderAddress recipientChain recipientAddress relayerFee overrides
         signedVAA t1 e t2,
    event_is is_submission e = true ->
    (calls (run h (send context token amount sendingChain senderAddress
                     recipientChain recipientAddress relayerFee overrides) w)
       = t1 ++ e :: t2
     \/ calls (run h (redeem context sendingChain signedVAA overrides) w)
          = t1 ++ e :: t2) ->
    exists t0 b c e' c',
      t1 = t0 ++ [Event (populateTransaction b c) true]
      /\ In e' t0 /\ simulated e' = Some (b, c') /\ dry_run_of c' c.
Proof.
  intros W h w context token amount sendingChain senderAddress recipientChain
    recipientAddress relayerFee overrides signedVAA t1 e t2 He.
  unfold send, redeem.
  destruct (getSigner context sendingChain) as [signer | ].
  2:{ intros [H | H]; destruct t1; discriminate. }
  intros [Hsplit | Hsplit].
  - eapply (submit_after_prepare h w); [ | | | exact Hsplit | exact He ].
    + destruct token as [ | t]; [ exact I | ].
      apply only_bind; [ apply only_lift | intro amountBN ].
      apply only_bind; [ apply only_must | intro bridge ].
      apply only_bind;
        [ apply mustGetForeignAsset_only_not_submission | intro tokenAddr ].
      apply approve_only_not_submission.
    + apply prepareSend_only_not_submission.
    + intro w'. apply prepareSend_simulated.
  - eapply (submit_after_prepare h w (Ret tt));
      [ exact I | | | exact Hsplit | exact He ].
    + unfold prepareRedeem. every_call.
    + intro w'. apply prepareRedeem_simulated.
Qed.

Lemma send_and_redeem_submit_after_simulation_witness :
  exists t0 b c e' c',
    [Event createNonce true;
     Event (callStatic Devnet.eth_bridge
              (wrapAndTransferETH 4 (Devnet.pad32 Devnet.wallet) (JsNumber 0)
                 (Devnet.be_bytes 4 0)
                 (with_from (with_value no_overrides 500) Devnet.wallet)))
       true;
     Event createNonce true;
     Event (populateTransaction Devnet.eth_bridge
              (wrapAndTransferETH 4 (Devnet.pad32 Devnet.wallet) (JsNumber 0)
                 (Devnet.be_bytes 4 1) (with_value no_overrides 500)))
       true]
    = t0 ++ [Event (populateTransaction b c) true]
    /\ In e' t0 /\ simulated e' = Some (b, c') /\ dry_run_of c' c.
Proof.
  apply (send_and_redeem_submit_after_simulation
           Devnet.World Devnet.network Devnet.genesis Devnet.context NATIVE
           "500"%string (ById 2) Devnet.wallet (ById 4) Devnet.wallet
           (JsNumber 0) no_overrides [x01]
           _
           (Event (sendTransaction Devnet.wallet
                     (mkPopulated Devnet.eth_bridge
                        (wrapAndTransferETH 4 (Devnet.pad32 Devnet.wallet)
                           (JsNumber 0) (Devnet.be_bytes 4 1)
                           (with_value no_overrides 500)))) true)
           [Event (wait "0xb2") true]).
  - reflexivity.
  - left. reflexivity.
Defined.

(** ** What [send] and [sendWithRelay] approve *)

Lemma no_approval_of e :
  event_is (not_ is_approval) e = true -> approval_of e = None.
Proof.
  destruct e as [R q answered]. unfold event_is, not_.
  destruct q; simpl; congruence.
Qed.

Lemma approves_approval_of token signer spender amount ov e tok s sp amt ov' :
  holds (approves token signer spender amount ov) e ->
  approval_of e = Some (tok, s, sp, amt, ov') ->
  tok = token /\ s = signer /\ sp = spender /\ amt = amount /\ ov' = ov.
Proof.
  destruct e as [R q answered]. destruct q; simpl; try discriminate.
  intros (-> & -> & -> & -> & ->) H. injection H as <- <- <- <- <-. auto.
Qed.

Lemma approve_approves context chain contractAddress tokenAddr amountBN
      overrides signer :
  getSigner context chain = Some signer ->
  always (approves tokenAddr signer contractAddress amountBN overrides)
    (approve context chain contractAddress tokenAddr
       (Some (BigNumberObj amountBN)) overrides).
Proof.
  intro Hsigner. unfold approve. rewrite Hsigner. simpl.
  split; [ exact I | intro senderAddress ].
  split; [ exact I | intro approved ].
  destruct (approved <? amountBN)%Z; every_call.
Qed.

Lemma mustGetForeignAsset_only_not_approval context tokenId chain :
  only (not_ is_approval) (mustGetForeignAsset context tokenId chain).
Proof.
  unfold mustGetForeignAsset, getForeignAsset, formatAssetAddressOf,
    formatAssetAddress.
  every_call.
Qed.

Lemma approval_in_transfer {W A} (h : handler W) w context t sendingChain
      signer contract amountBN overrides (rest : prog A) e tok s sp amt ov :
  getSigner context sendingChain = Some signer ->
  only (not_ is_approval) rest ->
  In e (calls (run h ((tokenAddr <- mustGetForeignAsset context t
                                      sendingChain ;;
                       approve context sendingChain contract tokenAddr
                         (Some (BigNumberObj amountBN)) overrides) ;;;
                      rest) w)) ->
  approval_of e = Some (tok, s, sp, amt, ov) ->
  sp = contract /\ amt = amountBN /\ ov = overrides /\ s = signer
  /\ returned (run h (mustGetForeignAsset context t sendingChain) w) = Ok tok.
Proof.
  intros Hsigner Hrest Hin Happroval.
  assert (Hnot : forall {B} (p : prog B) w',
             only (not_ is_approval) p -> ~ In e (calls (run h p w'))).
  { intros B p w' Hp Hin'.
    pose proof (only_run h _ p w' Hp) as Hall.
    rewrite Forall_forall in Hall. apply Hall, no_approval_of in Hin'.
    congruence. }
  rewrite run_bind in Hin.
  assert (Hfirst :
            In e (calls (run h (tokenAddr <- mustGetForeignAsset context t
                                               sendingChain ;;
                                approve context sendingChain contract tokenAddr
                                  (Some (BigNumberObj amountBN)) overrides)
                           w))).
  { destruct (returned (run h (bind _ _) w)); cbn [calls] in Hin; auto.
    apply in_app_or in Hin. destruct Hin as [Hin | Hin]; auto.
    exfalso. exact (Hnot _ rest _ Hrest Hin). }
  clear Hin. rewrite run_bind in Hfirst.
  destruct (returned (run h (mustGetForeignAsset context t sendingChain) w))
    as [tokenAddr | err]; cbn [calls] in Hfirst.
  2:{ exfalso.
      exact (Hnot _ _ _ (mustGetForeignAsset_only_not_approval context t
                           sendingChain) Hfirst). }
  apply in_app_or in Hfirst. destruct Hfirst as [Hin | Hin].
  { exfalso.
    exact (Hnot _ _ _ (mustGetForeignAsset_only_not_approval context t
                         sendingChain) Hin). }
  pose proof (always_run h _ _ (final (run h (mustGetForeignAsset context t
                                                sendingChain) w))
                (approve_approves context sendingChain contract tokenAddr
                   amountBN overrides signer Hsigner)) as Hall.
  rewrite Forall_forall in Hall.
  destruct (approves_approval_of _ _ _ _ _ _ _ _ _ _ _ (Hall e Hin) Happroval)
    as (-> & -> & -> & -> & ->).
  auto.
Qed.

Lemma prepareSend_only_not_approval context token amount sendingChain
      senderAddress recipientChain recipientAddress relayerFee overrides :
  only (not_ is_approval)
    (prepareSend context token amount sendingChain senderAddress
       recipientChain recipientAddress relayerFee overrides).
Proof.
  unfold prepareSend.
  apply only_bind; [ apply only_lift | intro amountBN ].
  apply only_bind; [ apply only_must | intro bridge ].
  apply only_bind; [ every_call | intro account ].
  destruct token as [ | t]; [ every_call | ].
  apply only_bind;
    [ apply mustGetForeignAsset_only_not_approval | intro tokenAddr ].
  every_call.
Qed.

Lemma prepareSendWithRelay_only_not_approval context token amount
      toNativeToken sendingChain senderAddress recipientChain recipientAddress
      overrides :
  only (not_ is_approval)
    (prepareSendWithRelay context token amount toNativeToken sendingChain
       senderAddress recipientChain recipientAddress overrides).
Proof.
  unfold prepareSendWithRelay.
  apply only_bind; [ apply only_lift | intro amountBN ].
  apply only_bind; [ apply only_must | intro relayer ].
  apply only_bind; [ apply only_lift | intro nativeTokenBN ].
  destruct token as [ | t]; [ every_call | ].
  apply only_bind;
    [ apply mustGetForeignAsset_only_not_approval | intro tokenAddr ].
  every_call.
Qed.

(** X3: what [send] and [sendWithRelay] approve.  An approval is only made
    for a token, never for the native asset.  It is made by the signer of the
    sending chain, for the amount of the transfer, with the overrides of the
    call, of the address that [mustGetForeignAsset] returns for the token on
    the sending chain; the spender is the bridge of the sending chain in
    [send] and its relayer contract in [sendWithRelay]. *)
Theorem transfers_approve_the_contract_they_call :
  forall W (h : handler W) (w : W) context token amount toNativeToken
         sendingChain senderAddress recipientChain recipientAddress relayerFee
         overrides e tok s sp amt ov,
    approval_of e = Some (tok, s, sp, amt, ov) ->
    (In e (calls (run h (send context token amount sendingChain senderAddress
                           recipientChain recipientAddress relayerFee
                           overrides) w)) ->
     mustGetBridge context sendingChain = Some sp
     /\ exists t,
         token = TokenOf t
         /\ returned (run h (mustGetForeignAsset context t sendingChain) w)
            = Ok tok
         /\ BigNumber.from (JsString amount) = Ok amt
         /\ ov = overrides /\ getSigner context sendingChain = Some s)
    /\ (In e (calls (run h (sendWithRelay context token amount toNativeToken
                              sendingChain senderAddress recipientChain
                              recipientAddress overrides) w)) ->
        mustGetTokenBridgeRelayer context sendingChain = Some sp
        /\ exists t,
            token = TokenOf t
            /\ returned (run h (mustGetForeignAsset context t sendingChain) w)
               = Ok tok
            /\ BigNumber.from (JsString amount) = Ok amt
            /\ ov = overrides /\ getSigner context sendingChain = Some s).
Proof.
  intros W h w context token amount toNativeToken sendingChain senderAddress
    recipientChain recipientAddress relayerFee overrides e tok s sp amt ov
    Happroval.
  assert (Hnot : forall {B} (p : prog B) w',
             only (not_ is_approval) p -> ~ In e (calls (run h p w'))).
  { intros B p w' Hp Hin'.
    pose proof (only_run h _ p w' Hp) as Hall.
    rewrite Forall_forall in Hall. apply Hall, no_approval_of in Hin'.
    congruence. }
  split; intro Hin.
  - unfold send in Hin.
    destruct (getSigner context sendingChain) as [signer | ] eqn:Hsigner;
      [ | destruct Hin ].
    destruct token as [ | t].
    { exfalso. eapply Hnot; [ | exact Hin ].
      apply only_bind; [ exact I | intros _ ].
      apply only_bind; [ apply prepareSend_only_not_approval | intro tx ].
      every_call. }
    destruct (BigNumber.from (JsString amount)) as [amountBN | err] eqn:Hamount;
      [ | destruct Hin ].
    destruct (mustGetBridge context sendingChain) as [bridge | ] eqn:Hbridge;
      [ | destruct Hin ].
    simpl lift in Hin. simpl must in Hin. cbn [bind] in Hin.
    eapply (approval_in_transfer h w) in Hin;
      [ | exact Hsigner | | exact Happroval ].
    + destruct Hin as (-> & -> & -> & -> & Htok).
      split; [ reflexivity | ]. exists t. auto.
    + apply only_bind; [ apply prepareSend_only_not_approval | intro tx ].
      every_call.
  - unfold sendWithRelay in Hin.
    destruct (getSigner context sendingChain) as [signer | ] eqn:Hsigner;
      [ | destruct Hin ].
    destruct token as [ | t].
    { exfalso. eapply Hnot; [ | exact Hin ].
      apply only_bind; [ exact I | intros _ ].
      apply only_bind;
        [ apply prepareSendWithRelay_only_not_approval | intro tx ].
      every_call. }
    destruct (BigNumber.from (JsString amount)) as [amountBN | err] eqn:Hamount;
      [ | destruct Hin ].
    destruct (mustGetTokenBridgeRelayer context sendingChain)
      as [relayer | ] eqn:Hrelayer; [ | destruct Hin ].
    simpl lift in Hin. simpl must in Hin. cbn [bind] in Hin.
    eapply (approval_in_transfer h w) in Hin;
      [ | exact Hsigner | | exact Happroval ].
    + destruct Hin as (-> & -> & -> & -> & Htok).
      split; [ reflexivity | ]. exists t. auto.
    + apply only_bind;
        [ apply prepareSendWithRelay_only_not_approval | intro tx ].
      every_call.
Qed.

Lemma transfers_approve_the_contract_they_call_witness :
  mustGetBridge Devnet.context (ById 2) = Some Devnet.eth_bridge
  /\ exists t,
      TokenOf Devnet.usdc = TokenOf t
      /\ returned (run Devnet.network
                     (mustGetForeignAsset Devnet.context t (ById 2))
                     Devnet.genesis)
         = Ok (Types.address Devnet.usdc)
      /\ BigNumber.from (JsString "500") = Ok 500
      /\ no_overrides = no_overrides
      /\ getSigner Devnet.context (ById 2) = Some Devnet.wallet.
Proof.
  apply (proj1 (transfers_approve_the_contract_they_call
                  Devnet.World Devnet.network Devnet.genesis Devnet.context
                  (TokenOf Devnet.usdc) "500"%string "10"%string (ById 2)
                  Devnet.wallet (ById 4) Devnet.wallet (JsNumber 0)
                  no_overrides
                  (Event (approveTx (Types.address Devnet.usdc) Devnet.wallet
                            Devnet.eth_bridge 500 no_overrides) true)
                  (Types.address Devnet.usdc) Devnet.wallet Devnet.eth_bridge
                  500 no_overrides eq_refl)).
  right; right; left. reflexivity.
Defined.

(** ** Transfers of a token that is not registered *)

(** X4: when the token has no representation on the sending chain
    ([getForeignAsset] returns nothing), [send] and [sendWithRelay] fail with
    "token not registered" after the calls of that lookup and no other:
    nothing is approved, simulated, constructed or submitted. *)
Theorem transfers_of_unregistered_token_fail_first :
  forall W (h : handler W) (w : W) context t amount toNativeToken sendingChain
         senderAddress recipientChain recipientAddress relayerFee overrides
         signer amountBN,
    getSigner context sendingChain = Some signer ->
    BigNumber.from (JsString amount) = Ok amountBN ->
    returned (run h (getForeignAsset context t sendingChain) w) = Ok None ->
    let g := run h (getForeignAsset context t sendingChain) w in
    (forall bridge,
        mustGetBridge context sendingChain = Some bridge ->
        run h (send context (TokenOf t) amount sendingChain senderAddress
                 recipientChain recipientAddress relayerFee overrides) w
        = mkOutcome (Err TokenNotRegistered) (final g) (calls g))
    /\ (forall relayer,
           mustGetTokenBridgeRelayer context sendingChain = Some relayer ->
           run h (sendWithRelay context (TokenOf t) amount toNativeToken
                    sendingChain senderAddress recipientChain recipientAddress
                    overrides) w
           = mkOutcome (Err TokenNotRegistered) (final g) (calls g))
    /\ Forall (fun e => event_is is_write e = false) (calls g).
Proof.
  intros W h w context t amount toNativeToken sendingChain senderAddress
    recipientChain recipientAddress relayerFee overrides signer amountBN
    Hsigner Hamount Hnone g.
  assert (Hmust : run h (mustGetForeignAsset context t sendingChain) w
                  = mkOutcome (Err TokenNotRegistered) (final g) (calls g)).
  { rewrite mustGetForeignAsset_run. cbv zeta. rewrite Hnone. reflexivity. }
  repeat split.
  - intros bridge Hbridge. unfold send.
    rewrite Hsigner, Hamount, Hbridge. simpl lift. simpl must. cbn [bind].
    rewrite !run_bind, Hmust. reflexivity.
  - intros relayer Hrelayer. unfold sendWithRelay.
    rewrite Hsigner, Hamount, Hrelayer. simpl lift. simpl must. cbn [bind].
    rewrite !run_bind, Hmust. reflexivity.
  - eapply Forall_impl; [ intros e He; apply negb_event_is, He | ].
    apply only_run, getForeignAsset_reads.
Qed.

Lemma transfers_of_unregistered_token_fail_first_witness :
  run Devnet.network
      (send Devnet.context
         (TokenOf (mkTokenId "bsc" "0x0e09fabb73bd3ade0a17ecc321fd13a19e81ce82"))
         "500" (ById 2) Devnet.wallet (ById 4) Devnet.wallet (JsNumber 0)
         no_overrides)
      Devnet.genesis
  = mkOutcome (Err TokenNotRegistered) Devnet.genesis
      [Event (wrappedAsset Devnet.eth_bridge 4
                (Devnet.pad32 "0x0e09fabb73bd3ade0a17ecc321fd13a19e81ce82"))
         true].
Proof.
  apply (proj1 (transfers_of_unregistered_token_fail_first
                  Devnet.World Devnet.network Devnet.genesis Devnet.context
                  (mkTokenId "bsc" "0x0e09fabb73bd3ade0a17ecc321fd13a19e81ce82")
                  "500"%string "10"%string (ById 2) Devnet.wallet (ById 4)
                  Devnet.wallet (JsNumber 0) no_overrides Devnet.wallet 500
                  eq_refl eq_refl eq_refl)
           Devnet.eth_bridge eq_refl).
Defined.

(** ** The messages of a receipt *)

Lemma ensures_weaken {A} (Q Q' : A -> Prop) (p : prog A) :
  (forall a, Q a -> Q' a) -> ensures Q p -> ensures Q' p.
Proof. intro HQ. induction p as [a | e | R q k IH]; simpl; auto. Qed.

Lemma ensures_mapM_each {A B} (Q : A -> B -> Prop) (f : A -> prog B) xs :
  (forall x, ensures (Q x) (f x)) -> ensures (Forall2 Q xs) (mapM f xs).
Proof.
  intro Hf. induction xs as [ | x r IH]; simpl; [ constructor | ].
  apply ensures_bind.
  apply (ensures_weaken (Q x)); [ | apply Hf ].
  intros y Hy. apply ensures_bind.
  apply (ensures_weaken (Forall2 Q r)); [ | exact IH ].
  intros ys Hys. simpl. constructor; assumption.
Qed.

Lemma parseMessageFromTx_run {W} (h : handler W) w context tx chain receipt w1
      core bridge :
  mustGetProvider context chain = true ->
  h _ (getTransactionReceipt chain tx) w = (Answer (Some receipt), w1) ->
  mustGetCore context chain = Some core ->
  mustGetBridge context chain = Some bridge ->
  run h (parseMessageFromTx context tx chain) w
  = after (Event (getTransactionReceipt chain tx) true)
      (run h (mapM (parseBridgeLog context tx chain bridge receipt
                      (gasFeeOf receipt))
                (bridgeLogsOf core receipt)) w1).
Proof.
  intros Hprovider Hreceipt Hcore Hbridge. unfold parseMessageFromTx.
  rewrite Hprovider. simpl. rewrite Hreceipt, Hcore, Hbridge. reflexivity.
Qed.

(** X5: the edges of [parseMessageFromTx].  When the node knows no receipt
    for the hash, the call fails with "no receipt" after that one query.
    When the receipt has no log of the core contract, the call returns the
    empty list, again after that one query: this is no error. *)
Theorem parseMessageFromTx_without_receipt_or_logs :
  forall W (h : handler W) (w w1 : W) context tx chain,
    mustGetProvider context chain = true ->
    (h _ (getTransactionReceipt chain tx) w = (Answer None, w1) ->
     run h (parseMessageFromTx context tx chain) w
     = mkOutcome (Err NoReceipt) w1
         [Event (getTransactionReceipt chain tx) true])
    /\ (forall receipt core bridge,
           h _ (getTransactionReceipt chain tx) w
             = (Answer (Some receipt), w1) ->
           mustGetCore context chain = Some core ->
           mustGetBridge context chain = Some bridge ->
           Forall (fun l => log_address l <> core) (logs receipt) ->
           run h (parseMessageFromTx context tx chain) w
           = mkOutcome (Ok []) w1
               [Event (getTransactionReceipt chain tx) true]).
Proof.
  intros W h w w1 context tx chain Hprovider. split.
  - intro Hnone. unfold parseMessageFromTx. rewrite Hprovider. simpl.
    rewrite Hnone. reflexivity.
  - intros receipt core bridge Hreceipt Hcore Hbridge Hlogs.
    rewrite (parseMessageFromTx_run h w context tx chain receipt w1 core bridge)
      by assumption.
    assert (Hnone : bridgeLogsOf core receipt = []).
    { unfold bridgeLogsOf. induction Hlogs as [ | l r Hl _ IH]; simpl; auto.
      apply String.eqb_neq in Hl. rewrite Hl. exact IH. }
    rewrite Hnone. reflexivity.
Qed.

Lemma parseMessageFromTx_without_receipt_or_logs_witness :
  run Devnet.network (parseMessageFromTx Devnet.context "0xdd" (ById 2))
      Devnet.genesis
  = mkOutcome (Err NoReceipt) Devnet.genesis
      [Event (getTransactionReceipt (ById 2) "0xdd") true]
  /\ run (fun R q w =>
            match q in request R return reply R * Devnet.World with
            | getTransactionReceipt _ _ =>
                (Answer (Some (mkReceipt Devnet.wallet 21 None None
                                 [Devnet.otherLog])), w)
            | q => Devnet.network _ q w
            end)
         (parseMessageFromTx Devnet.context "0xee" (ById 2)) Devnet.genesis
     = mkOutcome (Ok []) Devnet.genesis
         [Event (getTransactionReceipt (ById 2) "0xee") true].
Proof.
  split.
  - apply (proj1 (parseMessageFromTx_without_receipt_or_logs
                    Devnet.World Devnet.network Devnet.genesis Devnet.genesis
                    Devnet.context "0xdd"%string (ById 2) eq_refl)).
    reflexivity.
  - apply (proj2 (parseMessageFromTx_without_receipt_or_logs
                    Devnet.World _ Devnet.genesis Devnet.genesis
                    Devnet.context "0xee"%string (ById 2) eq_refl)
             (mkReceipt Devnet.wallet 21 None None [Devnet.otherLog])
             Devnet.eth_core Devnet.eth_bridge eq_refl eq_refl eq_refl).
    repeat constructor. discriminate.
Defined.

Lemma parseBridgeLog_keeps context tx chain bridge receipt fee bridgeLog :
  ensures (fun m =>
             (exists args, parsed bridgeLog = Some args
                           /\ sequence (message_of m) = arg_sequence args)
             /\ sendTx (message_of m) = tx
             /\ sender (message_of m) = from receipt
             /\ block (message_of m) = blockNumber receipt
             /\ fromChain (message_of m) = toChainName context chain
             /\ tokenId (message_of m)
                = mkTokenId (tokenChain (message_of m))
                    (tokenAddress (message_of m))
             /\ exists emitter,
                 formatAddress bridge = Ok emitter
                 /\ emitterAddress (message_of m) = Ethers.hexlify emitter)
    (parseBridgeLog context tx chain bridge receipt fee bridgeLog).
Proof.
  unfold parseBridgeLog, parseAssetAddressOf, parseAssetAddress.
  destruct (parsed bridgeLog) as [args | ]; [ | exact I ].
  simpl bind.
  destruct (formatAddress bridge) as [emitter | err]; along;
    try exact I; repeat split; eauto.
Qed.

(** X6: what [parseMessageFromTx] returns, when it returns: one message for
    each log of the core contract, in the order of the logs, each with the
    sequence number of its log.  Each message carries the hash asked for, the
    sender and the block number of the receipt and the name of the chain
    asked for; its [tokenId] is made of its [tokenChain] and [tokenAddress];
    its emitter is the bridge address, padded to 32 bytes, in hex.  So a core
    log that [parseLog] cannot read leaves no partial result: the call
    fails. *)
Theorem parseMessageFromTx_one_message_per_core_log :
  forall W (h : handler W) (w w1 : W) context tx chain receipt core bridge
         msgs,
    mustGetProvider context chain = true ->
    h _ (getTransactionReceipt chain tx) w = (Answer (Some receipt), w1) ->
    mustGetCore context chain = Some core ->
    mustGetBridge context chain = Some bridge ->
    returned (run h (parseMessageFromTx context tx chain) w) = Ok msgs ->
    Forall2 (fun l m =>
               exists args, parsed l = Some args
                            /\ sequence (message_of m) = arg_sequence args)
      (bridgeLogsOf core receipt) msgs
    /\ Forall (fun m =>
                 sendTx (message_of m) = tx
                 /\ sender (message_of m) = from receipt
                 /\ block (message_of m) = blockNumber receipt
                 /\ fromChain (message_of m) = toChainName context chain
                 /\ tokenId (message_of m)
                    = mkTokenId (tokenChain (message_of m))
                        (tokenAddress (message_of m))
                 /\ exists emitter,
                     formatAddress bridge = Ok emitter
                     /\ emitterAddress (message_of m)
                        = Ethers.hexlify emitter)
         msgs.
Proof.
  intros W h w w1 context tx chain receipt core bridge msgs Hprovider Hreceipt
    Hcore Hbridge.
  rewrite (parseMessageFromTx_run h w context tx chain receipt w1 core bridge)
    by assumption.
  cbn [returned after]. intro Hmsgs. split.
  - revert Hmsgs. apply ensures_run, ensures_mapM_each.
    intro l. eapply ensures_weaken; [ | apply parseBridgeLog_keeps ].
    intros m H. apply H.
  - revert Hmsgs. apply ensures_run, ensures_mapM.
    intro l. eapply ensures_weaken; [ | apply parseBridgeLog_keeps ].
    intros m H. apply H.
Qed.

Lemma parseMessageFromTx_one_message_per_core_log_witness :
  exists receipt msgs,
    Devnet.receiptOf "0xaa" = Some receipt
    /\ returned (run Devnet.network
                   (parseMessageFromTx Devnet.context "0xaa" (ById 2))
                   Devnet.genesis) = Ok msgs
    /\ List.length msgs = 2%nat
    /\ Forall2 (fun l m =>
                  exists args, parsed l = Some args
                               /\ sequence (message_of m) = arg_sequence args)
         (bridgeLogsOf Devnet.eth_core receipt) msgs
    /\ Forall (fun m =>
                 sendTx (message_of m) = "0xaa"%string
                 /\ sender (message_of m) = from receipt
                 /\ block (message_of m) = blockNumber receipt
                 /\ fromChain (message_of m)
                    = toChainName Devnet.context (ById 2)
                 /\ tokenId (message_of m)
                    = mkTokenId (tokenChain (message_of m))
                        (tokenAddress (message_of m))
                 /\ exists emitter,
                     formatAddress Devnet.eth_bridge = Ok emitter
                     /\ emitterAddress (message_of m)
                        = Ethers.hexlify emitter)
         msgs.
Proof.
  assert (Hres : exists m1 m2,
             returned (run Devnet.network
                         (parseMessageFromTx Devnet.context "0xaa" (ById 2))
                         Devnet.genesis) = Ok [m1; m2])
    by (vm_compute; do 2 eexists; reflexivity).
  destruct Hres as (m1 & m2 & Hres).
  exists (mkReceipt Devnet.wallet 17 (Some 21000) (Some 3)
            [Devnet.coreLog 7 Devnet.transferPayload; Devnet.otherLog;
             Devnet.coreLog 8 (Devnet.payloadWith x03)]),
    [m1; m2].
  split; [ reflexivity | ]. split; [ exact Hres | ].
  split; [ reflexivity | ].
  exact (parseMessageFromTx_one_message_per_core_log
           Devnet.World Devnet.network Devnet.genesis Devnet.genesis
           Devnet.context "0xaa"%string (ById 2) _ Devnet.eth_core
           Devnet.eth_bridge _ eq_refl eq_refl eq_refl eq_refl Hres).
Defined.

(** ** More on the address codec *)

Lemma hex_of_bytes_is_lower_case b :
  Ethers.map_string Ethers.toLowerCase (Ethers.hex_of_bytes b)
  = Ethers.hex_of_bytes b.
Proof.
  induction b as [ | x r IH]; simpl; [ reflexivity | ].
  rewrite IH. destruct x; reflexivity.
Qed.

(** The checksum changes the case of letters and nothing else. *)
Lemma checksum_chars_of_hex b :
  forall hashed,
    Ethers.map_string Ethers.toLowerCase
      (Ethers.checksum_chars hashed (Ethers.hex_of_bytes b))
    = Ethers.hex_of_bytes b.
Proof.
  induction b as [ | x r IH]; intro hashed; simpl; [ reflexivity | ].
  rewrite IH.
  destruct (8 <=? _)%N; destruct (8 <=? _)%N; destruct x; reflexivity.
Qed.

Lemma getChecksumAddress_hexlify keccak b :
  List.length b = 20%nat ->
  Ethers.getChecksumAddress keccak (Ethers.hexlify b)
  = ("0x" ++ Ethers.checksum_chars
               (keccak (Ethers.char_codes (Ethers.hex_of_bytes b)))
               (Ethers.hex_of_bytes b))%string.
Proof.
  intro Hlen. unfold Ethers.getChecksumAddress, Ethers.hexlify.
  change (substring 2 40 ("0x" ++ Ethers.hex_of_bytes b)%string)
    with (substring 0 40 (Ethers.hex_of_bytes b)).
  replace 40%nat with (String.length (Ethers.hex_of_bytes b))
    by (rewrite hex_of_bytes_length, Hlen; reflexivity).
  rewrite substring_all, hex_of_bytes_is_lower_case. reflexivity.
Qed.

(** X7: the round trip of the codec, on the twenty bytes of an address.  If
    the first byte is not zero, parsing the formatted address gives the
    address back: the same hex digits, in the letter case of the checksum.
    If the first byte is zero, parsing fails with "invalid address". *)
Theorem address_round_trip_needs_nonzero_first_byte :
  forall context x r,
    List.length (x :: r) = 20%nat ->
    let back :=
      rbind (formatAddress (Ethers.hexlify (x :: r)))
            (fun padded => parseAddress context (Ethers.Uint8Array padded)) in
    (x <> x00 ->
     exists a, back = Ok a
               /\ Ethers.map_string Ethers.toLowerCase a
                  = Ethers.hexlify (x :: r))
    /\ (x = x00 -> back = Err (InvalidArgument "invalid address")).
Proof.
  intros context x r Hlen back. subst back.
  rewrite (parseAddress_formatAddress context x r Hlen). split.
  - intro Hx. eexists. split.
    + destruct x; try reflexivity. congruence.
    + rewrite (getChecksumAddress_hexlify _ _ Hlen).
      change (Ethers.map_string Ethers.toLowerCase
                ("0x" ++ ?s)%string)
        with ("0x" ++ Ethers.map_string Ethers.toLowerCase s)%string.
      rewrite checksum_chars_of_hex. reflexivity.
  - intros ->. reflexivity.
Qed.

Lemma address_round_trip_needs_nonzero_first_byte_witness :
  (exists a,
      rbind (formatAddress
               (Ethers.hexlify (Devnet.be_bytes 20
                                  0x90f8bf6a479f320ead074411a4b0e7944ea8c9c1)))
            (fun padded =>
               parseAddress Devnet.context (Ethers.Uint8Array padded))
      = Ok a
      /\ Ethers.map_string Ethers.toLowerCase a
         = Ethers.hexlify (Devnet.be_bytes 20
                             0x90f8bf6a479f320ead074411a4b0e7944ea8c9c1))
  /\ rbind (formatAddress (Ethers.hexlify (repeat x00 20)))
           (fun padded =>
              parseAddress Devnet.context (Ethers.Uint8Array padded))
     = Err (InvalidArgument "invalid address").
Proof.
  split.
  - apply (proj1 (address_round_trip_needs_nonzero_first_byte
                    Devnet.context x90
                    (Devnet.be_bytes 19 0xf8bf6a479f320ead074411a4b0e7944ea8c9c1)
                    eq_refl)).
    discriminate.
  - apply (proj2 (address_round_trip_needs_nonzero_first_byte
                    Devnet.context x00 (repeat x00 19) eq_refl)).
    reflexivity.
Defined.

Lemma map_string_length f s :
  String.length (Ethers.map_string f s) = String.length s.
Proof. induction s as [ | c r IH]; simpl; [ | rewrite IH ]; reflexivity. Qed.

Lemma zeroPad_ok v n padded :
  Ethers.zeroPad v n = Ok padded ->
  exists b,
    Ethers.arrayify v = Ok b
    /\ padded = repeat x00 (n - List.length b) ++ b
    /\ (List.length b <= n)%nat.
Proof.
  unfold Ethers.zeroPad, rbind.
  destruct (Ethers.arrayify v) as [b | err]; [ | discriminate ].
  destruct (Nat.ltb_spec n (List.length b)) as [Hlong | Hfits];
    [ discriminate | ].
  intro H. injection H as <-. exists b. auto.
Qed.

(** X8: the shapes of the codec.  What [formatAddress] returns is 32 bytes
    long: the bytes of the hex string after as many zero bytes as it takes;
    a value of more than 32 bytes is refused.  [parseAddress] gives the same
    result for a byte string and for that byte string behind any number of
    zero bytes, and what it returns is "0x" and forty characters. *)
Theorem address_codec_shapes :
  forall context,
    (forall a padded,
        formatAddress a = Ok padded ->
        List.length padded = 32%nat
        /\ exists b,
            Ethers.arrayify (Ethers.HexString a) = Ok b
            /\ padded = repeat x00 (32 - List.length b) ++ b)
    /\ (forall b,
           (32 < List.length b)%nat ->
           formatAddress (Ethers.hexlify b)
           = Err (InvalidArgument "value out of range"))
    /\ (forall n b,
           parseAddress context (Ethers.Uint8Array (repeat x00 n ++ b))
           = parseAddress context (Ethers.Uint8Array b))
    /\ (forall v a,
           parseAddress context v = Ok a ->
           exists digits,
             a = ("0x" ++ digits)%string /\ String.length digits = 40%nat).
Proof.
  intro context. repeat split.
  - apply zeroPad_ok in H. destruct H as (b & _ & -> & Hfits).
    rewrite length_app, repeat_length. lia.
  - apply zeroPad_ok in H. destruct H as (b & Hb & -> & _). exists b. auto.
  - intros b Hlong. unfold formatAddress, Ethers.zeroPad.
    rewrite arrayify_hexlify. simpl.
    apply Nat.ltb_lt in Hlong. rewrite Hlong. reflexivity.
  - intros n b. unfold parseAddress, Ethers.stripZeros, Ethers.arrayify, rbind.
    rewrite drop_zeros_padding. reflexivity.
  - intros v a. unfold parseAddress, rbind.
    destruct (Ethers.stripZeros v) as [stripped | err]; [ | discriminate ].
    rewrite getAddress_hexlify.
    destruct (Nat.eqb_spec (List.length stripped) 20) as [Hlen | Hlen];
      [ | discriminate ].
    intro H. injection H as <-.
    rewrite (getChecksumAddress_hexlify _ _ Hlen).
    eexists. split; [ reflexivity | ].
    rewrite <- (map_string_length Ethers.toLowerCase),
      checksum_chars_of_hex, hex_of_bytes_length, Hlen.
    reflexivity.
Qed.

Lemma address_codec_shapes_witness :
  (List.length (Devnet.pad32 Devnet.wallet) = 32%nat
   /\ exists b,
       Ethers.arrayify (Ethers.HexString Devnet.wallet) = Ok b
       /\ Devnet.pad32 Devnet.wallet = repeat x00 (32 - List.length b) ++ b)
  /\ formatAddress (Ethers.hexlify (repeat xff 33))
     = Err (InvalidArgument "value out of range")
  /\ exists digits,
      Devnet.wallet = ("0x" ++ digits)%string
      /\ String.length digits = 40%nat.
Proof.
  destruct (address_codec_shapes Devnet.context) as (H1 & H2 & _ & H4).
  split; [ | split ].
  - apply (H1 Devnet.wallet). reflexivity.
  - apply H2. simpl. lia.
  - apply (H4 (Ethers.Uint8Array (Devnet.pad32 Devnet.wallet))). reflexivity.
Defined.

(** ** The recipient on Solana *)

Lemma split_after (P : event -> bool) l r t1 e t2 :
  Forall (fun y => P y = false) l ->
  l ++ r = t1 ++ e :: t2 ->
  P e = true ->
  exists t1', t1 = l ++ t1'.
Proof.
  intro Hl. revert t1.
  induction Hl as [ | y l Hy _ IH]; intros t1 Hsplit He.
  - exists t1. reflexivity.
  - destruct t1 as [ | z t1]; simpl in Hsplit; injection Hsplit as <- Hrest.
    + congruence.
    + destruct (IH t1 Hrest He) as [t1' ->]. exists t1'. reflexivity.
Qed.

(** X9: [prepareSend] and the token account of the recipient.  When the id
    of the recipient chain is 1 (Solana), nothing is simulated before the
    associated token account of the recipient was asked for and answered;
    when it is any other chain, that account is never asked for. *)
Theorem prepareSend_resolves_the_solana_account_first :
  forall W (h : handler W) (w : W) context token amount sendingChain
         senderAddress recipientChain recipientAddress relayerFee overrides,
    let o := run h (prepareSend context token amount sendingChain
                      senderAddress recipientChain recipientAddress relayerFee
                      overrides) w in
    (toChainId context recipientChain <> 1 ->
     Forall (fun e => event_is is_account_query e = false) (calls o))
    /\ (toChainId context recipientChain = 1 ->
        forall t1 e t2,
          calls o = t1 ++ e :: t2 ->
          event_is is_simulation e = true ->
          existsb (fun x => match x with
                            | Event q true => is_account_query _ q
                            | Event _ false => false
                            end) t1 = true).
Proof.
  intros W h w context token amount sendingChain senderAddress recipientChain
    recipientAddress relayerFee overrides o. subst o. unfold prepareSend.
  split.
  - intro Hother. apply Z.eqb_neq in Hother. rewrite Hother.
    eapply Forall_impl; [ intros e He; apply negb_event_is, He | ].
    apply only_run.
    apply only_bind; [ apply only_lift | intro amountBN ].
    apply only_bind; [ apply only_must | intro bridge ].
    apply only_bind; [ exact I | intro account ].
    destruct token as [ | t]; [ every_call | ].
    apply only_bind; [ | intro tokenAddr; every_call ].
    unfold mustGetForeignAsset, getForeignAsset, formatAssetAddressOf,
      formatAssetAddress.
    every_call.
  - intros Hsolana t1 e t2. rewrite Hsolana. change (1 =? 1) with true. cbv iota.
    destruct (BigNumber.from (JsString amount)) as [amountBN | err];
      [ | intro H; destruct t1; discriminate ].
    destruct (mustGetBridge context sendingChain) as [bridge | ];
      [ | intro H; destruct t1; discriminate ].
    simpl lift. simpl must. cbn [bind].
    rewrite run_bind.
    match goal with
    | |- context [run h ?p w] =>
        match p with
        | bind _ (fun tokenId =>
                    call (getAssociatedTokenAddress tokenId _)) =>
            set (account := p)
        end
    end.
    assert (Hquiet : Forall (fun y => event_is is_simulation y = false)
                       (calls (run h account w))).
    { eapply Forall_impl; [ intros x Hx; apply negb_event_is, Hx | ].
      apply only_run. subst account. destruct token; every_call. }
    assert (Hasked : forall a,
               returned (run h account w) = Ok a ->
               existsb (fun x => match x with
                                 | Event q true => is_account_query _ q
                                 | Event _ false => false
                                 end) (calls (run h account w)) = true).
    { intro a. subst account. rewrite run_bind.
      destruct (returned (run h _ w)) as [tokenId | err];
        cbn [returned calls]; [ | discriminate ].
      simpl run.
      destruct (h _ (getAssociatedTokenAddress tokenId recipientAddress) _)
        as [[acct | reason] w']; cbn [returned calls after]; [ | discriminate ].
      intros _. rewrite existsb_app. simpl. apply orb_true_r. }
    destruct (returned (run h account w)) as [a | err] eqn:Haccount;
      cbn [calls].
    + intros Hsplit He.
      destruct (split_after _ _ _ _ _ _ Hquiet Hsplit He) as [t1' ->].
      rewrite existsb_app, (Hasked a eq_refl). reflexivity.
    + intros Hsplit He. exfalso. eapply nowhere; eauto.
Qed.

Lemma prepareSend_resolves_the_solana_account_first_witness :
  existsb (fun x => match x with
                    | Event q true => is_account_query _ q
                    | Event _ false => false
                    end)
    [Event (getAssociatedTokenAddress Devnet.usdc "0x1234") true;
     Event createNonce true] = true.
Proof.
  apply (proj2 (prepareSend_resolves_the_solana_account_first
                  Devnet.World Devnet.network Devnet.genesis Devnet.context
                  (TokenOf Devnet.usdc) "500"%string (ById 2) Devnet.wallet
                  (ById 1) "0x1234"%string (JsNumber 0) no_overrides)
           eq_refl _
           (Event (callStatic Devnet.eth_bridge
                     (transferTokens (Types.address Devnet.usdc) 500 1
                        (Devnet.pad32 "0x1234") (JsNumber 0)
                        (Devnet.be_bytes 4 0)
                        (with_from no_overrides Devnet.wallet))) true)
           [Event createNonce true;
            Event (populateTransaction Devnet.eth_bridge
                     (transferTokens (Types.address Devnet.usdc) 500 1
                        (Devnet.pad32 "0x1234") (JsNumber 0)
                        (Devnet.be_bytes 4 1) no_overrides)) true]).
  - reflexivity.
  - reflexivity.
Defined.

(** ** Scripts *)

Lemma play_andThen {W A B} (h : anyHandler W) (p : script A)
      (f : A -> script B) (w : W) :
  play h (andThen p f) w =
  match result_ (play h p w) with
  | Ok a =>
      let o := play h (f a) (world (play h p w)) in
      mkPlayed (result_ o) (world o) (steps (play h p w) ++ steps o)
  | Err e => mkPlayed (Err e) (world (play h p w)) (steps (play h p w))
  end.
Proof.
  revert w; induction p as [a | e | R q k IH]; intro w; simpl.
  - destruct (play h (f a) w); reflexivity.
  - reflexivity.
  - destruct (h R q w) as [[r | reason] w']; simpl; [ | reflexivity ].
    rewrite IH. destruct (result_ (play h (k r) w')); reflexivity.
Qed.

(** A program of the first kind runs as a script as it runs alone. *)
Lemma play_within {W A} (h : anyHandler W) (p : prog A) (w : W) :
  play h (within p) w =
  mkPlayed (returned (run (onCore h) p w)) (final (run (onCore h) p w))
    (map stepOf (calls (run (onCore h) p w))).
Proof.
  revert w; induction p as [a | e | R q k IH]; intro w; simpl;
    try reflexivity.
  change (onCore h R q w) with (h R (core q) w).
  destruct (h R (core q) w) as [[r | reason] w']; simpl; [ | reflexivity ].
  rewrite IH. reflexivity.
Qed.

Lemma sure_andThen {A B} P (p : script A) (f : A -> script B) :
  sure P p -> (forall a, sure P (f a)) -> sure P (andThen p f).
Proof.
  induction p as [a | e | R q k IH]; simpl; intros Hp Hf; auto.
  destruct Hp as [Hq Hk]. split; auto.
Qed.

Lemma sure_within {A} (P : forall R, anyRequest R -> Prop) (p : prog A) :
  always (fun R q => P R (core q)) p -> sure P (within p).
Proof. induction p as [a | e | R q k IH]; simpl; intuition. Qed.

Lemma sure_play {W A} (h : anyHandler W) P (p : script A) (w : W) :
  sure P p -> Forall (stands P) (steps (play h p w)).
Proof.
  revert w; induction p as [a | e | R q k IH]; intros w Hp; simpl;
    try constructor.
  destruct Hp as [Hq Hk].
  destruct (h R q w) as [[r | reason] w']; simpl.
  - constructor; [ exact Hq | apply IH, Hk ].
  - constructor; [ exact Hq | constructor ].
Qed.

(** ** Balances *)

(** X10: [getTokenBalance] and a token that is not registered.  When the
    lookup of the token on the chain returns nothing (or an empty address),
    the balance is nothing, which is a value and no error, and no call is
    made beyond those of the lookup: the balance of no contract is asked
    for, and no provider is needed.  When the lookup returns an address, a
    provider is needed, and then the one further call asks the token at that
    address for the balance of the wallet.  An error of the lookup is the
    error of the method. *)
Theorem getTokenBalance_of_unregistered_token :
  forall W (h : anyHandler W) (w : W) context walletAddr tokenId chain,
    let g := run (onCore h) (getForeignAsset context tokenId chain) w in
    let b := play h (EthContextRest.getTokenBalance context walletAddr tokenId
                       chain) w in
    (returned g = Ok None \/ returned g = Ok (Some EmptyString) ->
     b = mkPlayed (Ok None) (final g) (map stepOf (calls g)))
    /\ (forall a,
           returned g = Ok (Some a) -> a <> EmptyString ->
           (mustGetProvider context chain = false ->
            b = mkPlayed (Err NoProvider) (final g) (map stepOf (calls g)))
           /\ (mustGetProvider context chain = true ->
               exists answered,
                 steps b = map stepOf (calls g)
                           ++ [Step (more (balanceOf chain a walletAddr))
                                 answered]
                 /\ forall balance w',
                     h _ (more (balanceOf chain a walletAddr)) (final g)
                       = (Answer balance, w') ->
                     result_ b = Ok (Some balance)))
    /\ (forall err,
           returned g = Err err ->
           b = mkPlayed (Err err) (final g) (map stepOf (calls g))).
Proof.
  intros W h w context walletAddr tokenId chain g b.
  subst b. unfold EthContextRest.getTokenBalance.
  rewrite play_andThen, play_within. fold g. cbn [result_ world steps].
  split; [ | split ].
  - intros [Hg | Hg]; rewrite Hg; simpl; rewrite app_nil_r; reflexivity.
  - intros a Hg Ha. rewrite Hg.
    destruct a as [ | c a']; [ congruence | ]. cbn [truthy_string].
    unfold EthContextRest.mustGetProvider_. split; intro Hprovider;
      rewrite Hprovider; simpl.
    + rewrite app_nil_r. reflexivity.
    + destruct (h _ (more (balanceOf chain (String c a') walletAddr)) (final g))
        as [[balance | reason] w'] eqn:Hbalance; simpl.
      * exists true. split; [ reflexivity | ].
        intros balance' w'' H. injection H as <- _. reflexivity.
      * exists false. split; [ reflexivity | ]. intros balance' w'' H.
        discriminate.
  - intros err Hg. rewrite Hg. reflexivity.
Qed.

Lemma getTokenBalance_of_unregistered_token_witness :
  play DevnetRest.network
       (EthContextRest.getTokenBalance Devnet.context Devnet.wallet Devnet.dai
          (ById 4)) Devnet.genesis
  = mkPlayed (Ok None) Devnet.genesis
      [Step (core (wrappedAsset Devnet.bsc_bridge 2
                     (Devnet.pad32 (Types.address Devnet.dai)))) true]
  /\ exists answered,
      steps (play DevnetRest.network
               (EthContextRest.getTokenBalance Devnet.context Devnet.wallet
                  Devnet.usdc (ById 4)) Devnet.genesis)
      = [Step (core (wrappedAsset Devnet.bsc_bridge 2
                       (Devnet.pad32 (Types.address Devnet.usdc)))) true]
        ++ [Step (more (balanceOf (ById 4) Devnet.usdc_on_bsc Devnet.wallet))
              answered]
      /\ forall balance w',
          DevnetRest.network _
            (more (balanceOf (ById 4) Devnet.usdc_on_bsc Devnet.wallet))
            Devnet.genesis = (Answer balance, w') ->
          result_ (play DevnetRest.network
                     (EthContextRest.getTokenBalance Devnet.context
                        Devnet.wallet Devnet.usdc (ById 4)) Devnet.genesis)
          = Ok (Some balance).
Proof.
  split.
  - apply (proj1 (getTokenBalance_of_unregistered_token
                    Devnet.World DevnetRest.network Devnet.genesis
                    Devnet.context Devnet.wallet Devnet.dai (ById 4))).
    left. reflexivity.
  - apply (proj1 (proj2 (getTokenBalance_of_unregistered_token
                           Devnet.World DevnetRest.network Devnet.genesis
                           Devnet.context Devnet.wallet Devnet.usdc (ById 4)))
             Devnet.usdc_on_bsc).
    + reflexivity.
    + discriminate.
    + reflexivity.
Defined.

(** ** Transfers with a payload *)

(** Proves [sure P p] for a script whose calls can be listed. *)
Ltac every_ask :=
  repeat first
    [ exact I
    | progress simpl
    | apply sure_andThen; [ | intro ]
    | apply sure_within
    | apply always_lift | apply always_must
    | apply always_bind; [ | intro ]
    | match goal with
      | |- sure _ (match ?x with _ => _ end) => destruct x
      | |- always _ (match ?x with _ => _ end) => destruct x
      | |- _ /\ _ => split; [ solve [ repeat split; eauto ] | intro ]
      end ].

(** X11: [sendWithPayload] sends its transaction through the bridge contract
    directly: no run simulates a call, constructs a transaction or hands one
    to a signer.  An approval is only made for a token, for the amount of the
    transfer and to the bridge of the sending chain, and always without
    overrides: the overrides of the caller go to the transfer alone. *)
Theorem sendWithPayload_sends_directly :
  forall W (h : anyHandler W) (w : W) context token amount sendingChain
         senderAddress recipientChain recipientAddress payload overrides,
    let o := play h (EthContextRest.sendWithPayload context token amount
                       sendingChain senderAddress recipientChain
                       recipientAddress payload overrides) w in
    Forall (fun s => is_pipeline_step s = false) (steps o)
    /\ forall s tok signer sp amt ov,
        In s (steps o) ->
        approval_step_of s = Some (tok, signer, sp, amt, ov) ->
        ov = no_overrides
        /\ mustGetBridge context sendingChain = Some sp
        /\ BigNumber.from (JsString amount) = Ok amt
        /\ exists t, token = TokenOf t.
Proof.
  intros W h w context token amount sendingChain senderAddress recipientChain
    recipientAddress payload overrides o. subst o.
  unfold EthContextRest.sendWithPayload. split.
  - eapply Forall_impl;
      [ | apply (sure_play h
                   (fun R q => is_pipeline_step (Step q true) = false)) ].
    + intros [R q answered] Hs. exact Hs.
    + unfold mustGetForeignAsset, getForeignAsset, formatAssetAddressOf,
        formatAssetAddress, approve.
      every_ask.
  - intros s tok signer sp amt ov Hin Happroval.
    destruct (mustGetBridge context sendingChain) as [bridge | ] eqn:Hbridge;
      [ | destruct Hin ].
    destruct (BigNumber.from (JsString amount)) as [amountBN | err] eqn:Hamount;
      [ | destruct Hin ].
    simpl in Hin.
    pose (P := fun R (q : anyRequest R) =>
                 match q with
                 | core q' =>
                     match q' with
                     | approveTx _ _ sp' amt' ov' =>
                         sp' = bridge /\ amt' = amountBN
                         /\ ov' = no_overrides
                         /\ exists t, token = TokenOf t
                     | _ => True
                     end
                 | more _ => True
                 end).
    match type of Hin with
    | In _ (steps (play h ?p w)) =>
        assert (Hsure : Forall (stands P) (steps (play h p w)))
          by (apply sure_play; subst P; destruct token as [ | t];
              unfold mustGetForeignAsset, getForeignAsset,
                formatAssetAddressOf, formatAssetAddress, approve;
              every_ask; eauto)
    end.
    rewrite Forall_forall in Hsure. specialize (Hsure s Hin).
    destruct s as [R q answered]. destruct q as [R q | R q];
      [ | discriminate ].
    destruct q; try discriminate. simpl in Hsure, Happroval.
    destruct Hsure as (-> & -> & -> & Ht).
    injection Happroval as _ _ <- <- <-. auto.
Qed.

Lemma sendWithPayload_sends_directly_witness :
  no_overrides = no_overrides
  /\ mustGetBridge Devnet.context (ById 2) = Some Devnet.eth_bridge
  /\ BigNumber.from (JsString "500") = Ok 500
  /\ exists t, TokenOf Devnet.usdc = TokenOf t.
Proof.
  apply (proj2 (sendWithPayload_sends_directly
                  Devnet.World DevnetRest.network Devnet.genesis
                  Devnet.context (TokenOf Devnet.usdc) "500"%string (ById 2)
                  Devnet.wallet (ById 4) Devnet.wallet [x01; x02]
                  (mkOverrides None None [("gasLimit", "100000")%string]))
           (Step (core (approveTx (Types.address Devnet.usdc) Devnet.wallet
                          Devnet.eth_bridge 500 no_overrides)) true)
           (Types.address Devnet.usdc) Devnet.wallet Devnet.eth_bridge 500
           no_overrides).
  - right; right; left. reflexivity.
  - reflexivity.
Defined.

(** ** Queries to the relayer *)

(** X12: the three queries to the relayer contract resolve the token first.
    When the token is not registered on the chain ([getForeignAsset] returns
    nothing), [getRelayerFee], [calculateMaxSwapAmount] and
    [calculateNativeTokenAmt] fail with "token not registered" after the
    calls of that lookup: neither the relayer contract nor the token contract
    is asked anything.  When the chain has no relayer contract they fail
    before any call.  The wallet address given to the two calculations
    changes nothing. *)
Theorem relayer_queries_resolve_the_token_first :
  forall W (h : anyHandler W) (w : W) context chain destChain tokenId amount
         walletAddress,
    let g := run (onCore h) (getForeignAsset context tokenId chain) w in
    let fee := EthContextRest.getRelayerFee context chain destChain tokenId in
    let swap :=
      EthContextRest.calculateMaxSwapAmount context chain tokenId
        walletAddress in
    let native :=
      EthContextRest.calculateNativeTokenAmt context chain tokenId amount
        walletAddress in
    (forall relayer,
        mustGetTokenBridgeRelayer context chain = Some relayer ->
        returned g = Ok None ->
        play h fee w
          = mkPlayed (Err TokenNotRegistered) (final g) (map stepOf (calls g))
        /\ play h swap w
           = mkPlayed (Err TokenNotRegistered) (final g)
               (map stepOf (calls g))
        /\ play h native w
           = mkPlayed (Err TokenNotRegistered) (final g)
               (map stepOf (calls g))
        /\ Forall (fun s => asked s = false) (map stepOf (calls g)))
    /\ (mustGetTokenBridgeRelayer context chain = None ->
        play h fee w = mkPlayed (Err (NoContract "relayer")) w []
        /\ play h swap w = mkPlayed (Err (NoContract "relayer")) w []
        /\ play h native w = mkPlayed (Err (NoContract "relayer")) w [])
    /\ (forall other,
           swap = EthContextRest.calculateMaxSwapAmount context chain tokenId
                    other
           /\ native = EthContextRest.calculateNativeTokenAmt context chain
                         tokenId amount other).
Proof.
  intros W h w context chain destChain tokenId amount walletAddress g fee swap
    native.
  subst fee swap native.
  unfold EthContextRest.getRelayerFee, EthContextRest.calculateMaxSwapAmount,
    EthContextRest.calculateNativeTokenAmt.
  split; [ | split ].
  - intros relayer Hrelayer Hnone. rewrite Hrelayer. simpl.
    assert (Hmust : play h (within (mustGetForeignAsset context tokenId chain))
                      w
                    = mkPlayed (Err TokenNotRegistered) (final g)
                        (map stepOf (calls g))).
    { rewrite play_within, mustGetForeignAsset_run. cbv zeta. fold g.
      rewrite Hnone. reflexivity. }
    rewrite !play_andThen, Hmust. repeat split.
    apply Forall_forall. intros s Hs. apply in_map_iff in Hs.
    destruct Hs as ([R q answered] & <- & _). reflexivity.
  - intro Hnone. rewrite Hnone. simpl. auto.
  - intro other. split; reflexivity.
Qed.

Lemma relayer_queries_resolve_the_token_first_witness :
  play DevnetRest.network
       (EthContextRest.getRelayerFee Devnet.context (ById 2) (ById 4)
          (mkTokenId "bsc" "0x0e09fabb73bd3ade0a17ecc321fd13a19e81ce82"))
       Devnet.genesis
  = mkPlayed (Err TokenNotRegistered) Devnet.genesis
      [Step (core (wrappedAsset Devnet.eth_bridge 4
                     (Devnet.pad32
                        "0x0e09fabb73bd3ade0a17ecc321fd13a19e81ce82"))) true]
  /\ play DevnetRest.network
          (EthContextRest.calculateMaxSwapAmount Devnet.context (ById 4)
             Devnet.usdc Devnet.wallet)
          Devnet.genesis
     = mkPlayed (Err (NoContract "relayer")) Devnet.genesis [].
Proof.
  split.
  - apply (proj1 (relayer_queries_resolve_the_token_first
                    Devnet.World DevnetRest.network Devnet.genesis
                    Devnet.context (ById 2) (ById 4)
                    (mkTokenId "bsc"
                       "0x0e09fabb73bd3ade0a17ecc321fd13a19e81ce82")
                    (JsNumber 1) Devnet.wallet)
             Devnet.eth_relayer eq_refl eq_refl).
  - apply (proj1 (proj2 (relayer_queries_resolve_the_token_first
                           Devnet.World DevnetRest.network Devnet.genesis
                           Devnet.context (ById 4) (ById 2) Devnet.usdc
                           (JsNumber 1) Devnet.wallet))
             eq_refl).
Defined.

(** X13: how [getRelayerFee] composes.  With the relayer contract and a
    provider of the source chain in place and the token registered there at
    [address], two calls follow those of the lookup: the decimals of the
    token at [address] on the source chain, then the fee of the relayer of
    the source chain for the id of the destination chain, that address and
    those decimals; the answer to the second is what the method returns. *)
Theorem getRelayerFee_asks_decimals_then_fee :
  forall W (h : anyHandler W) (w w1 w2 w3 : W) context sourceChain destChain
         tokenId relayer address t1 d fee,
    mustGetTokenBridgeRelayer context sourceChain = Some relayer ->
    mustGetProvider context sourceChain = true ->
    run (onCore h) (mustGetForeignAsset context tokenId sourceChain) w
      = mkOutcome (Ok address) w1 t1 ->
    h _ (more (decimals sourceChain address)) w1 = (Answer d, w2) ->
    h _ (more (calculateRelayerFee relayer (toChainId context destChain)
                 address d)) w2 = (Answer fee, w3) ->
    play h (EthContextRest.getRelayerFee context sourceChain destChain tokenId)
         w
    = mkPlayed (Ok fee) w3
        (map stepOf t1
         ++ [Step (more (decimals sourceChain address)) true;
             Step (more (calculateRelayerFee relayer
                           (toChainId context destChain) address d)) true]).
Proof.
  intros W h w w1 w2 w3 context sourceChain destChain tokenId relayer address
    t1 d fee Hrelayer Hprovider Hasset Hdecimals Hfee.
  unfold EthContextRest.getRelayerFee, EthContextRest.mustGetProvider_.
  rewrite Hrelayer, Hprovider. simpl.
  rewrite play_andThen, play_within, Hasset. simpl.
  rewrite Hdecimals, Hfee. reflexivity.
Qed.

Lemma getRelayerFee_asks_decimals_then_fee_witness :
  play DevnetRest.network
       (EthContextRest.getRelayerFee Devnet.context (ById 2) (ById 4)
          Devnet.usdc) Devnet.genesis
  = mkPlayed (Ok 25000000) Devnet.genesis
      (map stepOf []
       ++ [Step (more (decimals (ById 2) (Types.address Devnet.usdc))) true;
           Step (more (calculateRelayerFee Devnet.eth_relayer
                         (toChainId Devnet.context (ById 4))
                         (Types.address Devnet.usdc) 6)) true]).
Proof.
  apply (getRelayerFee_asks_decimals_then_fee
           Devnet.World DevnetRest.network Devnet.genesis Devnet.genesis
           Devnet.genesis Devnet.genesis Devnet.context (ById 2) (ById 4)
           Devnet.usdc Devnet.eth_relayer (Types.address Devnet.usdc) [] 6
           25000000); reflexivity.
Defined.

(** ** The amount field *)

Lemma string_length_app a b :
  String.length (a ++ b)%string = (String.length a + String.length b)%nat.
Proof. induction a as [ | c r IH]; simpl; [ | rewrite IH ]; reflexivity. Qed.

Lemma indexOf_dotless s :
  AmountInput.dotless s = true -> AmountInput.indexOf "." s = None.
Proof.
  unfold AmountInput.dotless.
  induction s as [ | c r IH]; simpl; [ reflexivity | ].
  destruct (Ascii.eqb c "."); simpl; [ discriminate | ].
  intro Hr. rewrite (IH Hr). reflexivity.
Qed.

Lemma indexOf_first_dot whole rest :
  AmountInput.dotless whole = true ->
  AmountInput.indexOf "." (whole ++ String "." rest)%string
  = Some (String.length whole).
Proof.
  unfold AmountInput.dotless.
  induction whole as [ | c r IH]; simpl; [ reflexivity | ].
  destruct (Ascii.eqb c "."); simpl; [ discriminate | ].
  intro Hr. rewrite (IH Hr). reflexivity.
Qed.

(** X14: what the amount field passes on.  A value that begins with a dot
    becomes "0.", whatever was typed after the dot, and "0." is passed on as
    it is.  A value without a dot, and a value whose only dot is its last
    character after at least one other character, are passed on unchanged.
    Any other value, with characters on both sides of its first dot, is cut
    by [toFixedDecimals] to 8 decimals. *)
Theorem handleAmountChange_by_the_first_dot :
  forall toFixedDecimals,
    let handle := AmountInput.handleAmountChange toFixedDecimals in
    (forall typed, handle (String "." typed) = "0."%string)
    /\ handle "0."%string = "0."%string
    /\ (forall value, AmountInput.dotless value = true -> handle value = value)
    /\ (forall c whole,
           AmountInput.dotless (String c whole) = true ->
           handle (String c whole ++ ".")%string
           = (String c whole ++ ".")%string)
    /\ (forall c whole d rest,
           AmountInput.dotless (String c whole) = true ->
           handle (String c whole ++ String "." (String d rest))%string
           = toFixedDecimals
               (String c whole ++ String "." (String d rest))%string 8%nat).
Proof.
  intros toFixedDecimals handle. subst handle.
  unfold AmountInput.handleAmountChange. repeat split.
  - intros value Hvalue. rewrite (indexOf_dotless _ Hvalue). reflexivity.
  - intros c whole Hwhole. rewrite (indexOf_first_dot _ _ Hwhole).
    cbn [String.length]. rewrite string_length_app. cbn [String.length].
    match goal with
    | |- context [ (?i <? ?n)%nat ] => destruct (Nat.ltb_spec i n) as [Hlt | _]
    end; [ lia | reflexivity ].
  - intros c whole d rest Hwhole. rewrite (indexOf_first_dot _ _ Hwhole).
    cbn [String.length]. rewrite string_length_app. cbn [String.length].
    match goal with
    | |- context [ (?i <? ?n)%nat ] => destruct (Nat.ltb_spec i n) as [_ | Hge]
    end; [ reflexivity | lia ].
Qed.

Lemma handleAmountChange_by_the_first_dot_witness :
  AmountInput.handleAmountChange (fun v _ => v) "1234" = "1234"%string
  /\ AmountInput.handleAmountChange (fun v _ => v) "12." = "12."%string
  /\ AmountInput.handleAmountChange (fun v n => substring 0 (n + 2) v)
       "1.123456789"
     = "1.12345678"%string.
Proof.
  destruct (handleAmountChange_by_the_first_dot (fun v _ => v))
    as (_ & _ & H3 & H4 & _).
  destruct (handleAmountChange_by_the_first_dot
              (fun v n => substring 0 (n + 2) v)) as (_ & _ & _ & _ & H5).
  split; [ | split ].
  - apply H3. reflexivity.
  - apply (H4 "1"%char "2"%string). reflexivity.
  - apply (H5 "1"%char EmptyString "1"%char "23456789"%string). reflexivity.
Defined.

(** ** The token account on Aptos *)

(** X15: the account shown for a token of Aptos is the part of the address
    before the first "::": the address is that account followed by nothing
    or by a rest that begins with "::", the account itself has no "::" in
    it, and an address without "::" is its own account. *)
Theorem tokenAccount_is_the_part_before_the_separator :
  forall address,
    (exists rest,
        address = (AddToWallet.tokenAccount address ++ rest)%string
        /\ (rest = EmptyString
            \/ exists rest', rest = String ":" (String ":" rest')))
    /\ AddToWallet.has_separator (AddToWallet.tokenAccount address) = false
    /\ (AddToWallet.has_separator address = false ->
        AddToWallet.tokenAccount address = address).
Proof.
  intro address.
  assert (Hstep : forall c r,
             (exists r', c = ":"%char /\ r = String ":" r')
             \/ (AddToWallet.tokenAccount (String c r)
                 = String c (AddToWallet.tokenAccount r)
                 /\ AddToWallet.has_separator (String c r)
                    = AddToWallet.has_separator r)).
  { intros c r.
    destruct (Ascii.eqb_spec c ":") as [-> | Hc].
    - destruct r as [ | c' r'].
      + right. split; reflexivity.
      + destruct (Ascii.eqb_spec c' ":") as [-> | Hc'].
        * left. eauto.
        * right.
          destruct c' as [[] [] [] [] [] [] [] []];
            try (split; reflexivity); congruence.
    - right.
      destruct c as [[] [] [] [] [] [] [] []];
        try (split; reflexivity); congruence. }
  assert (Hhead : forall c r,
             AddToWallet.tokenAccount (String c r)
             = String c (AddToWallet.tokenAccount r) ->
             AddToWallet.has_separator
               (String c (AddToWallet.tokenAccount r))
             = AddToWallet.has_separator (AddToWallet.tokenAccount r)).
  { intros c r Hc.
    destruct (Hstep c (AddToWallet.tokenAccount r))
      as [(r' & -> & Hr') | [_ H]]; [ | exact H ].
    exfalso.
    destruct r as [ | c' r'']; [ discriminate | ].
    destruct (Hstep c' r'') as [(r3 & -> & ->) | [Hc' _]].
    - discriminate.
    - rewrite Hc' in Hr'. injection Hr' as -> _.
      destruct r'' as [ | c3 r3]; discriminate. }
  induction address as [ | c r IH].
  - repeat split; try reflexivity. exists EmptyString. auto.
  - destruct IH as ((rest & Hrest & Hshape) & Hnone & Hsame).
    destruct (Hstep c r) as [(r' & -> & ->) | [Hc Hsep]].
    + repeat split; try reflexivity.
      * exists (String ":" (String ":" r')). split; [ reflexivity | eauto ].
      * discriminate.
    + rewrite Hc. repeat split.
      * exists rest. simpl. rewrite <- Hrest. auto.
      * rewrite (Hhead c r Hc). exact Hnone.
      * rewrite Hsep. intro H. rewrite (Hsame H). reflexivity.
Qed.

Lemma tokenAccount_is_the_part_before_the_separator_witness :
  AddToWallet.tokenAccount "0x1::aptos_coin::AptosCoin" = "0x1"%string
  /\ AddToWallet.tokenAccount "0x1" = "0x1"%string.
Proof.
  split; [ reflexivity | ].
  apply (proj2 (proj2 (tokenAccount_is_the_part_before_the_separator
                         "0x1"))).
  reflexivity.
Defined.
